(** * Reconciliation front end (streamlit_app.py): model and properties

    A shallow embedding of the orchestration code of [streamlit_app.py]:
    the file validator, the health probe with its retry loop, the request
    wrapper, the button handlers that mutate [st.session_state], and the
    two download handlers.

    Conventions of the embedding.
    - Python values are the inductive [pyval]; a [dict] is an association
      list in insertion order, [st.session_state] is a finite map from key
      to value.
    - Python [str] is [string], holding the UTF-8 encoding of the text:
      lengths and slices count characters, not bytes. [str.lower] is
      modelled on the ASCII letters, which is all that a comparison with
      [csv], [xlsx] and [xls] can observe.
    - The network is an oracle [net : nat -> net_outcome]: the n-th HTTP
      request issued by the program receives [net n]. Every effect (request,
      sleep, message shown to the user) is appended to a log. *)

From Stdlib Require Import ZArith String Ascii List Bool Lia Floats DecimalString.
From stdpp Require Import gmap strings list fin_maps.
Import ListNotations.

Set Warnings "-register-all".
Open Scope Z_scope.
Open Scope string_scope.

(** ** Python values *)

Inductive pyval : Type :=
| PNone
| PBool (b : bool)
| PInt (z : Z)
| PFloat (f : float)
| PStr (s : string)
| PList (l : list pyval)
| PDict (d : list (string * pyval)).

(** [bool(v)] *)
Definition truthy (v : pyval) : bool :=
  match v with
  | PNone => false
  | PBool b => b
  | PInt z => negb (z =? 0)%Z
  | PFloat f => negb (PrimFloat.eqb f 0%float)
  | PStr s => negb (String.eqb s "")
  | PList l => match l with [] => false | _ :: _ => true end
  | PDict d => match d with [] => false | _ :: _ => true end
  end.

(** ** Strings *)

Module Str.

Definition lower_ascii (c : ascii) : ascii :=
  let n := N_of_ascii c in
  if ((65 <=? n) && (n <=? 90))%N then ascii_of_N (n + 32) else c.

(** [s.lower()] *)
Fixpoint lower (s : string) : string :=
  match s with
  | EmptyString => EmptyString
  | String c s' => String (lower_ascii c) (lower s')
  end.

(** [s.split(sep)] for a one-character separator: never empty. *)
Fixpoint split (sep : ascii) (s : string) : list string :=
  match s with
  | EmptyString => [EmptyString]
  | String c s' =>
      if Ascii.eqb c sep then EmptyString :: split sep s'
      else match split sep s' with
           | seg :: rest => String c seg :: rest
           | [] => [String c EmptyString]
           end
  end.

(** [sep.join(l)] *)
Fixpoint join (sep : string) (l : list string) : string :=
  match l with
  | [] => ""
  | [x] => x
  | x :: rest => x ++ sep ++ join sep rest
  end.

(** [c not in s] *)
Fixpoint lacks (c : ascii) (s : string) : bool :=
  match s with
  | EmptyString => true
  | String c' s' => negb (Ascii.eqb c' c) && lacks c s'
  end.

(** A [str] is held as its UTF-8 encoding. A character is a byte that is
    not a continuation byte ([10xxxxxx]), with the continuation bytes that
    follow it. *)
Definition continues (c : ascii) : bool :=
  let n := N_of_ascii c in ((128 <=? n) && (n <? 192))%N.

(** [len(s)]: the number of characters. *)
Fixpoint len (s : string) : nat :=
  match s with
  | EmptyString => 0
  | String c s' => if continues c then len s' else S (len s')
  end.

(** [s[:n]]: the first [n] characters, each with all its bytes. *)
Fixpoint prefix (n : nat) (s : string) : string :=
  match s with
  | EmptyString => EmptyString
  | String c s' =>
      if continues c then String c (prefix n s')
      else match n with
           | O => EmptyString
           | S n' => String c (prefix n' s')
           end
  end.

(** [s] does not start in the middle of a character. *)
Definition starts_character (s : string) : bool :=
  match s with
  | EmptyString => true
  | String c _ => negb (continues c)
  end.

(** [list(s)]: the characters of [s], in order. *)
Fixpoint chars (s : string) : list string :=
  match s with
  | EmptyString => []
  | String c s' =>
      if starts_character s' then String c EmptyString :: chars s'
      else match chars s' with
           | ch :: rest => String c ch :: rest
           | [] => [String c EmptyString]
           end
  end.

(** [str(z)] for an [int] *)
Definition of_Z (z : Z) : string := NilZero.string_of_int (Z.to_int z).

End Str.

(** ** FileValidator: [validate_file] *)

(** What the code reads of a Streamlit [UploadedFile]. *)
Record UploadedFile : Type := {
  name : string;
  size : Z;
  type : string;
  getvalue : string
}.

Definition allowed_extensions : list string := ["csv"; "xlsx"; "xls"].

Definition max_file_size : Z := 50 * 1024 * 1024.

(** [file.name.split('.')[-1].lower()]; [split] never returns the empty
    list (lemma [split_nonempty]), so the index [-1] never raises. *)
Definition file_extension (f : UploadedFile) : string :=
  Str.lower (List.last (Str.split "." (name f)) "").

Definition validate_file (file : option UploadedFile) (file_type : string)
  : bool * string :=
  match file with
  | None => (false, file_type ++ " file is required")
  | Some f =>
      if (size f >? max_file_size)%Z
      then (false, file_type ++ " file is too large (max 50MB)")
      else if negb (existsb (String.eqb (file_extension f)) allowed_extensions)
      then (false, file_type ++ " must be one of: "
                     ++ Str.join ", " allowed_extensions)
      else (true, "Valid")
  end.

(** The three failure messages and the success value, as the code builds
    them. *)
Definition MissingFile (file_type : string) : bool * string :=
  (false, file_type ++ " file is required").
Definition TooLarge (file_type : string) : bool * string :=
  (false, file_type ++ " file is too large (max 50MB)").
Definition UnsupportedExtension (file_type : string) : bool * string :=
  (false, file_type ++ " must be one of: csv, xlsx, xls").
Definition Valid : bool * string := (true, "Valid").

(** [ext] is what follows the last ['.'] of [nm]. *)
Definition after_last_dot (nm ext : string) : Prop :=
  (exists pre, nm = pre ++ "." ++ ext) /\ Str.lacks "." ext = true.

(** [ext], once lowered, is one of the three allowed extensions. *)
Definition allowed (ext : string) : Prop :=
  In (Str.lower ext) allowed_extensions.

(** ** The network and the effects of a script run *)

(** The classes of [requests.exceptions] the code tells apart, and every
    other [Exception]. [SSLError] and [ConnectTimeout] are subclasses of
    [ConnectionError]; [ConnectTimeout] and [ReadTimeout] are subclasses of
    [Timeout]. *)
Inductive exn_class : Type :=
| SSLError | ConnectionError | ConnectTimeout | ReadTimeout | OtherException.

Record exn : Type := { cls : exn_class; str : string }.

Definition isinstance_SSLError (e : exn) : bool :=
  match cls e with SSLError => true | _ => false end.
Definition isinstance_ConnectionError (e : exn) : bool :=
  match cls e with
  | SSLError | ConnectionError | ConnectTimeout => true
  | _ => false
  end.
Definition isinstance_Timeout (e : exn) : bool :=
  match cls e with ConnectTimeout | ReadTimeout => true | _ => false end.

(** A [requests.Response]: [json] is what [response.json()] returns, [None]
    when it raises. *)
Record response : Type := {
  status_code : Z;
  text : string;
  json : option pyval
}.

(** [bool(response)] is [response.ok]: no 4xx or 5xx status. *)
Definition response_truthy (r : response) : bool :=
  negb ((400 <=? status_code r)%Z && (status_code r <? 600)%Z).

Inductive net_outcome : Type :=
| Responds (r : response)
| Raises (e : exn).

(** One entry of the [files] dictionary of an upload:
    [(file.name, file.getvalue(), file.type)]. *)
Definition file_part : Type := (string * string * string)%type.

Inductive body : Type :=
| NoBody
| Multipart (files : list (string * file_part))
| JsonBody (data : pyval).

Record request : Type := {
  req_method : string;
  req_url : string;
  req_timeout : Z;
  req_body : body
}.

Inductive effect : Type :=
| Request (r : request)
| Sleep (seconds : Z)
| Print (msg : string)
| StInfo (msg : string)
| StSuccess (msg : string)
| StError (msg : string)
| StWrite (msg : string)
| DownloadCsv (rows : list (list (string * pyval)))
| DownloadJson (report : pyval).

(** Exceptions that escape a handler and end the script run. *)
Inductive pyexn : Type :=
| KeyError (key : string)
| AttributeError (attr : string)
| TypeError
| JSONDecodeError
| RerunException.

Record world : Type := {
  session_state : gmap string pyval;
  sent : nat;
  log : list effect
}.

Inductive res (A : Type) : Type :=
| Ok (a : A)
| Raise (e : pyexn).
Arguments Ok {A} a.
Arguments Raise {A} e.

Definition M (A : Type) : Type := world -> res A * world.

Definition ret {A} (a : A) : M A := fun w => (Ok a, w).

Definition bind {A B} (c : M A) (k : A -> M B) : M B :=
  fun w => match c w with
           | (Ok a, w') => k a w'
           | (Raise e, w') => (Raise e, w')
           end.

Definition raise {A} (e : pyexn) : M A := fun w => (Raise e, w).

Notation "'let*' x ':=' c 'in' k" := (bind c (fun x => k))
  (at level 10, x pattern, c at level 100, k at level 200).
Notation "c ';;' k" := (bind c (fun _ => k))
  (at level 100, k at level 200, right associativity).

Definition emit (e : effect) : M unit :=
  fun w => (Ok tt, {| session_state := session_state w; sent := sent w;
                      log := (log w ++ [e])%list |}).

(** Number of HTTP requests issued between two worlds. *)
Definition requests_between (w w' : world) : nat := (sent w' - sent w)%nat.

Section Backend.

(** [os.getenv("FLASK_BACKEND_URL", ...)] *)
Variable BACKEND_URL : string.

(** The n-th request issued receives [net n]. *)
Variable net : nat -> net_outcome.

Definition REQUEST_TIMEOUT : Z := 300.

(** [requests.get] / [requests.post]: one request, one outcome. *)
Definition http (r : request) : M net_outcome :=
  fun w => (Ok (net (sent w)),
            {| session_state := session_state w; sent := S (sent w);
               log := (log w ++ [Request r])%list |}).

(** *** ResilientConnectionProbe: [test_backend_connection] *)

Definition max_retries : nat := 3.
Definition base_delay : Z := 2.

Definition health_request : request :=
  {| req_method := "GET"; req_url := BACKEND_URL ++ "/health";
     req_timeout := 45; req_body := NoBody |}.

Definition attempt_label (attempt : nat) : string :=
  "(attempt " ++ Str.of_Z (Z.of_nat attempt + 1) ++ "/"
    ++ Str.of_Z (Z.of_nat max_retries) ++ ")".

(** The tail of the loop body: the wait before the next attempt. *)
Definition backoff (attempt : nat) : M unit :=
  if (attempt <? max_retries - 1)%nat then
    let delay := (base_delay * 2 ^ Z.of_nat attempt)%Z in
    emit (StInfo ("Retrying in " ++ Str.of_Z delay ++ " seconds... "
                    ++ attempt_label attempt)) ;;
    emit (Sleep delay)
  else ret tt.

(** What an [except] clause of the loop decides: [Some result] when it
    returns, [None] when control falls through to the backoff. *)
Definition on_exception (attempt : nat) (e : exn) : option (bool * string) :=
  let last := (attempt =? max_retries - 1)%nat in
  if isinstance_SSLError e then
    let error_msg := "SSL Error: " ++ Str.prefix 100 (str e) in
    if last then Some (false, error_msg) else None
  else if isinstance_ConnectionError e then
    let error_msg := "Connection Error: " ++ Str.prefix 100 (str e) in
    if last then Some (false, error_msg) else None
  else if isinstance_Timeout e then
    if last then Some (false, "Timeout - Backend may be sleeping on Render")
    else None
  else
    let error_msg := "Unexpected error: " ++ Str.prefix 100 (str e) in
    if last then Some (false, error_msg) else None.

(** [for attempt in range(max_retries): ...] followed by the final
    [return False, "Max retries exceeded"]. *)
Fixpoint probe_loop (attempts : list nat) : M (bool * string) :=
  match attempts with
  | [] => ret (false, "Max retries exceeded")
  | attempt :: rest =>
      let* out := http health_request in
      match out with
      | Responds r =>
          if (status_code r =? 200)%Z
          then ret (true, "Connected (HTTP " ++ Str.of_Z (status_code r) ++ ")")
          else ret (false, "HTTP " ++ Str.of_Z (status_code r) ++ ": "
                             ++ Str.prefix 100 (text r))
      | Raises e =>
          match on_exception attempt e with
          | Some result => ret result
          | None => backoff attempt ;; probe_loop rest
          end
      end
  end.

Definition test_backend_connection : M (bool * string) :=
  probe_loop (seq 0 max_retries).

(** *** RequestClient: [make_api_request] *)

(** The branch of the [if]/[elif] chain taken, as the request it issues;
    [None] is the final [else]. [files] and [data] default to [None]. *)
Definition select_request (endpoint method : string) (data : pyval)
  (files : option (list (string * file_part))) : option request :=
  let url := BACKEND_URL ++ endpoint in
  let files_truthy :=
    match files with Some (_ :: _) => true | _ => false end in
  if String.eqb method "GET" then
    Some {| req_method := "GET"; req_url := url;
            req_timeout := REQUEST_TIMEOUT; req_body := NoBody |}
  else if String.eqb method "POST" && files_truthy then
    Some {| req_method := "POST"; req_url := url;
            req_timeout := REQUEST_TIMEOUT;
            req_body := Multipart (default [] files) |}
  else if String.eqb method "POST" && truthy data then
    Some {| req_method := "POST"; req_url := url;
            req_timeout := REQUEST_TIMEOUT; req_body := JsonBody data |}
  else None.

(** The three [except] clauses, in the order of the source. *)
Definition request_error (e : exn) : string :=
  if isinstance_Timeout e then
    "Request timed out. The operation may be taking longer than expected."
  else if isinstance_ConnectionError e then
    "Failed to connect to backend. The service may be starting up."
  else "Request failed: " ++ str e.

(** Returns the pair [(response, error)], one of the two being [None]. *)
Definition make_api_request (endpoint method : string) (data : pyval)
  (files : option (list (string * file_part)))
  : M (option response * option string) :=
  emit (Print ("DEBUG: Making " ++ method ++ " request to: "
                 ++ BACKEND_URL ++ endpoint)) ;;
  match select_request endpoint method data files with
  | Some req =>
      let* out := http req in
      match out with
      | Responds r => ret (Some r, None)
      | Raises e => ret (None, Some (request_error e))
      end
  | None => ret (None, Some "Invalid request method")
  end.

End Backend.

(** ** Python dictionaries and fallible reads *)

(** Pure code that may raise: the result or the exception. *)
Definition rbind {A B} (c : res A) (k : A -> res B) : res B :=
  match c with
  | Ok a => k a
  | Raise e => Raise e
  end.

Notation "'let?' x ':=' c 'in' k" := (rbind c (fun x => k))
  (at level 10, x pattern, c at level 100, k at level 200).

Definition lift {A} (r : res A) : M A := fun w => (r, w).

Fixpoint dict_get (d : list (string * pyval)) (key : string) : option pyval :=
  match d with
  | [] => None
  | (k, v) :: d' => if String.eqb k key then Some v else dict_get d' key
  end.

(** [d[key] = v]: replaces the value in place, or appends the new key. *)
Fixpoint dict_set (d : list (string * pyval)) (key : string) (v : pyval)
  : list (string * pyval) :=
  match d with
  | [] => [(key, v)]
  | (k, x) :: d' =>
      if String.eqb k key then (k, v) :: d' else (k, x) :: dict_set d' key v
  end.

(** [v.get(key, dflt)] *)
Definition py_get (v : pyval) (key : string) (dflt : pyval) : res pyval :=
  match v with
  | PDict d => Ok (default dflt (dict_get d key))
  | _ => Raise (AttributeError "get")
  end.

(** [v[key]] for a string key *)
Definition py_item (v : pyval) (key : string) : res pyval :=
  match v with
  | PDict d =>
      match dict_get d key with
      | Some x => Ok x
      | None => Raise (KeyError key)
      end
  | _ => Raise TypeError
  end.

(** [v.items()] *)
Definition py_items (v : pyval) : res (list (string * pyval)) :=
  match v with
  | PDict d => Ok d
  | _ => Raise (AttributeError "items")
  end.

(** The elements a [for] loop over [v] visits. *)
Definition py_iter (v : pyval) : res (list pyval) :=
  match v with
  | PList l => Ok l
  | PDict d => Ok (map (fun kv => PStr (fst kv)) d)
  | PStr s => Ok (map PStr (Str.chars s))
  | _ => Raise TypeError
  end.

(** [v[:n]]: a [str] and a [list] can be sliced. A [dict] raises
    [TypeError] (its key, the slice, cannot be hashed) up to Python 3.11
    and a [KeyError] for that key from 3.12 on; it is [TypeError] here. *)
Definition py_slice (v : pyval) (n : nat) : res pyval :=
  match v with
  | PStr s => Ok (PStr (Str.prefix n s))
  | PList l => Ok (PList (firstn n l))
  | _ => Raise TypeError
  end.

(** [response.json()] *)
Definition response_json (r : response) : res pyval :=
  match json r with
  | Some v => Ok v
  | None => Raise JSONDecodeError
  end.

(** ** SessionStore: [st.session_state] *)

Definition ss_get (key : string) (dflt : pyval) : M pyval :=
  fun w => (Ok (default dflt (session_state w !! key)), w).

Definition ss_item (key : string) : M pyval :=
  fun w => match session_state w !! key with
           | Some v => (Ok v, w)
           | None => (Raise (KeyError key), w)
           end.

Definition ss_attr (key : string) : M pyval :=
  fun w => match session_state w !! key with
           | Some v => (Ok v, w)
           | None => (Raise (AttributeError key), w)
           end.

Definition ss_set (key : string) (v : pyval) : M unit :=
  fun w => (Ok tt, {| session_state := <[key := v]> (session_state w);
                      sent := sent w; log := log w |}).

(** [for key in list(st.session_state.keys()): del st.session_state[key]] *)
Definition ss_clear : M unit :=
  fun w => (Ok tt, {| session_state := ∅; sent := sent w; log := log w |}).

Definition default_states : list (string * pyval) :=
  [("upload_result", PNone);
   ("column_identification_result", PNone);
   ("matching_result", PNone);
   ("session_id", PNone);
   ("files_uploaded", PBool false);
   ("columns_identified", PBool false);
   ("matching_completed", PBool false);
   ("backend_status", PNone)].

Fixpoint set_defaults (states : list (string * pyval)) : M unit :=
  match states with
  | [] => ret tt
  | (key, default_value) :: rest =>
      (fun w => match session_state w !! key with
                | Some _ => ret tt w
                | None => ss_set key default_value w
                end) ;;
      set_defaults rest
  end.

Definition initialize_session_state : M unit := set_defaults default_states.

(** ** ResultExporter: the two download handlers *)

(** [for key, value in items: row[prefix + key] = value] *)
Definition add_prefixed (prefix : string) (items : list (string * pyval))
  (row : list (string * pyval)) : list (string * pyval) :=
  fold_left (fun row kv => dict_set row (prefix ++ fst kv) (snd kv)) items row.

(** The body of the loop over the matches: one flat row. *)
Definition matched_row (match_ : pyval) : res (list (string * pyval)) :=
  let? file_a_entry := py_item match_ "file_a_entry" in
  let? items_a := py_items file_a_entry in
  let row := add_prefixed "Bank_" items_a [] in
  let? file_b_entry := py_item match_ "file_b_entry" in
  let? items_b := py_items file_b_entry in
  let row := add_prefixed "Invoice_" items_b row in
  let? confidence_score := py_item match_ "confidence_score" in
  let row := dict_set row "Confidence_Score" confidence_score in
  let? match_reason := py_item match_ "match_reason" in
  let row := dict_set row "Match_Reason" match_reason in
  Ok row.

(** [matched_data], filled by the loop, in the order of the matches. *)
Fixpoint matched_rows (matches : list pyval)
  : res (list (list (string * pyval))) :=
  match matches with
  | [] => Ok []
  | match_ :: rest =>
      let? row := matched_row match_ in
      let? rows := matched_rows rest in
      Ok (row :: rows)
  end.

(** [matched_data] for the stored value of ['matches']. *)
Definition matched_data (matches : pyval)
  : res (list (list (string * pyval))) :=
  let? elements := py_iter matches in matched_rows elements.

(** [report_data] of the full report. *)
Definition report_data (matching_result : pyval) : res pyval :=
  let? summary := py_get matching_result "summary" (PDict []) in
  let? matches := py_get matching_result "matches" (PList []) in
  let? unmatched_bank :=
    py_get matching_result "unmatched_file_a_entries" (PList []) in
  let? unmatched_invoices :=
    py_get matching_result "unmatched_file_b_entries" (PList []) in
  let? column_info := py_get matching_result "column_info" (PDict []) in
  Ok (PDict
        (dict_set
           (dict_set
              (dict_set
                 (dict_set
                    (dict_set [] "summary" summary)
                    "matches" matches)
                 "unmatched_bank" unmatched_bank)
              "unmatched_invoices" unmatched_invoices)
           "column_info" column_info)).

(** ** WorkflowStateMachine: the script and its button handlers

    One run of the script executes the sections below from top to bottom.
    At most one button reports a click in a run, and a button rendered
    disabled, or not rendered, reports none. Rendering that reads no
    session state (headers, captions, the notices next to the file
    pickers, the configuration lines of the sidebar) is left out; the
    messages the handlers show with [st.success], [st.error] and
    [st.info], and the lines of the sidebar that read the session state,
    are logged. *)

Inductive button : Type :=
| UploadButton | IdentifyButton | MatchButton
| DownloadMatchedButton | DownloadReportButton
| ResetButton | TestConnectionButton.

Definition button_eqb (a b : button) : bool :=
  match a, b with
  | UploadButton, UploadButton | IdentifyButton, IdentifyButton
  | MatchButton, MatchButton | DownloadMatchedButton, DownloadMatchedButton
  | DownloadReportButton, DownloadReportButton | ResetButton, ResetButton
  | TestConnectionButton, TestConnectionButton => true
  | _, _ => false
  end.

(** What the user provides to one run: the two file pickers and the
    button clicked, if any. *)
Record input : Type := {
  bank_file : option UploadedFile;
  invoice_file : option UploadedFile;
  clicked : option button
}.

(** [st.button(..., disabled=disabled)] *)
Definition st_button (i : input) (b : button) (disabled : bool) : bool :=
  match clicked i with
  | Some c => button_eqb c b && negb disabled
  | None => false
  end.

Definition newline : string := String (ascii_of_nat 10) EmptyString.

Section Script.

Variable BACKEND_URL : string.
Variable net : nat -> net_outcome.

(** The display functions only render their argument: all the script can
    observe of a call is whether it raises. *)
Variable display : string -> pyval -> option pyexn.

(** [str(v)] for a value that is not a [str]. *)
Variable repr : pyval -> string.

Definition format (v : pyval) : string :=
  match v with
  | PStr s => s
  | _ => repr v
  end.

Definition render (function : string) (result : pyval) : M unit :=
  match display function result with
  | Some e => raise e
  | None => ret tt
  end.

(** [if error:] for the second component of [make_api_request]. *)
Definition error_truthy (error : option string) : bool :=
  match error with
  | Some msg => negb (String.eqb msg "")
  | None => false
  end.

(** [response and response.status_code == 200] *)
Definition is_200 (response : option response) : bool :=
  match response with
  | Some r => response_truthy r && (status_code r =? 200)%Z
  | None => false
  end.

(** [response.status_code if response else 'No response'], formatted *)
Definition status_text (response : option response) : string :=
  match response with
  | Some r => if response_truthy r then Str.of_Z (status_code r)
              else "No response"
  | None => "No response"
  end.

(** [not st.session_state.backend_status["connected"]] *)
Definition not_connected : M bool :=
  let* backend_status := ss_attr "backend_status" in
  let* connected := lift (py_item backend_status "connected") in
  ret (negb (truthy connected)).

(** [st.session_state.get(flag, False) or not ...backend_status["connected"]] *)
Definition disabled_by (flag : string) : M bool :=
  let* done := ss_get flag (PBool false) in
  if truthy done then ret true else not_connected.

Definition status_dict (is_connected : bool) (status : string) : pyval :=
  PDict [("connected", PBool is_connected); ("message", PStr status)].

(** Backend status check and its banner. *)
Definition backend_status_check : M unit :=
  let* backend_status := ss_attr "backend_status" in
  match backend_status with
  | PNone =>
      let* result := test_backend_connection BACKEND_URL net in
      ss_set "backend_status" (status_dict (fst result) (snd result))
  | _ => ret tt
  end ;;
  let* backend_status := ss_attr "backend_status" in
  let* connected := lift (py_item backend_status "connected") in
  let* message := lift (py_item backend_status "message") in
  if truthy connected then
    emit (StSuccess ("✅ Backend connected: " ++ format message))
  else
    emit (StError ("❌ Backend connection failed: " ++ format message)) ;;
    emit (StInfo "💡 If using Render, the backend might be sleeping. Try refreshing in a few moments.").

(** The body of the upload button. *)
Definition upload_clicked (bank_file invoice_file : option UploadedFile)
  : M unit :=
  let '(bank_valid, bank_msg) :=
    match bank_file with
    | Some _ => validate_file bank_file "Bank statement"
    | None => (false, "Bank statement file is required")
    end in
  let '(invoice_valid, invoice_msg) :=
    match invoice_file with
    | Some _ => validate_file invoice_file "Invoice"
    | None => (false, "Invoice file is required")
    end in
  if negb bank_valid || negb invoice_valid then
    emit (StError ("❌ Please fix the following issues:" ++ newline ++ "- "
                     ++ (if negb bank_valid then bank_msg else "")
                     ++ newline ++ "- "
                     ++ (if negb invoice_valid then invoice_msg else "")))
  else
    match bank_file, invoice_file with
    | Some bank, Some invoice =>
        let files :=
          [("bank_statement", (name bank, getvalue bank, type bank));
           ("invoices", (name invoice, getvalue invoice, type invoice))] in
        let* (response, error) :=
          make_api_request BACKEND_URL net "/upload" "POST" PNone (Some files) in
        if error_truthy error then
          emit (StError ("❌ Upload failed: " ++ default "" error))
        else if is_200 response then
          let* result := lift (let? r := match response with
                                         | Some r => Ok r
                                         | None => Raise (AttributeError "json")
                                         end in response_json r) in
          let* success := lift (py_get result "success" PNone) in
          if truthy success then
            emit (StSuccess "✅ Files uploaded and preprocessed successfully!") ;;
            ss_set "upload_result" result ;;
            let* session_id := lift (py_item result "session_id") in
            ss_set "session_id" session_id ;;
            ss_set "files_uploaded" (PBool true) ;;
            render "display_preprocessing_summary" result
          else
            let* err := lift (py_get result "error" (PStr "Unknown error")) in
            emit (StError ("❌ Error during file processing: " ++ format err))
        else
          emit (StError ("❌ Server error during upload: Status Code "
                           ++ status_text response))
    | _, _ => raise (AttributeError "name")
    end.

(** Step 1: the upload button. *)
Definition upload_section (i : input) : M unit :=
  let* upload_disabled := disabled_by "files_uploaded" in
  if st_button i UploadButton upload_disabled
  then upload_clicked (bank_file i) (invoice_file i)
  else ret tt.

(** The body of the column identification button. *)
Definition identify_clicked : M unit :=
  let* session_id := ss_item "session_id" in
  let column_payload := PDict [("session_id", session_id)] in
  let* (response, error) :=
    make_api_request BACKEND_URL net "/identify_columns" "POST"
      column_payload None in
  if error_truthy error then
    emit (StError ("❌ Column identification failed: " ++ default "" error))
  else if is_200 response then
    let* result := lift (let? r := match response with
                                   | Some r => Ok r
                                   | None => Raise (AttributeError "json")
                                   end in response_json r) in
    let* success := lift (py_get result "success" PNone) in
    if truthy success then
      emit (StSuccess "✅ Key columns identified successfully!") ;;
      ss_set "column_identification_result" result ;;
      ss_set "columns_identified" (PBool true) ;;
      render "display_column_identification" result
    else
      let* err := lift (py_get result "error" (PStr "Unknown error")) in
      emit (StError ("❌ Column identification error: " ++ format err))
  else
    emit (StError ("❌ Server error during column identification: Status Code "
                     ++ status_text response)).

(** Step 2, shown once an upload result and a session id are stored. *)
Definition identify_section (i : input) : M unit :=
  let* upload_result := ss_get "upload_result" PNone in
  let* session_id := ss_get "session_id" PNone in
  if truthy upload_result && truthy session_id then
    let* column_disabled := disabled_by "columns_identified" in
    if st_button i IdentifyButton column_disabled
    then identify_clicked
    else ret tt
  else ret tt.

(** The body of the matching button. *)
Definition match_clicked : M unit :=
  let* session_id := ss_item "session_id" in
  let matching_payload := PDict [("session_id", session_id)] in
  let* (response, error) :=
    make_api_request BACKEND_URL net "/match" "POST" matching_payload None in
  if error_truthy error then
    emit (StError ("❌ Matching failed: " ++ default "" error))
  else if is_200 response then
    let* result := lift (let? r := match response with
                                   | Some r => Ok r
                                   | None => Raise (AttributeError "json")
                                   end in response_json r) in
    let* success := lift (py_get result "success" PNone) in
    if truthy success then
      emit (StSuccess "✅ AI Matching completed!") ;;
      ss_set "matching_result" result ;;
      ss_set "matching_completed" (PBool true) ;;
      render "display_matching_results" result
    else
      let* err := lift (py_get result "error" (PStr "Unknown error")) in
      emit (StError ("❌ Matching error: " ++ format err))
  else
    emit (StError ("❌ Server error during matching: Status Code "
                     ++ status_text response)).

(** Step 3, shown once a column identification result and a session id
    are stored. *)
Definition match_section (i : input) : M unit :=
  let* column_identification_result :=
    ss_get "column_identification_result" PNone in
  let* session_id := ss_get "session_id" PNone in
  if truthy column_identification_result && truthy session_id then
    let* matching_disabled := disabled_by "matching_completed" in
    if st_button i MatchButton matching_disabled
    then match_clicked
    else ret tt
  else ret tt.

(** The body of the matched transactions download button. The rows are
    handed to the CSV writer of the data frame library. *)
Definition download_matched_clicked : M unit :=
  let* matching_result := ss_item "matching_result" in
  let* matches := lift (py_get matching_result "matches" PNone) in
  if truthy matches then
    let* matching_result := ss_item "matching_result" in
    let* matches := lift (py_item matching_result "matches") in
    let* rows := lift (matched_data matches) in
    emit (DownloadCsv rows)
  else emit (StInfo "No matches to download").

(** The body of the full report download button. The report is handed to
    [json.dumps]. *)
Definition download_report_clicked : M unit :=
  let* matching_result := ss_item "matching_result" in
  let* report := lift (report_data matching_result) in
  emit (DownloadJson report).

(** Step 4, shown once a matching result is stored. *)
Definition download_section (i : input) : M unit :=
  let* matching_result := ss_get "matching_result" PNone in
  if truthy matching_result then
    (if st_button i DownloadMatchedButton false
     then download_matched_clicked else ret tt) ;;
    (if st_button i DownloadReportButton false
     then download_report_clicked else ret tt)
  else ret tt.

(** Reset, shown once a stage flag is set. [st.rerun()] ends the run. *)
Definition reset_section (i : input) : M unit :=
  let* files_uploaded := ss_get "files_uploaded" PNone in
  let* columns_identified := ss_get "columns_identified" PNone in
  let* matching_completed := ss_get "matching_completed" PNone in
  if truthy files_uploaded || truthy columns_identified
     || truthy matching_completed then
    if st_button i ResetButton false then
      ss_clear ;;
      raise RerunException
    else ret tt
  else ret tt.

(** The sidebar: the connection test button. *)
Definition test_connection (i : input) : M unit :=
  if st_button i TestConnectionButton false then
    let* result := test_backend_connection BACKEND_URL net in
    ss_set "backend_status" (status_dict (fst result) (snd result)) ;;
    if fst result then emit (StSuccess "✅ Backend connected and healthy!")
    else emit (StError ("❌ Backend connection failed: " ++ snd result))
  else ret tt.

(** The sidebar: the line that shows the stored status. *)
Definition show_current_status : M unit :=
  let* backend_status := ss_attr "backend_status" in
  if truthy backend_status then
    let* connected := lift (py_item backend_status "connected") in
    let status_color := if truthy connected then "🟢" else "🔴" in
    let* backend_status := ss_attr "backend_status" in
    let* message := lift (py_item backend_status "message") in
    emit (StWrite (status_color ++ " **Status:** " ++ format message))
  else ret tt.

(** The sidebar: one line for each stage flag. *)
Definition progress_line (item : string) (status : pyval) : effect :=
  StWrite (item ++ ": " ++ (if truthy status then "✅" else "⏳")).

Definition progress_tracking : M unit :=
  let* files_uploaded := ss_get "files_uploaded" (PBool false) in
  let* columns_identified := ss_get "columns_identified" (PBool false) in
  let* matching_completed := ss_get "matching_completed" (PBool false) in
  emit (progress_line "📁 Files Uploaded & Preprocessed" files_uploaded) ;;
  emit (progress_line "🔍 Columns Identified" columns_identified) ;;
  emit (progress_line "🤖 AI Matching Completed" matching_completed).

(** The sidebar: the first 20 characters of the stored session id. *)
Definition session_info : M unit :=
  let* session_id := ss_get "session_id" PNone in
  if truthy session_id then
    let* session_id := ss_item "session_id" in
    let* shown := lift (py_slice session_id 20) in
    emit (StWrite ("**Session ID:** `" ++ format shown ++ "...`"))
  else ret tt.

Definition sidebar (i : input) : M unit :=
  test_connection i ;;
  show_current_status ;;
  progress_tracking ;;
  session_info.

(** One run of the script. *)
Definition script (i : input) : M unit :=
  initialize_session_state ;;
  backend_status_check ;;
  upload_section i ;;
  identify_section i ;;
  match_section i ;;
  download_section i ;;
  reset_section i ;;
  sidebar i.

Definition no_click (i : input) : input :=
  {| bank_file := bank_file i; invoice_file := invoice_file i;
     clicked := None |}.

(** One interaction: the script runs with the user's input; when it ends
    with [st.rerun()], it runs again at once, no button clicked. Any other
    exception is shown to the user and ends the run; the session state
    keeps what was written before it. *)
Definition interaction (i : input) (w : world) : world :=
  match script i w with
  | (Raise RerunException, w') => snd (script (no_click i) w')
  | (_, w') => w'
  end.

(** The worlds reached from a new browser session by any number of
    interactions. *)
Inductive reachable : world -> Prop :=
| reachable_new w : session_state w = ∅ -> reachable w
| reachable_step w i : reachable w -> reachable (interaction i w).

End Script.

(** ** Vocabulary of the statements *)

(** The world [w] after [n] more requests and the effects [tail]. *)
Definition advance (w : world) (n : nat) (tail : list effect) : world :=
  {| session_state := session_state w; sent := (n + sent w)%nat;
     log := (log w ++ tail)%list |}.

(** The results of the probe, named as the specification names them. *)
Definition Connected (r : response) : bool * string :=
  (true, "Connected (HTTP " ++ Str.of_Z (status_code r) ++ ")").
Definition BadStatus (r : response) : bool * string :=
  (false, "HTTP " ++ Str.of_Z (status_code r) ++ ": " ++ Str.prefix 100 (text r)).
Definition MaxRetriesExceeded : bool * string :=
  (false, "Max retries exceeded").

(** The failure reported when the third attempt raises [e]. *)
Definition last_attempt_error (e : exn) : bool * string :=
  match cls e with
  | SSLError => (false, "SSL Error: " ++ Str.prefix 100 (str e))
  | ConnectionError | ConnectTimeout =>
      (false, "Connection Error: " ++ Str.prefix 100 (str e))
  | ReadTimeout => (false, "Timeout - Backend may be sleeping on Render")
  | OtherException => (false, "Unexpected error: " ++ Str.prefix 100 (str e))
  end.

(** The effects of the failed attempt [j] that is not the last: the
    request, the notice, and the wait of [2 * 2^j] seconds. *)
Definition retry_entry (url : string) (j : nat) : list effect :=
  [Request (health_request url);
   StInfo ("Retrying in " ++ Str.of_Z (2 * 2 ^ Z.of_nat j)
             ++ " seconds... (attempt " ++ Str.of_Z (Z.of_nat (S j)) ++ "/3)");
   Sleep (2 * 2 ^ Z.of_nat j)].

(** The effects of [k] failed attempts, each followed by its wait. *)
Definition retry_log (url : string) (k : nat) : list effect :=
  flat_map (retry_entry url) (seq 0 k).

(** The errors of the request client, named as the specification names
    them. *)
Definition RequestTimeout : option response * option string :=
  (None, Some "Request timed out. The operation may be taking longer than expected.").
Definition ConnectionFailed : option response * option string :=
  (None, Some "Failed to connect to backend. The service may be starting up.").
Definition UnexpectedRequestError (msg : string) : option response * option string :=
  (None, Some ("Request failed: " ++ msg)).

(** A fresh world, and three scripted backends. *)
Definition fresh_world : world := {| session_state := ∅; sent := 0; log := [] |}.

Definition always_times_out : nat -> net_outcome :=
  fun _ => Raises {| cls := ReadTimeout; str := "Read timed out. (read timeout=45)" |}.

Definition wakes_up_third : nat -> net_outcome :=
  fun n => if (n <? 2)%nat
           then Raises {| cls := ConnectionError; str := "Connection refused" |}
           else Responds {| status_code := 200; text := "OK"; json := None |}.

Definition always_500 : nat -> net_outcome :=
  fun _ => Responds {| status_code := 500; text := "Internal Server Error";
                       json := None |}.

(** [wp c Q E w]: run from [w], the computation [c] either returns a value
    and a world that satisfy [Q], or raises an exception in a world that
    satisfy [E]. *)
Definition wp {A} (c : M A) (Q : A -> world -> Prop)
  (E : pyexn -> world -> Prop) (w : world) : Prop :=
  match c w with
  | (Ok a, w') => Q a w'
  | (Raise e, w') => E e w'
  end.

(** The world [w] with the session state [s]. *)
Definition with_session (w : world) (s : gmap string pyval) : world :=
  {| session_state := s; sent := sent w; log := log w |}.

(** [st.session_state.get(key)] of a session state, and its truth value. *)
Definition stored (s : gmap string pyval) (key : string) : pyval :=
  default PNone (s !! key).
Definition flag (s : gmap string pyval) (key : string) : bool :=
  truthy (stored s key).

(** The ways a backend call fails: the request raises, the response has a
    status other than 200, or the response is a 200 whose JSON object has
    no true [success] field. *)
Inductive failed_call : net_outcome -> Prop :=
| transport_error e : failed_call (Raises e)
| bad_status r : status_code r <> 200%Z -> failed_call (Responds r)
| success_false r d :
    status_code r = 200%Z -> json r = Some (PDict d) ->
    truthy (default PNone (dict_get d "success")) = false ->
    failed_call (Responds r).

(** The handler showed the error [msg] last, after one request. *)
Definition surfaced_error (w w' : world) : Prop :=
  exists debug req msg,
    log w' = (log w ++ [Print debug; Request req; StError msg])%list.

(** The stored upload result is a successful upload response that carries
    the stored session id. *)
Definition uploaded_by (s : gmap string pyval) : Prop :=
  exists result success,
    s !! "upload_result" = Some result
    /\ py_get result "success" PNone = Ok success
    /\ truthy success = true
    /\ py_item result "session_id" = Ok (stored s "session_id").

(** The invariant of the session state: a session id is stored only by a
    successful upload, together with the upload flag; and the two later
    stage flags are set only while a session id is stored. *)
Definition stage_invariant (s : gmap string pyval) : Prop :=
  (stored s "session_id" <> PNone ->
     flag s "files_uploaded" = true /\ uploaded_by s)
  /\ (flag s "columns_identified" = true ->
      truthy (stored s "session_id") = true)
  /\ (flag s "matching_completed" = true ->
      truthy (stored s "session_id") = true).

(** A display that never raises, and a [repr] for the examples. *)
Definition quiet_display : string -> pyval -> option pyexn := fun _ _ => None.
Definition plain_repr : pyval -> string := fun _ => "<value>".

(** A backend that answers every request with 200 and the given JSON. *)
Definition answers (body : pyval) : nat -> net_outcome :=
  fun _ => Responds {| status_code := 200; text := "OK"; json := Some body |}.

(** The session state after a successful upload. *)
Definition uploaded_session : gmap string pyval :=
  <["files_uploaded" := PBool true]>
    (<["session_id" := PStr "s-1"]>
       (<["upload_result" :=
            PDict [("success", PBool true); ("session_id", PStr "s-1")]]>
          (<["backend_status" := status_dict true "Connected (HTTP 200)"]>
             (list_to_map default_states)))).

Definition uploaded_world : world :=
  {| session_state := uploaded_session; sent := 2; log := [] |}.

(** A file for the examples. *)
Definition sample_file (nm : string) (sz : Z) : UploadedFile :=
  {| name := nm; size := sz; type := "text/csv"; getvalue := "" |}.

(** Two valid files in the pickers and the button [b] clicked. *)
Definition two_files (b : option button) : input :=
  {| bank_file := Some (sample_file "bank.csv" 2048);
     invoice_file := Some (sample_file "invoices.xlsx" 4096);
     clicked := b |}.

(** A backend that accepts every call, and the world after a list of
    clicks on it, from a new session. *)
Definition cooperative : nat -> net_outcome :=
  answers (PDict [("success", PBool true); ("session_id", PStr "s-1")]).

Definition session_run (net : nat -> net_outcome) (clicks : list (option button))
  : world :=
  fold_left
    (fun w b => interaction "https://backend" net quiet_display plain_repr
                  (two_files b) w)
    clicks fresh_world.

(** A match record as the data model has it: the two entries, each a
    dictionary, the confidence score and the reason. *)
Record MatchRecord : Type := {
  file_a_entry : list (string * pyval);
  file_b_entry : list (string * pyval);
  confidence_score : pyval;
  match_reason : pyval
}.

(** The JSON object [m] holds the record [rec]; the keys of each entry are
    distinct, as the keys of a dictionary are. *)
Definition holds_record (m : pyval) (rec : MatchRecord) : Prop :=
  py_item m "file_a_entry" = Ok (PDict (file_a_entry rec))
  /\ py_item m "file_b_entry" = Ok (PDict (file_b_entry rec))
  /\ py_item m "confidence_score" = Ok (confidence_score rec)
  /\ py_item m "match_reason" = Ok (match_reason rec)
  /\ NoDup (map fst (file_a_entry rec))
  /\ NoDup (map fst (file_b_entry rec)).

Definition prefixed (prefix : string) (items : list (string * pyval))
  : list (string * pyval) :=
  map (fun kv => (prefix ++ fst kv, snd kv)) items.

(** The flat row the specification describes for a record: the bank
    fields under [Bank_], the invoice fields under [Invoice_], then the
    score and the reason. *)
Definition flat_row (rec : MatchRecord) : list (string * pyval) :=
  (prefixed "Bank_" (file_a_entry rec)
   ++ prefixed "Invoice_" (file_b_entry rec)
   ++ [("Confidence_Score", confidence_score rec);
       ("Match_Reason", match_reason rec)])%list.

(** The report the handler builds from a stored matching result [d]:
    five keys, each with the value stored in [d] or its empty default. *)
Definition full_report (d : list (string * pyval)) : pyval :=
  PDict
    [("summary", default (PDict []) (dict_get d "summary"));
     ("matches", default (PList []) (dict_get d "matches"));
     ("unmatched_bank", default (PList []) (dict_get d "unmatched_file_a_entries"));
     ("unmatched_invoices",
      default (PList []) (dict_get d "unmatched_file_b_entries"));
     ("column_info", default (PDict []) (dict_get d "column_info"))].

(** A matching result of two matches, as the backend sends it. *)
Definition sample_match (bank_ref invoice_ref : string) (score : float)
  : pyval :=
  PDict [("file_a_entry", PDict [("date", PStr "2024-01-05");
                                 ("reference", PStr bank_ref)]);
         ("file_b_entry", PDict [("number", PStr invoice_ref);
                                 ("amount", PInt 120)]);
         ("confidence_score", PFloat score);
         ("match_reason", PStr "amount and date agree")].

Definition sample_matching_result : list (string * pyval) :=
  [("success", PBool true);
   ("summary", PDict [("matched_pairs", PInt 2); ("unmatched_bank", PInt 0);
                      ("unmatched_invoices", PInt 1)]);
   ("matches", PList [sample_match "TRX-1" "INV-7" 0.5%float;
                      sample_match "TRX-2" "INV-9" 0.75%float]);
   ("unmatched_file_a_entries", PList []);
   ("unmatched_file_b_entries", PList [PDict [("number", PStr "INV-3")]]);
   ("message", PStr "done")].

Definition matched_world : world :=
  {| session_state :=
       <["matching_result" := PDict sample_matching_result]> uploaded_session;
     sent := 4; log := [] |}.

(** The records of [sample_matching_result]. *)
Definition sample_record (bank_ref invoice_ref : string) (score : float)
  : MatchRecord :=
  {| file_a_entry := [("date", PStr "2024-01-05"); ("reference", PStr bank_ref)];
     file_b_entry := [("number", PStr invoice_ref); ("amount", PInt 120)];
     confidence_score := PFloat score;
     match_reason := PStr "amount and date agree" |}.

Definition sample_matches : list pyval :=
  [sample_match "TRX-1" "INV-7" 0.5%float;
   sample_match "TRX-2" "INV-9" 0.75%float].

Definition sample_records : list MatchRecord :=
  [sample_record "TRX-1" "INV-7" 0.5%float;
   sample_record "TRX-2" "INV-9" 0.75%float].

(** The session state [initialize_session_state] builds from nothing. *)
Definition default_session : gmap string pyval := list_to_map default_states.

(** The empty session: every workflow key at its default (no stored
    result, no session id, no stage flag), next to the health status of
    the probe run after the reset. *)
Definition empty_session (s : gmap string pyval) : Prop :=
  exists is_connected status,
    s = <["backend_status" := status_dict is_connected status]> default_session.

(** The reset button is rendered. *)
Definition reset_offered (s : gmap string pyval) : bool :=
  flag s "files_uploaded" || flag s "columns_identified"
  || flag s "matching_completed".

(** The session state once a run has initialised it and recorded the
    backend status. *)
Definition initialised (s : gmap string pyval) : Prop :=
  forall key v, In (key, v) default_states -> is_Some (s !! key).
Definition status_known (s : gmap string pyval) : Prop :=
  exists is_connected status,
    s !! "backend_status" = Some (status_dict is_connected status).
Definition settled (s : gmap string pyval) : Prop :=
  initialised s /\ status_known s.
Definition new_or_settled (s : gmap string pyval) : Prop :=
  s = ∅ \/ settled s.

(** The session state after [set_defaults states]. *)
Definition fill_defaults (states : list (string * pyval))
  (s : gmap string pyval) : gmap string pyval :=
  fold_left (fun s kv => match s !! fst kv with
                         | Some _ => s
                         | None => <[fst kv := snd kv]> s
                         end) states s.

(** [c], run from [w], returns normally in a world with the session state
    and the request count of [w]. *)
Definition same_store (w w' : world) : Prop :=
  session_state w' = session_state w /\ sent w' = sent w.
Definition quiet (c : M unit) (w : world) : Prop :=
  wp c (fun _ w' => same_store w w') (fun _ _ => False) w.

(** No button of a handler or of a download is clicked: the run is a plain
    rerun, or a click on reset. *)
Definition idle (i : input) : Prop :=
  clicked i = None \/ clicked i = Some ResetButton.

(** A backend that reports success to every call and sends no session
    id. *)
Definition forgetful : nat -> net_outcome :=
  answers (PDict [("success", PBool true)]).

(** The payload of the examples. *)
Definition match_payload : pyval := PDict [("session_id", PStr "s-1")].

(** [c], run from [w], returns normally, leaves the session state as it
    was, and has shown an error after its one request. *)
Definition fails_cleanly (c : M unit) (w : world) : Prop :=
  exists w', c w = (Ok tt, w')
    /\ session_state w' = session_state w /\ surfaced_error w w'.

(** The sections that follow the status check. *)
Definition workflow (url : string) (net : nat -> net_outcome)
  (display : string -> pyval -> option pyexn) (repr : pyval -> string)
  (i : input) : M unit :=
  upload_section url net display repr i ;;
  identify_section url net display repr i ;;
  match_section url net display repr i ;;
  download_section i ;;
  reset_section i ;;
  sidebar url net repr i.

(** [keeps I J c]: run in a world whose session state satisfies [I], [c]
    returns in one that satisfies [I], or raises in one that satisfies
    [J]. *)
Definition keeps (I J : gmap string pyval -> Prop) {A} (c : M A) : Prop :=
  forall w, I (session_state w) ->
    wp c (fun _ w' => I (session_state w'))
         (fun _ w' => J (session_state w')) w.

(** The waits of a log, in order. *)
Definition slept (l : list effect) : list Z :=
  flat_map (fun ef => match ef with Sleep d => [d] | _ => [] end) l.

(** A backend whose connections time out. *)
Definition connect_times_out : nat -> net_outcome :=
  fun _ => Raises {| cls := ConnectTimeout; str := "connect timeout=45" |}.

(** The request of an upload of the files [bank] and [invoice]. *)
Definition upload_request (url : string) (bank invoice : UploadedFile)
  : request :=
  {| req_method := "POST"; req_url := url ++ "/upload"; req_timeout := 300;
     req_body :=
       Multipart
         [("bank_statement", (name bank, getvalue bank, type bank));
          ("invoices", (name invoice, getvalue invoice, type invoice))] |}.

(** The request of a later stage, with the stored session id. *)
Definition stage_request (url endpoint : string) (session_id : pyval)
  : request :=
  {| req_method := "POST"; req_url := url ++ endpoint; req_timeout := 300;
     req_body := JsonBody (PDict [("session_id", session_id)]) |}.

(** What a handler returns after its writes: the exception of the display
    function, if it raises one. *)
Definition shown (display : string -> pyval -> option pyexn)
  (function : string) (result : pyval) : res unit :=
  match display function result with
  | Some e => Raise e
  | None => Ok tt
  end.

(** The line [make_api_request] prints. *)
Definition debug_line (url endpoint method : string) : effect :=
  Print ("DEBUG: Making " ++ method ++ " request to: " ++ url ++ endpoint).

(** A backend that accepts an upload and sends the session id [s-1] with
    a preprocessing summary. *)
Definition upload_answer : list (string * pyval) :=
  [("success", PBool true); ("session_id", PStr "s-1");
   ("preprocessing_info", PDict [("bank_original_rows", PInt 10)])].

(** A display that fails on every result, as on a result that lacks the
    keys it reads. *)
Definition failing_display : string -> pyval -> option pyexn :=
  fun _ _ => Some (KeyError "preprocessing_info").


(** A stored result of a stage: the JSON object of a response, with a
    true [success] field. *)
Definition successful (v : pyval) : Prop :=
  exists d, v = PDict d
    /\ truthy (default PNone (dict_get d "success")) = true.

Definition none_or_successful (v : pyval) : Prop :=
  v = PNone \/ successful v.

(** What the stored results and the stage flags say of each other: a
    stored result is a successful response; the flag of a later stage is
    set exactly when its result is stored; the upload flag is set only
    with the upload result that carries the stored session id; and
    matching is done only after column identification. *)
Definition results_invariant (s : gmap string pyval) : Prop :=
  none_or_successful (stored s "upload_result")
  /\ (flag s "files_uploaded" = true -> uploaded_by s)
  /\ none_or_successful (stored s "column_identification_result")
  /\ (flag s "columns_identified" = true
      <-> stored s "column_identification_result" <> PNone)
  /\ none_or_successful (stored s "matching_result")
  /\ (flag s "matching_completed" = true
      <-> stored s "matching_result" <> PNone)
  /\ (flag s "matching_completed" = true ->
      flag s "columns_identified" = true).

Definition workflow_invariant (s : gmap string pyval) : Prop :=
  stage_invariant s /\ results_invariant s.

(** How a run ends when it raises from a state where [I] held: [I] still
    holds, or the reset button was clicked and [st.rerun()] follows the
    clearing of the session state. *)
Definition held_or_reset (I : gmap string pyval -> Prop) (i : input)
  (e : pyexn) (w : world) : Prop :=
  I (session_state w)
  \/ (e = RerunException /\ clicked i = Some ResetButton
      /\ session_state w = ∅).

(** [guarded I i c]: run in a world whose session state satisfies [I],
    [c] returns in one that satisfies [I], or raises as [held_or_reset]
    says. *)
Definition guarded (I : gmap string pyval -> Prop) (i : input) {A}
  (c : M A) : Prop :=
  forall w, I (session_state w) ->
    wp c (fun _ w' => I (session_state w')) (held_or_reset I i) w.




(** The three stages done in a row on a cooperative backend. *)
Definition all_stages : list (option button) :=
  [None; Some UploadButton; Some IdentifyButton; Some MatchButton].

(** A backend that is down behind its proxy: every request is answered
    with 503 and a notice of 120 characters, 132 bytes. *)
Definition unavailable : nat -> net_outcome :=
  fun _ => Responds {| status_code := 503;
                       text := Str.join "" (repeat "Dépôt indisponible. " 6);
                       json := None |}.

(** The world in which [k] requests have been sent, and nothing else has
    happened. *)
Definition at_request (k : nat) : world :=
  {| session_state := ∅; sent := k; log := [] |}.

(** [probed url net k status k']: the health probe that starts once [k]
    requests have been sent returns the result that [status] records,
    [k'] requests having been sent by then. *)
Definition probed (url : string) (net : nat -> net_outcome) (k : nat)
  (status : pyval) (k' : nat) : Prop :=
  exists result w',
    test_backend_connection url net (at_request k) = (Ok result, w')
    /\ status = status_dict (fst result) (snd result)
    /\ k' = sent w'.


(** The session state once a run has initialised it and a health probe
    has given the status it stores. *)
Definition probed_session (url : string) (net : nat -> net_outcome)
  (s : gmap string pyval) : Prop :=
  initialised s
  /\ exists k k', probed url net k (stored s "backend_status") k'.

(** A backend that follows the contract of the specification: the health
    check is answered with 200, the upload with a session id, the column
    identification with the column info, and the matching with the
    summary, the matches and the two unmatched sets. *)
Definition sample_column_info : pyval :=
  PDict [("bank_key_columns", PList [PStr "date"; PStr "reference"]);
         ("invoice_key_columns", PList [PStr "number"; PStr "amount"]);
         ("primary_match_fields",
          PDict [("bank", PStr "reference"); ("invoice", PStr "number")]);
         ("secondary_match_fields",
          PDict [("bank", PList [PStr "date"]);
                 ("invoice", PList [PStr "amount"])]);
         ("matching_strategy", PStr "reference, then amount and date")].

Definition contract_backend : nat -> net_outcome :=
  fun n =>
    Responds
      {| status_code := 200; text := "OK";
         json := match n with
                 | 0%nat => None
                 | 1%nat => Some (PDict upload_answer)
                 | 2%nat => Some (PDict [("success", PBool true);
                                         ("column_info", sample_column_info)])
                 | _ => Some (PDict sample_matching_result)
                 end |}.

(** * Properties *)

(** ** Facts about the string functions *)

Section StringFacts.

Lemma split_nonempty sep s : Str.split sep s <> [].
Proof.
  destruct s as [|c s]; simpl; [discriminate|].
  destruct (Ascii.eqb c sep); [discriminate|].
  destruct (Str.split sep s); discriminate.
Qed.

Lemma split_lacks sep s : Str.lacks sep s = true -> Str.split sep s = [s].
Proof.
  induction s as [|c s IH]; simpl; [reflexivity|].
  intros H. apply andb_prop in H as [Hc Hs].
  apply negb_true_iff in Hc. rewrite Hc, (IH Hs). reflexivity.
Qed.

Lemma split_app sep pre suf :
  Str.split sep (pre ++ String sep suf)
  = (Str.split sep pre ++ Str.split sep suf)%list.
Proof.
  induction pre as [|c pre IH]; simpl.
  - rewrite Ascii.eqb_refl. reflexivity.
  - destruct (Ascii.eqb c sep).
    + rewrite IH. reflexivity.
    + rewrite IH.
      destruct (Str.split sep pre) as [|seg rest] eqn:E.
      * exfalso. exact (split_nonempty _ _ E).
      * reflexivity.
Qed.

Lemma last_app_nonempty {A} (l1 l2 : list A) d :
  l2 <> [] -> List.last (l1 ++ l2)%list d = List.last l2 d.
Proof.
  intros H. induction l1 as [|x l1 IH]; [reflexivity|].
  simpl. destruct (l1 ++ l2)%list eqn:E; [|exact IH].
  destruct l1; simpl in E; [contradiction|discriminate].
Qed.

Lemma last_split_after_dot nm ext :
  after_last_dot nm ext -> List.last (Str.split "." nm) "" = ext.
Proof.
  intros [[pre ->] Hl].
  change (pre ++ "." ++ ext) with (pre ++ String "."%char ext).
  rewrite split_app, last_app_nonempty by apply split_nonempty.
  rewrite (split_lacks _ _ Hl). reflexivity.
Qed.

Lemma existsb_eqb_In s l : existsb (String.eqb s) l = true <-> In s l.
Proof.
  rewrite existsb_exists. split.
  - intros (x & Hx & E). apply String.eqb_eq in E. subst. exact Hx.
  - intros H. exists s. split; [exact H|apply String.eqb_refl].
Qed.

End StringFacts.

Example split_example : Str.split "." "a.b.CSV" = ["a"; "b"; "CSV"].
Proof. reflexivity. Qed.

Example split_trailing_dot : Str.split "." "report." = ["report"; ""].
Proof. reflexivity. Qed.

(** ** Properties of [validate_file] *)

Section ValidateFile.

Variable file_type : string.

Lemma validate_missing : validate_file None file_type = MissingFile file_type.
Proof. reflexivity. Qed.

Lemma validate_too_large f :
  (size f > max_file_size)%Z ->
  validate_file (Some f) file_type = TooLarge file_type.
Proof.
  intros H. unfold validate_file.
  destruct (Z.gtb_spec (size f) max_file_size) as [_|Hle]; [reflexivity|lia].
Qed.

Lemma validate_by_extension f :
  (size f <= max_file_size)%Z ->
  validate_file (Some f) file_type =
    if existsb (String.eqb (file_extension f)) allowed_extensions
    then Valid else UnsupportedExtension file_type.
Proof.
  intros H. unfold validate_file.
  destruct (Z.gtb_spec (size f) max_file_size) as [Hgt|_]; [lia|].
  destruct (existsb _ _); reflexivity.
Qed.

End ValidateFile.

(** C6. [validate_file] applies its rules in order, the first failure
    deciding: an absent file is reported as missing; a present file larger
    than 50 MiB as too large, whatever its name; a file within the limit
    whose extension (what follows the last ['.'] of the name, letter case
    ignored) is none of csv, xlsx, xls as unsupported; and every other file
    is valid. Being a function, it returns the same answer for the same
    file. *)
Theorem validate_file_rules (file_type : string) :
  validate_file None file_type = MissingFile file_type
  /\ (forall f, (size f > 50 * 1024 * 1024)%Z ->
        validate_file (Some f) file_type = TooLarge file_type)
  /\ (forall f ext, (size f <= 50 * 1024 * 1024)%Z ->
        after_last_dot (name f) ext -> ~ allowed ext ->
        validate_file (Some f) file_type = UnsupportedExtension file_type)
  /\ (forall f ext, (size f <= 50 * 1024 * 1024)%Z ->
        after_last_dot (name f) ext -> allowed ext ->
        validate_file (Some f) file_type = Valid).
Proof.
  split; [reflexivity|]. split; [apply validate_too_large|].
  split; intros f ext Hsz Hext Hal;
    rewrite validate_by_extension by exact Hsz;
    unfold file_extension; rewrite (last_split_after_dot _ _ Hext).
  - destruct (existsb _ _) eqn:E; [|reflexivity].
    apply existsb_eqb_In in E. contradiction.
  - apply existsb_eqb_In in Hal. rewrite Hal. reflexivity.
Qed.

Lemma validate_file_rules_witness :
  validate_file (Some (sample_file "notes.txt" (50 * 1024 * 1024 + 1))) "Invoice"
    = TooLarge "Invoice"
  /\ validate_file (Some (sample_file "bank.v2.PDF" 10)) "Invoice"
    = UnsupportedExtension "Invoice"
  /\ validate_file (Some (sample_file "bank.v2.XlsX" (50 * 1024 * 1024))) "Invoice"
    = Valid.
Proof.
  destruct (validate_file_rules "Invoice") as (_ & Hbig & Hbad & Hok).
  split; [|split].
  - apply Hbig. simpl. lia.
  - apply (Hbad _ "PDF").
    + simpl. lia.
    + split; [exists "bank.v2"; reflexivity|reflexivity].
    + unfold allowed. simpl. intros [H|[H|[H|[]]]]; discriminate.
  - apply (Hok _ "XlsX").
    + simpl. lia.
    + split; [exists "bank.v2"; reflexivity|reflexivity].
    + unfold allowed. simpl. right. left. reflexivity.
Defined.

(** C10. A present file within the size limit whose name has no ['.'] is
    judged on its whole name, lowered: it is valid exactly when that is
    csv, xlsx or xls, and is otherwise reported as an unsupported
    extension. *)
Theorem validate_file_dotless (file_type : string) (f : UploadedFile) :
  (size f <= 50 * 1024 * 1024)%Z ->
  Str.lacks "." (name f) = true ->
  file_extension f = Str.lower (name f)
  /\ (allowed (name f) -> validate_file (Some f) file_type = Valid)
  /\ (~ allowed (name f) ->
      validate_file (Some f) file_type = UnsupportedExtension file_type).
Proof.
  intros Hsz Hdot.
  assert (Hext : file_extension f = Str.lower (name f)).
  { unfold file_extension. rewrite (split_lacks _ _ Hdot). reflexivity. }
  split; [exact Hext|].
  rewrite validate_by_extension by exact Hsz. rewrite Hext.
  split; intros Hal.
  - apply existsb_eqb_In in Hal. rewrite Hal. reflexivity.
  - destruct (existsb _ _) eqn:E; [|reflexivity].
    apply existsb_eqb_In in E. contradiction.
Qed.

Lemma validate_file_dotless_witness :
  validate_file (Some (sample_file "XLS" 2048)) "Bank statement" = Valid
  /\ validate_file (Some (sample_file "statement" 2048)) "Bank statement"
     = UnsupportedExtension "Bank statement".
Proof.
  split.
  - apply (validate_file_dotless "Bank statement" (sample_file "XLS" 2048)).
    + simpl. lia.
    + reflexivity.
    + unfold allowed. simpl. right. right. left. reflexivity.
  - apply (validate_file_dotless "Bank statement" (sample_file "statement" 2048)).
    + simpl. lia.
    + reflexivity.
    + unfold allowed. simpl. intros [H|[H|[H|[]]]]; discriminate.
Defined.

(** ** The health probe *)

Section Probe.

Variable url : string.
Variable net : nat -> net_outcome.

Lemma advance_advance w a l1 b l2 :
  advance (advance w a l1) b l2 = advance w (b + a) (l1 ++ l2).
Proof.
  unfold advance. simpl. f_equal; [lia|]. now rewrite <- app_assoc.
Qed.

Lemma on_exception_retry attempt e :
  (attempt < 2)%nat -> on_exception attempt e = None.
Proof.
  intros H. destruct attempt as [|[|n]]; [| |lia];
    destruct e as [[] s]; reflexivity.
Qed.

Lemma on_exception_last e : on_exception 2 e = Some (last_attempt_error e).
Proof. destruct e as [[] s]; reflexivity. Qed.

Lemma probe_loop_response attempt rest w r :
  net (sent w) = Responds r ->
  probe_loop url net (attempt :: rest) w
  = (Ok (if (status_code r =? 200)%Z then Connected r else BadStatus r),
     advance w 1 [Request (health_request url)]).
Proof.
  intros H. simpl. unfold bind, http. rewrite H.
  destruct (status_code r =? 200)%Z; reflexivity.
Qed.

Lemma probe_loop_retry attempt rest w e :
  net (sent w) = Raises e -> (attempt < 2)%nat ->
  probe_loop url net (attempt :: rest) w
  = probe_loop url net rest (advance w 1 (retry_entry url attempt)).
Proof.
  intros H Hlt. simpl. unfold bind at 1. unfold http at 1. rewrite H.
  rewrite (on_exception_retry _ _ Hlt).
  destruct attempt as [|[|n]]; [| |lia]; cbn -[probe_loop];
    unfold bind, emit, advance; cbn -[probe_loop];
    rewrite <- !app_assoc; reflexivity.
Qed.

Lemma probe_loop_last rest w e :
  net (sent w) = Raises e ->
  probe_loop url net (2%nat :: rest) w
  = (Ok (last_attempt_error e), advance w 1 [Request (health_request url)]).
Proof.
  intros H. simpl. unfold bind, http. rewrite H, on_exception_last.
  reflexivity.
Qed.

(** The probe when attempt [k] is the first to get a response. *)
Lemma probe_first_response k r w :
  (k < 3)%nat ->
  (forall j, (j < k)%nat -> exists e, net (j + sent w)%nat = Raises e) ->
  net (k + sent w)%nat = Responds r ->
  test_backend_connection url net w
  = (Ok (if (status_code r =? 200)%Z then Connected r else BadStatus r),
     advance w (S k) (retry_log url k ++ [Request (health_request url)])).
Proof.
  intros Hk Hfail Hr. unfold test_backend_connection. simpl seq.
  destruct k as [|[|[|k]]]; [| | |lia].
  - rewrite (probe_loop_response _ _ _ _ Hr). reflexivity.
  - destruct (Hfail 0%nat ltac:(lia)) as [e0 H0].
    rewrite (probe_loop_retry _ _ _ _ H0) by lia.
    rewrite (probe_loop_response _ _ _ r) by exact Hr.
    rewrite advance_advance. reflexivity.
  - destruct (Hfail 0%nat ltac:(lia)) as [e0 H0].
    destruct (Hfail 1%nat ltac:(lia)) as [e1 H1].
    rewrite (probe_loop_retry _ _ _ _ H0) by lia.
    rewrite (probe_loop_retry _ _ _ e1) by (exact H1 || lia).
    rewrite (probe_loop_response _ _ _ r) by exact Hr.
    rewrite !advance_advance. reflexivity.
Qed.

(** The probe when the three attempts raise. *)
Lemma probe_no_response w :
  (forall j, (j < 3)%nat -> exists e, net (j + sent w)%nat = Raises e) ->
  exists e, net (2 + sent w)%nat = Raises e
    /\ test_backend_connection url net w
       = (Ok (last_attempt_error e),
          advance w 3 (retry_log url 2 ++ [Request (health_request url)])).
Proof.
  intros Hfail. unfold test_backend_connection. simpl seq.
  destruct (Hfail 0%nat ltac:(lia)) as [e0 H0].
  destruct (Hfail 1%nat ltac:(lia)) as [e1 H1].
  destruct (Hfail 2%nat ltac:(lia)) as [e2 H2].
  exists e2. split; [exact H2|].
  rewrite (probe_loop_retry _ _ _ _ H0) by lia.
  rewrite (probe_loop_retry _ _ _ e1) by (exact H1 || lia).
  rewrite (probe_loop_last _ _ e2) by exact H2.
  rewrite !advance_advance. reflexivity.
Qed.

(** Either some attempt among the three is the first to get a response, or
    all three raise. *)
Lemma first_response_or_none w :
  (exists k r, (k < 3)%nat
     /\ (forall j, (j < k)%nat -> exists e, net (j + sent w)%nat = Raises e)
     /\ net (k + sent w)%nat = Responds r)
  \/ (forall j, (j < 3)%nat -> exists e, net (j + sent w)%nat = Raises e).
Proof.
  destruct (net (0 + sent w)%nat) as [r0|e0] eqn:H0.
  { left. exists 0%nat, r0. repeat split; [lia| |exact H0]. intros j Hj. lia. }
  destruct (net (1 + sent w)%nat) as [r1|e1] eqn:H1.
  { left. exists 1%nat, r1. repeat split; [lia| |exact H1].
    intros j Hj. assert (j = 0%nat) as -> by lia. eauto. }
  destruct (net (2 + sent w)%nat) as [r2|e2] eqn:H2.
  { left. exists 2%nat, r2. repeat split; [lia| |exact H2].
    intros j Hj. destruct j as [|[|j]]; [eauto|eauto|lia]. }
  right. intros j Hj. destruct j as [|[|[|j]]]; [eauto|eauto|eauto|lia].
Qed.

End Probe.

Lemma last_attempt_error_not_max e : last_attempt_error e <> MaxRetriesExceeded.
Proof. destruct e as [[] s]; discriminate. Qed.

(** C3, as the code has it. When the three attempts of
    [test_backend_connection] all fail at the transport level, the probe
    issues exactly three requests, waits 2 and then 4 seconds between them,
    and returns the failure of the third attempt ([SSL Error: ...],
    [Connection Error: ...], the timeout message or [Unexpected error: ...]);
    that result is never [Max retries exceeded]. *)
Theorem probe_exhausted_reports_last_error
  (url : string) (net : nat -> net_outcome) (w : world) :
  (forall i, (i < 3)%nat -> exists e, net (i + sent w)%nat = Raises e) ->
  exists e,
    net (2 + sent w)%nat = Raises e
    /\ test_backend_connection url net w
       = (Ok (last_attempt_error e),
          advance w 3 (retry_log url 2 ++ [Request (health_request url)]))
    /\ last_attempt_error e <> MaxRetriesExceeded.
Proof.
  intros Hfail. destruct (probe_no_response url net w Hfail) as (e & He & Hrun).
  exists e. repeat split; [exact He|exact Hrun|apply last_attempt_error_not_max].
Qed.

Lemma probe_exhausted_reports_last_error_witness :
  exists e,
    always_times_out 2%nat = Raises e
    /\ test_backend_connection "https://backend" always_times_out fresh_world
       = (Ok (last_attempt_error e),
          advance fresh_world 3
            (retry_log "https://backend" 2
               ++ [Request (health_request "https://backend")]))
    /\ last_attempt_error e <> MaxRetriesExceeded.
Proof.
  apply (probe_exhausted_reports_last_error "https://backend"
           always_times_out fresh_world).
  intros i _. eexists. reflexivity.
Defined.

(** C3, as stated, fails: with a backend whose three attempts time out the
    probe does not return [Max retries exceeded]. *)
Lemma probe_exhausted_not_max_retries :
  (forall i, exists e, always_times_out i = Raises e)
  /\ fst (test_backend_connection "https://backend" always_times_out fresh_world)
     = Ok (false, "Timeout - Backend may be sleeping on Render")
  /\ fst (test_backend_connection "https://backend" always_times_out fresh_world)
     <> Ok MaxRetriesExceeded.
Proof.
  split; [intros i; eexists; reflexivity|].
  split; [reflexivity|].
  vm_compute. discriminate.
Qed.

(** C4. [test_backend_connection] always returns; it reports success
    exactly when one of the attempts it made received HTTP 200; and an
    attempt that receives any other status ends the probe at once with the
    bad-status failure: that attempt is the last request, and the log ends
    with it, so no wait follows. *)
Theorem probe_success_iff_200
  (url : string) (net : nat -> net_outcome) (w : world) :
  exists result w',
    test_backend_connection url net w = (Ok result, w')
    /\ (fst result = true <->
        exists i r, (i < requests_between w w')%nat
          /\ net (i + sent w)%nat = Responds r /\ status_code r = 200%Z)
    /\ (forall i r, (i < requests_between w w')%nat ->
          net (i + sent w)%nat = Responds r -> status_code r <> 200%Z ->
          result = BadStatus r
          /\ requests_between w w' = S i
          /\ log w' = (log w ++ retry_log url i
                         ++ [Request (health_request url)])%list).
Proof.
  destruct (first_response_or_none net w) as [(k & r & Hk & Hfail & Hr)|Hfail].
  - rewrite (probe_first_response url net k r w Hk Hfail Hr).
    eexists _, _. split; [reflexivity|].
    assert (Hn : requests_between w
              (advance w (S k) (retry_log url k ++ [Request (health_request url)]))
            = S k) by (unfold requests_between; simpl; lia).
    rewrite Hn.
    assert (Honly : forall i r', (i < S k)%nat ->
              net (i + sent w)%nat = Responds r' -> i = k /\ r' = r).
    { intros i r' Hi Hi'. destruct (Nat.eq_dec i k) as [->|Hne].
      - split; [reflexivity|congruence].
      - destruct (Hfail i ltac:(lia)) as [e He]. congruence. }
    split; [split|].
    + intros Hok. exists k, r. repeat split; [lia|exact Hr|].
      destruct (Z.eqb_spec (status_code r) 200); [assumption|discriminate Hok].
    + intros (i & r' & Hi & Hi' & Hst).
      destruct (Honly i r' Hi Hi') as [-> ->].
      rewrite Hst. reflexivity.
    + intros i r' Hi Hi' Hst. destruct (Honly i r' Hi Hi') as [-> ->].
      destruct (Z.eqb_spec (status_code r) 200); [contradiction|].
      repeat split.
  - destruct (probe_no_response url net w Hfail) as (e & He & Hrun).
    rewrite Hrun. eexists _, _. split; [reflexivity|].
    assert (Hn : requests_between w
              (advance w 3 (retry_log url 2 ++ [Request (health_request url)]))
            = 3%nat) by (unfold requests_between; simpl; lia).
    rewrite Hn.
    assert (Hnone : forall i r, (i < 3)%nat ->
              net (i + sent w)%nat = Responds r -> False).
    { intros i r Hi Hi'. destruct (Hfail i Hi) as [e' He']. congruence. }
    split; [split|].
    + intros Hok. destruct e as [[] s]; discriminate Hok.
    + intros (i & r & Hi & Hi' & _). destruct (Hnone i r Hi Hi').
    + intros i r Hi Hi' _. destruct (Hnone i r Hi Hi').
Qed.

Lemma probe_success_iff_200_witness :
  fst (test_backend_connection "https://backend" wakes_up_third fresh_world)
    = Ok (true, "Connected (HTTP 200)")
  /\ fst (test_backend_connection "https://backend" always_500 fresh_world)
    = Ok (false, "HTTP 500: Internal Server Error")
  /\ log (snd (test_backend_connection "https://backend" always_500 fresh_world))
    = [Request (health_request "https://backend")].
Proof.
  destruct (probe_success_iff_200 "https://backend" wakes_up_third fresh_world)
    as (r1 & w1 & Hrun1 & [_ Hok] & _).
  destruct (probe_success_iff_200 "https://backend" always_500 fresh_world)
    as (r2 & w2 & Hrun2 & _ & Hbad).
  rewrite Hrun1, Hrun2. simpl.
  assert (H3 : requests_between fresh_world w1 = 3%nat).
  { vm_compute in Hrun1. injection Hrun1 as _ <-. reflexivity. }
  assert (H1 : requests_between fresh_world w2 = 1%nat).
  { vm_compute in Hrun2. injection Hrun2 as _ <-. reflexivity. }
  split; [|].
  - assert (fst r1 = true) as Ht.
    { apply Hok. exists 2%nat. eexists. rewrite H3.
      split; [lia|]. split; reflexivity. }
    vm_compute in Hrun1. injection Hrun1 as <- _. reflexivity.
  - destruct (Hbad 0%nat {| status_code := 500; text := "Internal Server Error";
                            json := None |}) as (-> & _ & ->).
    + rewrite H1. lia.
    + reflexivity.
    + simpl. discriminate.
    + split; reflexivity.
Defined.

(** ** The request client *)

Section RequestClient.

Variable url : string.
Variable net : nat -> net_outcome.

Lemma make_api_request_issued endpoint method data files req w :
  select_request url endpoint method data files = Some req ->
  make_api_request url net endpoint method data files w
  = (Ok match net (sent w) with
        | Responds r => (Some r, None)
        | Raises e => (None, Some (request_error e))
        end,
     advance w 1 [Print ("DEBUG: Making " ++ method ++ " request to: "
                           ++ url ++ endpoint);
                  Request req]).
Proof.
  intros Hsel. unfold make_api_request, bind, emit, http. simpl.
  rewrite Hsel. unfold advance. simpl. rewrite <- app_assoc.
  destruct (net (sent w)); reflexivity.
Qed.

Lemma make_api_request_refused endpoint method data files w :
  select_request url endpoint method data files = None ->
  make_api_request url net endpoint method data files w
  = (Ok (None, Some "Invalid request method"),
     advance w 0 [Print ("DEBUG: Making " ++ method ++ " request to: "
                           ++ url ++ endpoint)]).
Proof.
  intros Hsel. unfold make_api_request, bind, emit. simpl.
  rewrite Hsel. reflexivity.
Qed.

End RequestClient.

(** The three ways the handlers call [make_api_request]. *)
Lemma select_request_get url endpoint data files :
  select_request url endpoint "GET" data files
  = Some {| req_method := "GET"; req_url := url ++ endpoint;
            req_timeout := 300; req_body := NoBody |}.
Proof. reflexivity. Qed.

Lemma select_request_files url endpoint data part parts :
  select_request url endpoint "POST" data (Some (part :: parts))
  = Some {| req_method := "POST"; req_url := url ++ endpoint;
            req_timeout := 300; req_body := Multipart (part :: parts) |}.
Proof. reflexivity. Qed.

Lemma select_request_json url endpoint data :
  truthy data = true ->
  select_request url endpoint "POST" data None
  = Some {| req_method := "POST"; req_url := url ++ endpoint;
            req_timeout := 300; req_body := JsonBody data |}.
Proof. intros H. unfold select_request. simpl. rewrite H. reflexivity. Qed.

(** C5. [make_api_request] always returns, and issues at most one request:
    none when the method is not supported, exactly one otherwise. The
    outcome of that one request decides the result: a response, whatever
    its status, is returned as the response with no error; an exception
    that is a [Timeout] gives the timeout error; one that is not, and is a
    [ConnectionError], gives the connection error; any other exception
    gives [Request failed: ] followed by its message. *)
Theorem make_api_request_classifies
  (url : string) (net : nat -> net_outcome) (endpoint method : string)
  (data : pyval) (files : option (list (string * file_part))) (w : world) :
  exists result w',
    make_api_request url net endpoint method data files w = (Ok result, w')
    /\ (requests_between w w' <= 1)%nat
    /\ (forall req,
          select_request url endpoint method data files = Some req ->
          requests_between w w' = 1%nat
          /\ (forall r, net (sent w) = Responds r -> result = (Some r, None))
          /\ (forall e, net (sent w) = Raises e ->
                isinstance_Timeout e = true -> result = RequestTimeout)
          /\ (forall e, net (sent w) = Raises e ->
                isinstance_Timeout e = false ->
                isinstance_ConnectionError e = true ->
                result = ConnectionFailed)
          /\ (forall e, net (sent w) = Raises e ->
                isinstance_Timeout e = false ->
                isinstance_ConnectionError e = false ->
                result = UnexpectedRequestError (str e))).
Proof.
  destruct (select_request url endpoint method data files) as [req|] eqn:Hsel.
  - rewrite (make_api_request_issued url net _ _ _ _ req w Hsel).
    eexists _, _. split; [reflexivity|].
    assert (Hn : requests_between w (advance w 1
              [Print ("DEBUG: Making " ++ method ++ " request to: "
                        ++ url ++ endpoint); Request req]) = 1%nat)
      by (unfold requests_between; simpl; lia).
    rewrite Hn. split; [lia|]. intros req' _. split; [reflexivity|].
    repeat split.
    + intros r ->. reflexivity.
    + intros e -> Ht. unfold request_error. rewrite Ht. reflexivity.
    + intros e -> Ht Hc. unfold request_error. rewrite Ht, Hc. reflexivity.
    + intros e -> Ht Hc. unfold request_error. rewrite Ht, Hc. reflexivity.
  - rewrite (make_api_request_refused url net _ _ _ _ w Hsel).
    eexists _, _. split; [reflexivity|].
    split; [unfold requests_between; simpl; lia|].
    intros req Hreq. discriminate Hreq.
Qed.

Lemma make_api_request_classifies_witness :
  fst (make_api_request "https://backend" always_500 "/match" "POST"
         match_payload None fresh_world)
    = Ok (Some {| status_code := 500; text := "Internal Server Error";
                  json := None |}, None)
  /\ fst (make_api_request "https://backend" always_times_out "/match" "POST"
            match_payload None fresh_world)
    = Ok RequestTimeout.
Proof.
  destruct (make_api_request_classifies "https://backend" always_500 "/match"
              "POST" match_payload None fresh_world)
    as (r1 & w1 & -> & _ & H1).
  destruct (make_api_request_classifies "https://backend" always_times_out
              "/match" "POST" match_payload None fresh_world)
    as (r2 & w2 & -> & _ & H2).
  simpl. split.
  - destruct (H1 _ eq_refl) as (_ & Hresp & _).
    rewrite (Hresp _ eq_refl). reflexivity.
  - destruct (H2 _ eq_refl) as (_ & _ & Htime & _).
    rewrite (Htime _ eq_refl eq_refl). reflexivity.
Defined.

(** ** Weakest preconditions for the script's computations *)

Section WpRules.

Context {A B : Type}.
Variable Q : A -> world -> Prop.
Variable E : pyexn -> world -> Prop.

Lemma wp_ret (a : A) w : Q a w -> wp (ret a) Q E w.
Proof. exact (fun H => H). Qed.

Lemma wp_raise e w : E e w -> wp (@raise A e) Q E w.
Proof. exact (fun H => H). Qed.

Lemma wp_lift (r : res A) w :
  match r with Ok a => Q a w | Raise e => E e w end -> wp (lift r) Q E w.
Proof. unfold wp, lift. destruct r; exact (fun H => H). Qed.

Lemma wp_bind (c : M B) (k : B -> M A) w :
  wp c (fun b w' => wp (k b) Q E w') E w -> wp (bind c k) Q E w.
Proof. unfold wp, bind. destruct (c w) as [[b|e] w']; exact (fun H => H). Qed.

Lemma wp_mono (c : M A) (Q' : A -> world -> Prop)
  (E' : pyexn -> world -> Prop) w :
  (forall a w', Q' a w' -> Q a w') -> (forall e w', E' e w' -> E e w') ->
  wp c Q' E' w -> wp c Q E w.
Proof.
  unfold wp. intros HQ HE. destruct (c w) as [[a|e] w']; [apply HQ|apply HE].
Qed.

End WpRules.

Section WpState.

Variable E : pyexn -> world -> Prop.

Lemma wp_emit (Q : unit -> world -> Prop) ef w :
  Q tt (advance w 0 [ef]) -> wp (emit ef) Q E w.
Proof. exact (fun H => H). Qed.

Lemma wp_ss_get (Q : pyval -> world -> Prop) key dflt w :
  Q (default dflt (session_state w !! key)) w -> wp (ss_get key dflt) Q E w.
Proof. exact (fun H => H). Qed.

Lemma wp_ss_item (Q : pyval -> world -> Prop) key w :
  match session_state w !! key with
  | Some v => Q v w
  | None => E (KeyError key) w
  end -> wp (ss_item key) Q E w.
Proof.
  unfold wp, ss_item. destruct (session_state w !! key); exact (fun H => H).
Qed.

Lemma wp_ss_attr (Q : pyval -> world -> Prop) key w :
  match session_state w !! key with
  | Some v => Q v w
  | None => E (AttributeError key) w
  end -> wp (ss_attr key) Q E w.
Proof.
  unfold wp, ss_attr. destruct (session_state w !! key); exact (fun H => H).
Qed.

Lemma wp_ss_set (Q : unit -> world -> Prop) key v w :
  Q tt (with_session w (<[key := v]> (session_state w))) ->
  wp (ss_set key v) Q E w.
Proof. exact (fun H => H). Qed.

Lemma wp_ss_clear (Q : unit -> world -> Prop) w :
  Q tt (with_session w ∅) -> wp ss_clear Q E w.
Proof. exact (fun H => H). Qed.

End WpState.

Ltac wp_step :=
  cbv beta iota;
  lazymatch goal with
  | |- wp (bind _ _) _ _ _ => apply wp_bind
  | |- wp (ret _) _ _ _ => apply wp_ret
  | |- wp (raise _) _ _ _ => apply wp_raise
  | |- wp (emit _) _ _ _ => apply wp_emit
  | |- wp (lift _) _ _ _ => apply wp_lift
  | |- wp (ss_get _ _) _ _ _ => apply wp_ss_get
  | |- wp (ss_item _) _ _ _ => apply wp_ss_item
  | |- wp (ss_attr _) _ _ _ => apply wp_ss_attr
  | |- wp (ss_set _ _) _ _ _ => apply wp_ss_set
  | |- wp ss_clear _ _ _ => apply wp_ss_clear
  end.

Ltac wp_steps := repeat wp_step; cbv beta iota.

Section WpBackend.

Variable url : string.
Variable net : nat -> net_outcome.
Variable display : string -> pyval -> option pyexn.

Lemma probe_returns w :
  exists result n tail,
    test_backend_connection url net w = (Ok result, advance w n tail).
Proof.
  destruct (first_response_or_none net w) as [(k & r & Hk & Hfail & Hr)|Hfail].
  - rewrite (probe_first_response url net k r w Hk Hfail Hr). eauto.
  - destruct (probe_no_response url net w Hfail) as (e & _ & ->). eauto.
Qed.

Lemma wp_probe (Q : bool * string -> world -> Prop) E w :
  (forall result n tail, Q result (advance w n tail)) ->
  wp (test_backend_connection url net) Q E w.
Proof.
  intros H. unfold wp.
  destruct (probe_returns w) as (result & n & tail & ->). apply H.
Qed.

(** The probe reads nothing of the world but the number of requests
    sent: it does in [w] what it does in [at_request (sent w)]. *)
Lemma probe_frame w :
  exists result n tail,
    test_backend_connection url net w = (Ok result, advance w n tail)
    /\ test_backend_connection url net (at_request (sent w))
       = (Ok result, advance (at_request (sent w)) n tail)
    /\ (0 < n)%nat.
Proof.
  destruct (first_response_or_none net w) as [(k & r & Hk & Hfail & Hr)|Hfail].
  - rewrite (probe_first_response url net k r w Hk Hfail Hr).
    rewrite (probe_first_response url net k r (at_request (sent w)) Hk Hfail Hr).
    eexists _, _, _. split; [reflexivity|]. split; [reflexivity|lia].
  - destruct (probe_no_response url net w Hfail) as (e & He & ->).
    destruct (probe_no_response url net (at_request (sent w)) Hfail)
      as (e' & He' & ->).
    assert (e' = e) as -> by (cbn [sent at_request] in He'; congruence).
    eexists _, _, _. split; [reflexivity|]. split; [reflexivity|lia].
Qed.

Lemma wp_probe_at (Q : bool * string -> world -> Prop) E w :
  (forall result n tail,
     probed url net (sent w) (status_dict (fst result) (snd result))
       (n + sent w) ->
     (0 < n)%nat -> Q result (advance w n tail)) ->
  wp (test_backend_connection url net) Q E w.
Proof.
  intros H. unfold wp.
  destruct (probe_frame w) as (result & n & tail & -> & Hat & Hn).
  apply H; [|exact Hn]. exists result, (advance (at_request (sent w)) n tail).
  split; [exact Hat|]. split; reflexivity.
Qed.

Lemma wp_make_api_request endpoint method data files
  (Q : option response * option string -> world -> Prop) E w :
  (forall req, select_request url endpoint method data files = Some req ->
     Q match net (sent w) with
       | Responds r => (Some r, None)
       | Raises e => (None, Some (request_error e))
       end
       (advance w 1 [Print ("DEBUG: Making " ++ method ++ " request to: "
                              ++ url ++ endpoint); Request req])) ->
  (select_request url endpoint method data files = None ->
     Q (None, Some "Invalid request method")
       (advance w 0 [Print ("DEBUG: Making " ++ method ++ " request to: "
                              ++ url ++ endpoint)])) ->
  wp (make_api_request url net endpoint method data files) Q E w.
Proof.
  intros Hreq Hnone. unfold wp.
  destruct (select_request url endpoint method data files) as [req|] eqn:Hsel.
  - rewrite (make_api_request_issued url net _ _ _ _ req w Hsel).
    apply Hreq. reflexivity.
  - rewrite (make_api_request_refused url net _ _ _ _ w Hsel).
    apply Hnone. reflexivity.
Qed.

Lemma wp_render (Q : unit -> world -> Prop) (E : pyexn -> world -> Prop)
  function result w :
  Q tt w -> (forall e, E e w) -> wp (render display function result) Q E w.
Proof.
  intros HQ HE. unfold wp, render.
  destruct (display function result); [apply HE|apply HQ].
Qed.

End WpBackend.

(** ** Failure of a backend call *)

Lemma request_error_truthy e : negb (String.eqb (request_error e) "") = true.
Proof.
  unfold request_error.
  destruct (isinstance_Timeout e); [reflexivity|].
  destruct (isinstance_ConnectionError e); reflexivity.
Qed.

Lemma is_200_bad_status r : status_code r <> 200%Z -> is_200 (Some r) = false.
Proof.
  intros H. unfold is_200.
  destruct (Z.eqb_spec (status_code r) 200); [contradiction|].
  apply andb_false_r.
Qed.

Lemma is_200_ok r : status_code r = 200%Z -> is_200 (Some r) = true.
Proof. intros H. unfold is_200, response_truthy. rewrite H. reflexivity. Qed.

Lemma wp_fails_cleanly (c : M unit) w :
  wp c (fun _ w' => session_state w' = session_state w /\ surfaced_error w w')
       (fun _ _ => False) w ->
  fails_cleanly c w.
Proof.
  unfold wp, fails_cleanly. destruct (c w) as [[[]|e] w']; [|contradiction].
  intros H. exists w'. split; [reflexivity|exact H].
Qed.

Section FailedCall.

Variable url : string.
Variable net : nat -> net_outcome.
Variable display : string -> pyval -> option pyexn.
Variable repr : pyval -> string.

(** What the three handlers share once the request is issued: the
    treatment of a failed outcome. *)
Lemma surfaced_after_request w debug req msg :
  surfaced_error w (advance (advance w 1 [Print debug; Request req]) 0
                      [StError msg]).
Proof.
  exists debug, req, msg. simpl. rewrite <- app_assoc. reflexivity.
Qed.

(** After the request: the three kinds of failure, each ending in an
    error message with the session state untouched. *)
Ltac failed_call_cases Hfail :=
  inversion Hfail as [e He|r Hst He|r d Hst Hjson Hsucc He];
  cbv beta iota;
  [ unfold error_truthy; rewrite request_error_truthy
  | simpl error_truthy; cbv iota; rewrite (is_200_bad_status r Hst)
  | simpl error_truthy; cbv iota; rewrite (is_200_ok r Hst); wp_steps;
    cbn [rbind]; unfold response_json; rewrite Hjson;
    wp_steps; cbn [py_get]; rewrite Hsucc ];
  wp_steps; (split; [reflexivity|apply surfaced_after_request]).

Lemma upload_clicked_fails w bank invoice :
  failed_call (net (sent w)) ->
  fst (validate_file (Some bank) "Bank statement") = true ->
  fst (validate_file (Some invoice) "Invoice") = true ->
  fails_cleanly
    (upload_clicked url net display repr (Some bank) (Some invoice)) w.
Proof.
  intros Hfail Hbank Hinvoice. apply wp_fails_cleanly.
  unfold upload_clicked.
  destruct (validate_file (Some bank) "Bank statement") as [bank_valid bank_msg].
  destruct (validate_file (Some invoice) "Invoice")
    as [invoice_valid invoice_msg].
  simpl in Hbank, Hinvoice. subst bank_valid invoice_valid. cbn [negb orb].
  apply wp_bind, wp_make_api_request; [|discriminate].
  intros req _. failed_call_cases Hfail.
Qed.

Lemma identify_clicked_fails w :
  failed_call (net (sent w)) ->
  is_Some (session_state w !! "session_id") ->
  fails_cleanly (identify_clicked url net display repr) w.
Proof.
  intros Hfail [session_id Hsid]. apply wp_fails_cleanly.
  unfold identify_clicked. wp_steps. rewrite Hsid.
  apply wp_bind, wp_make_api_request; [|discriminate].
  intros req _. failed_call_cases Hfail.
Qed.

Lemma match_clicked_fails w :
  failed_call (net (sent w)) ->
  is_Some (session_state w !! "session_id") ->
  fails_cleanly (match_clicked url net display repr) w.
Proof.
  intros Hfail [session_id Hsid]. apply wp_fails_cleanly.
  unfold match_clicked. wp_steps. rewrite Hsid.
  apply wp_bind, wp_make_api_request; [|discriminate].
  intros req _. failed_call_cases Hfail.
Qed.

End FailedCall.

(** C2. A call of the upload handler (with two valid files), of the column
    identification handler or of the matching handler whose request fails,
    by an exception of the transport, by a status other than 200, or by a
    200 response whose [success] is false, returns normally, leaves
    [st.session_state] exactly as it was (stage flags, session id and stored
    results), and shows an error message after its single request. *)
Theorem failed_call_leaves_session
  (url : string) (net : nat -> net_outcome)
  (display : string -> pyval -> option pyexn) (repr : pyval -> string)
  (w : world) :
  failed_call (net (sent w)) ->
  (forall bank invoice,
      fst (validate_file (Some bank) "Bank statement") = true ->
      fst (validate_file (Some invoice) "Invoice") = true ->
      fails_cleanly
        (upload_clicked url net display repr (Some bank) (Some invoice)) w)
  /\ (is_Some (session_state w !! "session_id") ->
      fails_cleanly (identify_clicked url net display repr) w)
  /\ (is_Some (session_state w !! "session_id") ->
      fails_cleanly (match_clicked url net display repr) w).
Proof.
  intros Hfail. split; [|split].
  - intros bank invoice. apply upload_clicked_fails. exact Hfail.
  - apply identify_clicked_fails. exact Hfail.
  - apply match_clicked_fails. exact Hfail.
Qed.

Lemma failed_call_leaves_session_witness :
  fails_cleanly
    (identify_clicked "https://backend"
       (answers (PDict [("success", PBool false); ("error", PStr "no header row")]))
       quiet_display plain_repr)
    uploaded_world
  /\ fails_cleanly
    (match_clicked "https://backend" always_500 quiet_display plain_repr)
    uploaded_world
  /\ fails_cleanly
    (upload_clicked "https://backend" always_times_out quiet_display plain_repr
       (Some (sample_file "bank.csv" 100)) (Some (sample_file "invoices.xlsx" 100)))
    uploaded_world.
Proof.
  split; [|split].
  - apply (failed_call_leaves_session "https://backend"
             (answers (PDict [("success", PBool false);
                              ("error", PStr "no header row")]))).
    + eapply success_false; reflexivity.
    + eexists. reflexivity.
  - apply (failed_call_leaves_session "https://backend" always_500).
    + apply bad_status. simpl. discriminate.
    + eexists. reflexivity.
  - apply (failed_call_leaves_session "https://backend" always_times_out).
    + apply transport_error.
    + reflexivity.
    + reflexivity.
Defined.

(** ** The invariant of the session state *)

Ltac wp_case :=
  cbv beta;
  lazymatch goal with
  | |- wp (if ?b then _ else _) _ _ _ => destruct b eqn:?
  | |- wp (match ?x with _ => _ end) _ _ _ => destruct x eqn:?
  | |- match ?x with _ => _ end => destruct x eqn:?
  end.

(** Lookups through the insertions of constant keys. *)
Ltac lookup_simpl :=
  repeat match goal with
    | |- context [<[?k:=?v]> ?m !! ?k] => rewrite (lookup_insert_eq m k v)
    | |- context [<[?k:=?v]> ?m !! ?k'] =>
        rewrite (lookup_insert_ne m k k' v) by done
    | H : context [<[?k:=?v]> ?m !! ?k] |- _ =>
        rewrite (lookup_insert_eq m k v) in H
    | H : context [<[?k:=?v]> ?m !! ?k'] |- _ =>
        rewrite (lookup_insert_ne m k k' v) in H by done
    end.

Lemma stage_invariant_empty : stage_invariant ∅.
Proof.
  unfold stage_invariant, flag, stored. rewrite !lookup_empty. simpl.
  repeat split; (contradiction || discriminate).
Qed.

(** A key the invariant does not read. *)
Lemma stage_invariant_other (s : gmap string pyval) (key : string) (v : pyval) :
  key <> "session_id" -> key <> "upload_result" -> key <> "files_uploaded" ->
  key <> "columns_identified" -> key <> "matching_completed" ->
  stage_invariant s -> stage_invariant (<[key := v]> s).
Proof.
  intros H1 H2 H3 H4 H5 Hinv.
  unfold stage_invariant, uploaded_by, flag, stored in *.
  lookup_simpl. exact Hinv.
Qed.

(** An absent key set to its default. *)
Lemma stage_invariant_default (s : gmap string pyval) (key : string) (v : pyval) :
  In (key, v) default_states -> s !! key = None ->
  stage_invariant s -> stage_invariant (<[key := v]> s).
Proof.
  intros Hin Hnone Hinv.
  assert (Hcases : key = "upload_result" /\ v = PNone
                   \/ key = "session_id" /\ v = PNone
                   \/ (key = "files_uploaded" \/ key = "columns_identified"
                       \/ key = "matching_completed") /\ v = PBool false
                   \/ key = "column_identification_result"
                   \/ key = "matching_result" \/ key = "backend_status").
  { simpl in Hin. intuition congruence. }
  destruct Hcases as [ [-> ->] | [ [-> ->] | [ [Hk ->] | Hk ] ] ].
  - destruct Hinv as (Hsid & Hci & Hmc).
    unfold stage_invariant, uploaded_by, flag, stored in *.
    lookup_simpl. split; [|split; assumption].
    intros Hne. destruct (Hsid Hne) as (_ & result & success & Hur & _).
    congruence.
  - destruct Hinv as (Hsid & Hci & Hmc).
    unfold stage_invariant, uploaded_by, flag, stored in *.
    rewrite Hnone in Hci, Hmc. simpl in Hci, Hmc.
    lookup_simpl. simpl.
    split; [contradiction|]. split; assumption.
  - destruct Hinv as (Hsid & Hci & Hmc).
    unfold stage_invariant, uploaded_by, flag, stored in *.
    destruct Hk as [ -> | [ -> | -> ] ]; lookup_simpl; simpl;
      rewrite ?Hnone in *; simpl in *.
    + split; [|split; assumption]. intros Hne.
      destruct (Hsid Hne) as [Hfu _]. discriminate Hfu.
    + split; [assumption|]. split; [discriminate|assumption].
    + split; [assumption|]. split; [assumption|discriminate].
  - apply stage_invariant_other; [| | | | |exact Hinv];
      destruct Hk as [ -> | [ -> | -> ] ]; done.
Qed.

(** The session state after a successful upload. *)
Lemma stage_invariant_uploaded
  (s : gmap string pyval) (result success session_id : pyval) :
  stage_invariant s -> flag s "files_uploaded" = false ->
  py_get result "success" PNone = Ok success -> truthy success = true ->
  py_item result "session_id" = Ok session_id ->
  stage_invariant
    (<["files_uploaded" := PBool true]>
       (<["session_id" := session_id]> (<["upload_result" := result]> s))).
Proof.
  intros (Hsid & Hci & Hmc) Hfu Hsucc Htrue Hitem.
  assert (Hnone : stored s "session_id" = PNone).
  { destruct (stored s "session_id"); try reflexivity;
      (destruct Hsid as [Hfu' _]; [discriminate|congruence]). }
  rewrite Hnone in Hci, Hmc. simpl in Hci, Hmc.
  unfold stage_invariant, uploaded_by, flag, stored in *. lookup_simpl. simpl.
  split; [|split].
  - intros _. split; [reflexivity|]. exists result, success. auto.
  - intros H. apply Hci in H. discriminate H.
  - intros H. apply Hmc in H. discriminate H.
Qed.

(** The session state when the upload response has no session id. *)
Lemma stage_invariant_upload_result (s : gmap string pyval) (result : pyval) :
  stage_invariant s -> flag s "files_uploaded" = false ->
  stage_invariant (<["upload_result" := result]> s).
Proof.
  intros (Hsid & Hci & Hmc) Hfu.
  unfold stage_invariant, uploaded_by, flag, stored in *. lookup_simpl.
  split; [|split; assumption].
  intros Hne. destruct (Hsid Hne) as [Hfu' _]. congruence.
Qed.

(** The session state after a later stage succeeds: its result and its
    flag are stored while a session id is. *)
Lemma stage_invariant_stage_done
  (s : gmap string pyval) (result_key flag_key : string) (result : pyval) :
  (result_key = "column_identification_result" /\ flag_key = "columns_identified")
  \/ (result_key = "matching_result" /\ flag_key = "matching_completed") ->
  stage_invariant s -> truthy (stored s "session_id") = true ->
  stage_invariant (<[flag_key := PBool true]> (<[result_key := result]> s)).
Proof.
  intros Hkeys (Hsid & Hci & Hmc) Htrue.
  unfold stage_invariant, uploaded_by, flag, stored in *.
  destruct Hkeys as [ [-> ->] | [-> ->] ]; lookup_simpl; simpl;
    (split; [assumption|]); (split; [|]); solve [auto].
Qed.

(** *** Predicates closed under the writes of the script

    [I] holds of the session state between the sections of a run, [J]
    when a run has ended: [J] is [I], or [I] weakened to admit the state
    cleared by a reset. *)

Section Preservation.

Variable url : string.
Variable net : nat -> net_outcome.
Variable display : string -> pyval -> option pyexn.
Variable repr : pyval -> string.

Variables I J : gmap string pyval -> Prop.

Hypothesis I_J : forall s, I s -> J s.
Hypothesis J_empty : J ∅.

Hypothesis I_default : forall s key v,
  In (key, v) default_states -> s !! key = None -> I s -> I (<[key := v]> s).

Hypothesis I_status : forall s k status k',
  probed url net k status k' -> I s -> I (<["backend_status" := status]> s).

Hypothesis I_uploaded : forall s result success session_id,
  I s -> flag s "files_uploaded" = false ->
  py_get result "success" PNone = Ok success -> truthy success = true ->
  py_item result "session_id" = Ok session_id ->
  I (<["files_uploaded" := PBool true]>
       (<["session_id" := session_id]> (<["upload_result" := result]> s))).

Hypothesis I_upload_result : forall s result,
  I s -> flag s "files_uploaded" = false -> I (<["upload_result" := result]> s).

Hypothesis I_stage_done : forall s result_key flag_key result,
  (result_key = "column_identification_result" /\ flag_key = "columns_identified")
  \/ (result_key = "matching_result" /\ flag_key = "matching_completed") ->
  I s -> truthy (stored s "session_id") = true ->
  I (<[flag_key := PBool true]> (<[result_key := result]> s)).

Ltac kept H := first [exact H | exact (I_J _ H)].

Lemma keeps_bind {A B} (c : M A) (k : A -> M B) :
  keeps I J c -> (forall a, keeps I J (k a)) -> keeps I J (bind c k).
Proof.
  intros Hc Hk w Hinv. apply wp_bind.
  eapply wp_mono; [| |apply (Hc w Hinv)]; cbv beta.
  - intros a w' Hw'. apply Hk. exact Hw'.
  - intros e w' Hw'. exact Hw'.
Qed.

Lemma keeps_set_defaults states :
  (forall kv, In kv states -> In kv default_states) ->
  keeps I J (set_defaults states).
Proof.
  induction states as [|[key v] rest IH]; intros Hsub.
  - intros w Hinv. kept Hinv.
  - simpl. apply keeps_bind.
    + intros w Hinv. unfold wp.
      destruct (session_state w !! key) eqn:Hk; [kept Hinv|].
      simpl. apply I_default; [|exact Hk|exact Hinv].
      apply Hsub. left. reflexivity.
    + intros _. apply IH. intros kv Hkv. apply Hsub. right. exact Hkv.
Qed.

Lemma keeps_initialize : keeps I J initialize_session_state.
Proof. apply keeps_set_defaults. intros kv H. exact H. Qed.

Lemma keeps_backend_status_check : keeps I J (backend_status_check url net repr).
Proof.
  intros w Hinv. unfold backend_status_check. wp_steps.
  destruct (session_state w !! "backend_status") as [status|] eqn:Hbs;
    [|kept Hinv].
  assert (Hnext : forall w', I (session_state w') ->
    wp (let* backend_status := ss_attr "backend_status" in
        let* connected := lift (py_item backend_status "connected") in
        let* message := lift (py_item backend_status "message") in
        if truthy connected then
          emit (StSuccess ("✅ Backend connected: " ++ format repr message))
        else
          emit (StError ("❌ Backend connection failed: " ++ format repr message)) ;;
          emit (StInfo "💡 If using Render, the backend might be sleeping. Try refreshing in a few moments."))
      (fun _ w'' => I (session_state w''))
      (fun _ w'' => J (session_state w'')) w').
  { intros w' Hinv'. wp_steps.
    destruct (session_state w' !! "backend_status"); [|kept Hinv'].
    wp_steps. wp_case; [|kept Hinv']. wp_steps. wp_case; [|kept Hinv'].
    wp_case; wp_steps; kept Hinv'. }
  apply wp_bind.
  destruct status; cbv iota;
    try (apply wp_ret; cbv beta; apply Hnext; kept Hinv).
  apply wp_bind, wp_probe_at. intros result n tail Hprobed _.
  apply wp_ss_set. cbv beta.
  apply Hnext. cbn [session_state advance with_session].
  exact (I_status _ _ _ _ Hprobed Hinv).
Qed.

(** A button is enabled only while its stage flag is not set. *)
Lemma wp_disabled_by key (Q : bool -> world -> Prop) E w :
  (forall b, (b = false -> flag (session_state w) key = false) -> Q b w) ->
  (forall e, E e w) ->
  wp (disabled_by key) Q E w.
Proof.
  intros HQ HE. unfold disabled_by. wp_steps.
  assert (Hflag : truthy (default (PBool false) (session_state w !! key))
                  = flag (session_state w) key).
  { unfold flag, stored. destruct (session_state w !! key); reflexivity. }
  rewrite Hflag. destruct (flag (session_state w) key) eqn:Hf.
  - wp_steps. apply HQ. discriminate.
  - unfold not_connected. wp_steps.
    destruct (session_state w !! "backend_status"); [|apply HE].
    wp_steps. wp_case; [|apply HE]. wp_steps. apply HQ. reflexivity.
Qed.

Lemma st_button_enabled i b disabled :
  st_button i b disabled = true -> disabled = false.
Proof.
  unfold st_button. destruct (clicked i); [|discriminate].
  destruct disabled; [rewrite andb_false_r; discriminate|reflexivity].
Qed.

Lemma upload_clicked_keeps bank invoice w :
  I (session_state w) ->
  flag (session_state w) "files_uploaded" = false ->
  wp (upload_clicked url net display repr bank invoice)
     (fun _ w' => I (session_state w'))
     (fun _ w' => J (session_state w')) w.
Proof.
  intros Hinv Hfu. unfold upload_clicked.
  destruct (match bank with
            | Some _ => validate_file bank "Bank statement"
            | None => (false, "Bank statement file is required")
            end) as [bank_valid bank_msg].
  destruct (match invoice with
            | Some _ => validate_file invoice "Invoice"
            | None => (false, "Invoice file is required")
            end) as [invoice_valid invoice_msg].
  wp_case; [wp_steps; kept Hinv|].
  destruct bank as [bank|]; [|wp_steps; kept Hinv].
  destruct invoice as [invoice|]; [|wp_steps; kept Hinv].
  apply wp_bind, wp_make_api_request; [|discriminate].
  intros req _.
  destruct (net (sent w)) as [r|e]; cbv beta iota.
  2: { wp_case; wp_steps; kept Hinv. }
  simpl error_truthy. cbv iota.
  wp_case; [|wp_steps; kept Hinv].
  wp_steps. cbn [rbind].
  destruct (response_json r) as [result|]; [|kept Hinv].
  wp_steps. destruct (py_get result "success" PNone) as [success|] eqn:Hsucc;
    [|kept Hinv].
  wp_steps. destruct (truthy success) eqn:Htrue.
  - wp_steps. cbn [session_state advance with_session].
    destruct (py_item result "session_id") as [session_id|] eqn:Hitem.
    + wp_steps. cbn [session_state advance with_session].
      assert (Hfinal := I_uploaded _ _ _ _ Hinv Hfu Hsucc Htrue Hitem).
      apply wp_render; [exact Hfinal|intros _; exact (I_J _ Hfinal)].
    + cbn [session_state advance with_session].
      apply I_J, I_upload_result; assumption.
  - wp_steps. wp_case; [|kept Hinv]. wp_steps. kept Hinv.
Qed.

Lemma keeps_upload_section i : keeps I J (upload_section url net display repr i).
Proof.
  intros w Hinv. unfold upload_section.
  apply wp_bind, wp_disabled_by; [|intros _; kept Hinv].
  intros upload_disabled Hflag.
  destruct (st_button i UploadButton upload_disabled) eqn:Hb.
  - apply upload_clicked_keeps; [kept Hinv|].
    apply Hflag. exact (st_button_enabled _ _ _ Hb).
  - kept Hinv.
Qed.

Lemma stage_clicked_keeps (c : M unit) endpoint success_msg result_key flag_key
  shown error_msg refused_msg status_msg w :
  (result_key = "column_identification_result" /\ flag_key = "columns_identified")
  \/ (result_key = "matching_result" /\ flag_key = "matching_completed") ->
  c = (let* session_id := ss_item "session_id" in
       let* (response, error) :=
         make_api_request url net endpoint "POST"
           (PDict [("session_id", session_id)]) None in
       if error_truthy error then
         emit (StError (error_msg ++ default "" error))
       else if is_200 response then
         let* result := lift (let? r := match response with
                                        | Some r => Ok r
                                        | None => Raise (AttributeError "json")
                                        end in response_json r) in
         let* success := lift (py_get result "success" PNone) in
         if truthy success then
           emit (StSuccess success_msg) ;;
           ss_set result_key result ;;
           ss_set flag_key (PBool true) ;;
           render display shown result
         else
           let* err := lift (py_get result "error" (PStr "Unknown error")) in
           emit (StError (refused_msg ++ format repr err))
       else
         emit (StError (status_msg ++ status_text response))) ->
  I (session_state w) ->
  truthy (stored (session_state w) "session_id") = true ->
  wp c (fun _ w' => I (session_state w'))
       (fun _ w' => J (session_state w')) w.
Proof.
  intros Hkeys -> Hinv Htrue. wp_steps.
  destruct (session_state w !! "session_id") as [session_id|]; [|kept Hinv].
  apply wp_bind, wp_make_api_request; [|discriminate].
  intros req _.
  destruct (net (sent w)) as [r|e]; cbv beta iota.
  2: { wp_case; wp_steps; kept Hinv. }
  simpl error_truthy. cbv iota.
  wp_case; [|wp_steps; kept Hinv].
  wp_steps. cbn [rbind].
  destruct (response_json r) as [result|]; [|kept Hinv].
  wp_steps. destruct (py_get result "success" PNone) as [success|];
    [|kept Hinv].
  wp_steps. destruct (truthy success).
  - wp_steps. cbn [session_state advance with_session].
    assert (Hfinal := I_stage_done _ _ _ result Hkeys Hinv Htrue).
    apply wp_render; [exact Hfinal|intros _; exact (I_J _ Hfinal)].
  - wp_steps. wp_case; [|kept Hinv]. wp_steps. kept Hinv.
Qed.

Lemma keeps_identify_section i : keeps I J (identify_section url net display repr i).
Proof.
  intros w Hinv. unfold identify_section. wp_steps.
  destruct (truthy (default PNone (session_state w !! "upload_result"))
            && truthy (default PNone (session_state w !! "session_id")))
    eqn:Hguard; [|kept Hinv].
  apply andb_prop in Hguard as [_ Hsid].
  apply wp_bind, wp_disabled_by; [|intros _; kept Hinv].
  intros column_disabled _.
  destruct (st_button i IdentifyButton column_disabled); [|kept Hinv].
  eapply stage_clicked_keeps; [left; split; reflexivity|reflexivity| |];
    assumption.
Qed.

Lemma keeps_match_section i : keeps I J (match_section url net display repr i).
Proof.
  intros w Hinv. unfold match_section. wp_steps.
  destruct (truthy (default PNone
                      (session_state w !! "column_identification_result"))
            && truthy (default PNone (session_state w !! "session_id")))
    eqn:Hguard; [|kept Hinv].
  apply andb_prop in Hguard as [_ Hsid].
  apply wp_bind, wp_disabled_by; [|intros _; kept Hinv].
  intros matching_disabled _.
  destruct (st_button i MatchButton matching_disabled); [|kept Hinv].
  eapply stage_clicked_keeps; [right; split; reflexivity|reflexivity| |];
    assumption.
Qed.

(** The download handlers read the session state and never write it. *)
Lemma wp_download_section i (P : gmap string pyval -> Prop) w :
  P (session_state w) ->
  wp (download_section i) (fun _ w' => P (session_state w'))
     (fun _ w' => P (session_state w')) w.
Proof.
  intros HP. unfold download_section. wp_steps.
  wp_case; [|exact HP].
  assert (Hreport : forall w', P (session_state w') ->
    wp (if st_button i DownloadReportButton false
        then download_report_clicked else ret tt)
       (fun _ w'' => P (session_state w''))
       (fun _ w'' => P (session_state w'')) w').
  { intros w' HP'. wp_case; [|exact HP'].
    unfold download_report_clicked. wp_steps.
    destruct (session_state w' !! "matching_result"); [|exact HP'].
    wp_steps. wp_case; exact HP'. }
  apply wp_bind. wp_case; [|apply Hreport; exact HP].
  unfold download_matched_clicked.
  repeat first [solve [apply Hreport; exact HP] | exact HP | wp_step | wp_case].
Qed.

Lemma keeps_download_section i : keeps I J (download_section i).
Proof.
  intros w Hinv.
  eapply wp_mono; [| |apply (wp_download_section i I w Hinv)]; cbv beta.
  - intros _ w' Hw'. exact Hw'.
  - intros _ w' Hw'. exact (I_J _ Hw').
Qed.

(** Reset either does nothing and returns, or clears the session state
    and ends the run with [st.rerun()]. *)
Lemma wp_reset_section i (Q : unit -> world -> Prop) E w :
  Q tt w ->
  (clicked i = Some ResetButton ->
   (flag (session_state w) "files_uploaded"
    || flag (session_state w) "columns_identified"
    || flag (session_state w) "matching_completed") = true ->
   E RerunException (with_session w ∅)) ->
  wp (reset_section i) Q E w.
Proof.
  intros HQ HE. unfold reset_section. wp_steps.
  fold (stored (session_state w) "files_uploaded").
  fold (stored (session_state w) "columns_identified").
  fold (stored (session_state w) "matching_completed").
  fold (flag (session_state w) "files_uploaded").
  fold (flag (session_state w) "columns_identified").
  fold (flag (session_state w) "matching_completed").
  destruct (flag (session_state w) "files_uploaded"
            || flag (session_state w) "columns_identified"
            || flag (session_state w) "matching_completed") eqn:Hflags;
    [|exact HQ].
  destruct (st_button i ResetButton false) eqn:Hb; [|exact HQ].
  wp_steps. apply HE; [|reflexivity].
  unfold st_button in Hb. destruct (clicked i) as [[]|]; try discriminate Hb.
  reflexivity.
Qed.

Lemma keeps_reset_section i : keeps I J (reset_section i).
Proof.
  intros w Hinv. apply wp_reset_section; [kept Hinv|].
  intros _ _. exact J_empty.
Qed.

(** The lines of the sidebar read the session state and never write
    it. *)
Lemma wp_sidebar_lines (P : gmap string pyval -> Prop) w :
  P (session_state w) ->
  wp (show_current_status repr ;; progress_tracking ;; session_info repr)
     (fun _ w' => P (session_state w'))
     (fun _ w' => P (session_state w')) w.
Proof.
  intros HP.
  unfold show_current_status, progress_tracking, session_info.
  repeat first [exact HP | wp_step | wp_case].
Qed.

Lemma keeps_sidebar i : keeps I J (sidebar url net repr i).
Proof.
  intros w Hinv. unfold sidebar. apply wp_bind.
  assert (Hlines : forall w', I (session_state w') ->
    wp (show_current_status repr ;; progress_tracking ;; session_info repr)
       (fun _ w'' => I (session_state w''))
       (fun _ w'' => J (session_state w'')) w').
  { intros w' Hw'.
    eapply wp_mono; [| |apply (wp_sidebar_lines I w' Hw')]; cbv beta.
    - intros _ w'' H. exact H.
    - intros _ w'' H. exact (I_J _ H). }
  unfold test_connection.
  wp_case; [|apply wp_ret; cbv beta; apply Hlines; exact Hinv].
  apply wp_bind, wp_probe_at. intros result n tail Hprobed _.
  apply wp_bind, wp_ss_set. cbv beta.
  assert (Hset : I (<["backend_status" := status_dict (fst result) (snd result)]>
                      (session_state w)))
    by exact (I_status _ _ _ _ Hprobed Hinv).
  wp_case; apply wp_emit; cbv beta; apply Hlines; exact Hset.
Qed.

Lemma keeps_workflow i : keeps I J (workflow url net display repr i).
Proof.
  unfold workflow.
  apply keeps_bind; [apply keeps_upload_section|intros _].
  apply keeps_bind; [apply keeps_identify_section|intros _].
  apply keeps_bind; [apply keeps_match_section|intros _].
  apply keeps_bind; [apply keeps_download_section|intros _].
  apply keeps_bind; [apply keeps_reset_section|intros _].
  apply keeps_sidebar.
Qed.

Lemma keeps_script i : keeps I J (script url net display repr i).
Proof.
  change (script url net display repr i)
    with (initialize_session_state ;;
          backend_status_check url net repr ;;
          workflow url net display repr i).
  apply keeps_bind; [apply keeps_initialize|intros _].
  apply keeps_bind; [apply keeps_backend_status_check|intros _].
  apply keeps_workflow.
Qed.

(** A run started where [I] holds ends where [J] does. *)
Lemma script_ends i w :
  I (session_state w) ->
  J (session_state (snd (script url net display repr i w))).
Proof.
  intros Hinv. pose proof (keeps_script i w Hinv) as H. unfold wp in H.
  destruct (script url net display repr i w) as [[[]|e] w'];
    [exact (I_J _ H)|exact H].
Qed.

End Preservation.

(** *** The stage invariant is closed under the writes of the script *)

Section StageInvariant.

Variable url : string.
Variable net : nat -> net_outcome.
Variable display : string -> pyval -> option pyexn.
Variable repr : pyval -> string.

Lemma script_invariant i w :
  stage_invariant (session_state w) ->
  stage_invariant (session_state (snd (script url net display repr i w))).
Proof.
  apply (script_ends url net display repr stage_invariant stage_invariant).
  - exact (fun _ H => H).
  - exact stage_invariant_empty.
  - exact stage_invariant_default.
  - intros s k status k' _. apply stage_invariant_other; done.
  - exact stage_invariant_uploaded.
  - exact stage_invariant_upload_result.
  - exact stage_invariant_stage_done.
Qed.

Lemma interaction_invariant i w :
  stage_invariant (session_state w) ->
  stage_invariant (session_state (interaction url net display repr i w)).
Proof.
  intros Hinv. unfold interaction.
  pose proof (script_invariant i w Hinv) as H.
  destruct (script url net display repr i w) as [[[]|e] w']; simpl in H;
    [exact H|].
  destruct e; try exact H. apply script_invariant. exact H.
Qed.

Lemma reachable_invariant w :
  reachable url net display repr w -> stage_invariant (session_state w).
Proof.
  induction 1 as [w Hnew|w i _ IH].
  - rewrite Hnew. apply stage_invariant_empty.
  - apply interaction_invariant. exact IH.
Qed.

End StageInvariant.

(** *** The settled session state *)

Lemma set_defaults_fill states w :
  set_defaults states w
  = (Ok tt, with_session w (fill_defaults states (session_state w))).
Proof.
  revert w. induction states as [|[key v] rest IH]; intros w; simpl.
  - destruct w; reflexivity.
  - unfold bind. destruct (session_state w !! key) eqn:Hk.
    + unfold ret. rewrite IH. reflexivity.
    + unfold ss_set. rewrite IH. reflexivity.
Qed.

Lemma dict_get_Some_In d key v : dict_get d key = Some v -> In (key, v) d.
Proof.
  induction d as [|[k x] d IH]; [discriminate|].
  simpl. destruct (String.eqb_spec k key) as [->|_].
  - intros [= ->]. left. reflexivity.
  - intros H. right. exact (IH H).
Qed.

Lemma fill_defaults_lookup states (s : gmap string pyval) key :
  fill_defaults states s !! key
  = match s !! key with
    | Some v => Some v
    | None => dict_get states key
    end.
Proof.
  revert s. induction states as [|[k v] rest IH]; intros s.
  - simpl. destruct (s !! key); reflexivity.
  - cbn [fill_defaults fold_left fst snd dict_get].
    change (fold_left _ rest ?x) with (fill_defaults rest x). rewrite IH.
    destruct (String.eqb_spec k key) as [->|Hne].
    + destruct (s !! key) eqn:Hs; [rewrite Hs; reflexivity|].
      rewrite lookup_insert_eq. reflexivity.
    + destruct (s !! k); [reflexivity|].
      rewrite lookup_insert_ne by exact Hne. reflexivity.
Qed.

Lemma fill_defaults_initialised (s : gmap string pyval) :
  initialised s -> fill_defaults default_states s = s.
Proof.
  intros Hinit. apply map_eq. intros key. rewrite fill_defaults_lookup.
  destruct (s !! key) eqn:Hs; [reflexivity|].
  destruct (dict_get default_states key) as [v|] eqn:Hd; [|reflexivity].
  apply dict_get_Some_In in Hd. destruct (Hinit key v Hd) as [x Hx].
  congruence.
Qed.

Lemma fill_defaults_new : fill_defaults default_states ∅ = default_session.
Proof.
  apply map_eq. intros key. rewrite fill_defaults_lookup, lookup_empty.
  unfold default_session.
  destruct (dict_get default_states key) as [v|] eqn:Hd.
  - symmetry. apply elem_of_list_to_map_1.
    + apply (bool_decide_unpack _). vm_compute. exact I.
    + apply list_elem_of_In, dict_get_Some_In. exact Hd.
  - symmetry. apply not_elem_of_list_to_map_1. intros Hin.
    apply list_elem_of_In in Hin. simpl in Hin.
    simpl in Hd. repeat (destruct Hin as [<-|Hin]; [discriminate Hd|]).
    destruct Hin.
Qed.

Lemma initialised_insert (s : gmap string pyval) key v :
  initialised s -> initialised (<[key := v]> s).
Proof.
  intros Hinit k x Hin. rewrite lookup_insert. case_decide; [eauto|].
  exact (Hinit k x Hin).
Qed.

Lemma settled_insert (s : gmap string pyval) key v :
  key <> "backend_status" -> settled s -> settled (<[key := v]> s).
Proof.
  intros Hne [Hinit (c & m & Hbs)]. split; [apply initialised_insert, Hinit|].
  exists c, m. rewrite lookup_insert_ne by exact Hne. exact Hbs.
Qed.

Lemma settled_status (s : gmap string pyval) is_connected status :
  initialised s ->
  settled (<["backend_status" := status_dict is_connected status]> s).
Proof.
  intros Hinit. split; [apply initialised_insert, Hinit|].
  exists is_connected, status. apply lookup_insert_eq.
Qed.

Lemma initialised_default_session : initialised default_session.
Proof.
  intros key v Hin. exists v. apply elem_of_list_to_map_1.
  - apply (bool_decide_unpack _). vm_compute. exact I.
  - apply list_elem_of_In. exact Hin.
Qed.

Lemma empty_session_settled s : empty_session s -> settled s.
Proof.
  intros (c & m & ->). apply settled_status, initialised_default_session.
Qed.

Section Settled.

Variable url : string.
Variable net : nat -> net_outcome.
Variable display : string -> pyval -> option pyexn.
Variable repr : pyval -> string.

Lemma wp_initialize (Q : unit -> world -> Prop) E w :
  Q tt (with_session w (fill_defaults default_states (session_state w))) ->
  wp initialize_session_state Q E w.
Proof.
  intros HQ. unfold wp, initialize_session_state.
  rewrite set_defaults_fill. exact HQ.
Qed.

(** The status check of a first run: the probe runs and its result is
    stored. *)
Lemma wp_status_check_unknown (Q : unit -> world -> Prop) E w :
  session_state w !! "backend_status" = Some PNone ->
  (forall w' status,
     probed url net (sent w) status (sent w') -> (sent w < sent w')%nat ->
     session_state w' = <["backend_status" := status]> (session_state w) ->
     Q tt w') ->
  wp (backend_status_check url net repr) Q E w.
Proof.
  intros Hbs HQ. unfold backend_status_check. wp_steps. rewrite Hbs.
  apply wp_bind. cbv iota. apply wp_bind, wp_probe_at.
  intros result n tail Hprobed Hn.
  apply wp_ss_set. cbv beta. wp_steps.
  cbn [session_state advance with_session]. rewrite lookup_insert_eq.
  wp_steps. cbn [py_item status_dict dict_get String.eqb Ascii.eqb Bool.eqb].
  wp_steps.
  destruct (truthy (PBool (fst result))); wp_steps;
    (apply (HQ _ (status_dict (fst result) (snd result)));
     [exact Hprobed|simpl; lia|reflexivity]).
Qed.

(** The status check of a later run only shows the stored status. *)
Lemma quiet_status_check w :
  status_known (session_state w) -> quiet (backend_status_check url net repr) w.
Proof.
  intros (c & m & Hbs). unfold quiet, backend_status_check.
  wp_steps. rewrite Hbs. apply wp_bind. unfold status_dict at 1.
  wp_steps. cbn [session_state advance with_session]. rewrite Hbs.
  wp_steps. cbn [py_item status_dict dict_get String.eqb Ascii.eqb Bool.eqb].
  wp_steps. destruct (truthy (PBool c)); wp_steps; split; reflexivity.
Qed.

Lemma settled_not_default (s : gmap string pyval) key v :
  In (key, v) default_states -> s !! key = None -> settled s -> False.
Proof.
  intros Hin Hnone [Hinit _]. destruct (Hinit key v Hin) as [x Hx]. congruence.
Qed.

(** A run that starts in a settled session state ends in one, unless it
    ends in the state a reset has cleared. *)
Lemma script_settled i w :
  settled (session_state w) ->
  new_or_settled (session_state (snd (script url net display repr i w))).
Proof.
  apply (script_ends url net display repr settled new_or_settled).
  - intros s Hs. right. exact Hs.
  - left. reflexivity.
  - intros s key v Hin Hnone Hs. destruct (settled_not_default s key v Hin Hnone Hs).
  - intros s k status k' (result & w' & _ & -> & _) [Hinit _].
    apply settled_status. exact Hinit.
  - intros s result success session_id Hs _ _ _ _.
    repeat apply settled_insert; done.
  - intros s result Hs _. apply settled_insert; done.
  - intros s result_key flag_key result Hkeys Hs _.
    destruct Hkeys as [ [-> ->] | [-> ->] ]; repeat apply settled_insert; done.
Qed.

(** The run of a new session initialises the state, probes the backend
    and goes on as from a settled state. *)
Lemma script_new i w :
  session_state w = ∅ ->
  new_or_settled (session_state (snd (script url net display repr i w))).
Proof.
  intros Hnew.
  assert (Hwp : wp (script url net display repr i)
                  (fun _ w' => settled (session_state w'))
                  (fun _ w' => new_or_settled (session_state w')) w).
  { change (script url net display repr i)
      with (initialize_session_state ;;
            backend_status_check url net repr ;;
            workflow url net display repr i).
    apply wp_bind, wp_initialize. cbv beta.
    apply wp_bind, wp_status_check_unknown.
    - cbn [session_state with_session]. rewrite Hnew, fill_defaults_new.
      reflexivity.
    - intros w' status (probe_result & wr & _ & -> & _) _ Hw'.
      cbn [session_state with_session] in Hw'.
      rewrite Hnew, fill_defaults_new in Hw'.
      apply (keeps_workflow url net display repr settled new_or_settled).
      + intros s Hs. right. exact Hs.
      + left. reflexivity.
      + intros s k status k' (result' & w'' & _ & -> & _) [Hinit _].
        apply settled_status. exact Hinit.
      + intros s result success session_id Hs _ _ _ _.
        repeat apply settled_insert; done.
      + intros s result Hs _. apply settled_insert; done.
      + intros s result_key flag_key result Hkeys Hs _.
        destruct Hkeys as [ [-> ->] | [-> ->] ];
          repeat apply settled_insert; done.
      + rewrite Hw'. apply settled_status, initialised_default_session. }
  unfold wp in Hwp.
  destruct (script url net display repr i w) as [[[]|e] w'];
    [right; exact Hwp|exact Hwp].
Qed.

Lemma script_new_or_settled i w :
  new_or_settled (session_state w) ->
  new_or_settled (session_state (snd (script url net display repr i w))).
Proof. intros [Hnew|Hs]; [apply script_new|apply script_settled]; assumption. Qed.

Lemma interaction_new_or_settled i w :
  new_or_settled (session_state w) ->
  new_or_settled (session_state (interaction url net display repr i w)).
Proof.
  intros Hw. unfold interaction.
  pose proof (script_new_or_settled i w Hw) as H.
  destruct (script url net display repr i w) as [[[]|e] w']; simpl in H;
    [exact H|].
  destruct e; try exact H. apply script_new_or_settled. exact H.
Qed.

Lemma reachable_new_or_settled w :
  reachable url net display repr w -> new_or_settled (session_state w).
Proof.
  induction 1 as [w Hnew|w i _ IH].
  - left. exact Hnew.
  - apply interaction_new_or_settled. exact IH.
Qed.

End Settled.

(** *** Runs in which no handler is called *)

Lemma wp_quiet_bind {A} (c : M unit) (k : M A) Q E w :
  quiet c w -> (forall w', same_store w w' -> wp k Q E w') ->
  wp (c ;; k) Q E w.
Proof.
  intros Hc Hk. apply wp_bind.
  eapply wp_mono; [| |exact Hc]; cbv beta.
  - intros _ w' Hw'. apply Hk. exact Hw'.
  - intros _ _ [].
Qed.

Lemma wp_returns_with (c : M unit) (P : world -> Prop) w :
  wp c (fun _ w' => P w') (fun _ _ => False) w ->
  exists w', c w = (Ok tt, w') /\ P w'.
Proof.
  unfold wp. destruct (c w) as [[[]|e] w']; [|contradiction].
  intros H. exists w'. split; [reflexivity|exact H].
Qed.

Lemma wp_reruns_with (c : M unit) (P : world -> Prop) w :
  wp c (fun _ _ => False) (fun e w' => e = RerunException /\ P w') w ->
  exists w', c w = (Raise RerunException, w') /\ P w'.
Proof.
  unfold wp. destruct (c w) as [[[]|e] w']; [contradiction|].
  intros [-> H]. exists w'. split; [reflexivity|exact H].
Qed.

Lemma same_store_refl w : same_store w w.
Proof. split; reflexivity. Qed.

Lemma same_store_trans w1 w2 w3 :
  same_store w1 w2 -> same_store w2 w3 -> same_store w1 w3.
Proof. intros [H1 H2] [H3 H4]. split; congruence. Qed.

Lemma st_button_idle i b disabled :
  idle i -> b <> ResetButton -> st_button i b disabled = false.
Proof.
  intros [Hi|Hi] Hb; unfold st_button; rewrite Hi; [reflexivity|].
  destruct b; try reflexivity. contradiction.
Qed.

Section Quiet.

Variable url : string.
Variable net : nat -> net_outcome.
Variable display : string -> pyval -> option pyexn.
Variable repr : pyval -> string.

Lemma quiet_initialize w :
  initialised (session_state w) -> quiet initialize_session_state w.
Proof.
  intros Hinit. apply wp_initialize. split; [|reflexivity].
  cbn [session_state with_session]. apply fill_defaults_initialised, Hinit.
Qed.

(** With the status stored, the test of a button's [disabled] returns. *)
Lemma wp_disabled_by_known key (Q : bool -> world -> Prop) E w :
  status_known (session_state w) -> (forall b, Q b w) ->
  wp (disabled_by key) Q E w.
Proof.
  intros (c & m & Hbs) HQ. unfold disabled_by. wp_steps.
  wp_case; wp_steps; [apply HQ|].
  unfold not_connected. wp_steps. rewrite Hbs. wp_steps.
  cbn [py_item status_dict dict_get String.eqb Ascii.eqb Bool.eqb].
  wp_steps. apply HQ.
Qed.

Lemma quiet_upload_section i w :
  idle i -> status_known (session_state w) ->
  quiet (upload_section url net display repr i) w.
Proof.
  intros Hi Hbs. unfold quiet, upload_section.
  apply wp_bind, wp_disabled_by_known; [exact Hbs|]. intros b.
  rewrite (st_button_idle i UploadButton b Hi) by discriminate.
  apply same_store_refl.
Qed.

Lemma quiet_identify_section i w :
  idle i -> status_known (session_state w) ->
  quiet (identify_section url net display repr i) w.
Proof.
  intros Hi Hbs. unfold quiet, identify_section. wp_steps.
  wp_case; [|apply same_store_refl].
  apply wp_bind, wp_disabled_by_known; [exact Hbs|]. intros b.
  rewrite (st_button_idle i IdentifyButton b Hi) by discriminate.
  apply same_store_refl.
Qed.

Lemma quiet_match_section i w :
  idle i -> status_known (session_state w) ->
  quiet (match_section url net display repr i) w.
Proof.
  intros Hi Hbs. unfold quiet, match_section. wp_steps.
  wp_case; [|apply same_store_refl].
  apply wp_bind, wp_disabled_by_known; [exact Hbs|]. intros b.
  rewrite (st_button_idle i MatchButton b Hi) by discriminate.
  apply same_store_refl.
Qed.

Lemma quiet_download_section i w : idle i -> quiet (download_section i) w.
Proof.
  intros Hi. unfold quiet, download_section. wp_steps.
  wp_case; [|apply same_store_refl].
  rewrite (st_button_idle i DownloadMatchedButton false Hi) by discriminate.
  rewrite (st_button_idle i DownloadReportButton false Hi) by discriminate.
  wp_steps. apply same_store_refl.
Qed.

(** With no click on the connection test, a status stored and no
    session id to show, the sidebar only shows its lines. *)
Lemma quiet_sidebar i w :
  idle i -> status_known (session_state w) ->
  truthy (stored (session_state w) "session_id") = false ->
  quiet (sidebar url net repr i) w.
Proof.
  intros Hi (c & m & Hbs) Hsid. unfold quiet, sidebar, test_connection.
  rewrite (st_button_idle i TestConnectionButton false Hi) by discriminate.
  unfold show_current_status, progress_tracking, session_info.
  wp_steps. rewrite Hbs. unfold status_dict at 1. simpl (truthy _).
  wp_steps. cbn [py_item status_dict dict_get String.eqb Ascii.eqb Bool.eqb].
  wp_steps. cbn [session_state advance with_session]. rewrite Hbs.
  wp_steps. cbn [py_item status_dict dict_get String.eqb Ascii.eqb Bool.eqb].
  wp_steps. cbn [session_state advance with_session].
  unfold stored in Hsid. rewrite Hsid. wp_steps. split; reflexivity.
Qed.

Lemma quiet_reset_section i w :
  clicked i = None \/ reset_offered (session_state w) = false ->
  quiet (reset_section i) w.
Proof.
  intros H. apply wp_reset_section; [apply same_store_refl|].
  intros Hclick Hoffered. destruct H as [H|H].
  - rewrite H in Hclick. discriminate Hclick.
  - unfold reset_offered in H. rewrite H in Hoffered. discriminate Hoffered.
Qed.

(** The sections from the first to the downloads, when no handler runs. *)
Lemma wp_until_reset i (k : M unit) Q E w :
  idle i -> settled (session_state w) ->
  (forall w', same_store w w' -> wp k Q E w') ->
  wp (initialize_session_state ;;
      backend_status_check url net repr ;;
      upload_section url net display repr i ;;
      identify_section url net display repr i ;;
      match_section url net display repr i ;;
      download_section i ;; k) Q E w.
Proof.
  intros Hi [Hinit Hbs] Hk.
  assert (Hknown : forall w', same_store w w' -> status_known (session_state w')).
  { intros w' [Hs _]. rewrite Hs. exact Hbs. }
  apply wp_quiet_bind; [apply quiet_initialize, Hinit|]. intros w1 H1.
  apply wp_quiet_bind; [apply quiet_status_check, Hknown, H1|]. intros w2 H2.
  pose proof (same_store_trans _ _ _ H1 H2) as H12.
  apply wp_quiet_bind; [apply quiet_upload_section; auto|]. intros w3 H3.
  pose proof (same_store_trans _ _ _ H12 H3) as H13.
  apply wp_quiet_bind; [apply quiet_identify_section; auto|]. intros w4 H4.
  pose proof (same_store_trans _ _ _ H13 H4) as H14.
  apply wp_quiet_bind; [apply quiet_match_section; auto|]. intros w5 H5.
  pose proof (same_store_trans _ _ _ H14 H5) as H15.
  apply wp_quiet_bind; [apply quiet_download_section; auto|]. intros w6 H6.
  apply Hk. exact (same_store_trans _ _ _ H15 H6).
Qed.

Lemma reset_section_pressed i w :
  clicked i = Some ResetButton -> reset_offered (session_state w) = true ->
  reset_section i w = (Raise RerunException, with_session w ∅).
Proof.
  intros Hclick Hoffered.
  unfold reset_section, bind, ss_get, ss_clear, raise, ret.
  fold (stored (session_state w) "files_uploaded").
  fold (stored (session_state w) "columns_identified").
  fold (stored (session_state w) "matching_completed").
  fold (flag (session_state w) "files_uploaded").
  fold (flag (session_state w) "columns_identified").
  fold (flag (session_state w) "matching_completed").
  fold (reset_offered (session_state w)). rewrite Hoffered.
  unfold st_button. rewrite Hclick. reflexivity.
Qed.

(** A click on reset where it is offered: the run clears the session
    state and asks for a rerun. *)
Lemma script_reset_offered i w :
  clicked i = Some ResetButton -> settled (session_state w) ->
  reset_offered (session_state w) = true ->
  exists w', script url net display repr i w = (Raise RerunException, w')
    /\ session_state w' = ∅ /\ sent w' = sent w.
Proof.
  intros Hclick Hs Hoffered.
  apply (wp_reruns_with _
           (fun w' => session_state w' = ∅ /\ sent w' = sent w)).
  unfold script.
  apply wp_until_reset; [right; exact Hclick|exact Hs|].
  intros w' [Hw' Hsent]. apply wp_bind. unfold wp at 1.
  rewrite reset_section_pressed by (rewrite ?Hw'; assumption).
  split; [reflexivity|]. split; [reflexivity|exact Hsent].
Qed.

(** A click on reset where it is not offered, or no click: the run leaves
    the session state as it is. *)
Lemma script_nothing_to_do i w :
  idle i -> settled (session_state w) ->
  truthy (stored (session_state w) "session_id") = false ->
  clicked i = None \/ reset_offered (session_state w) = false ->
  exists w', script url net display repr i w = (Ok tt, w')
    /\ same_store w w'.
Proof.
  intros Hi Hs Hsid Hnot. apply wp_returns_with. unfold script.
  apply wp_until_reset; [exact Hi|exact Hs|].
  intros w' Hw'.
  apply wp_quiet_bind.
  - apply quiet_reset_section. destruct Hnot as [H|H]; [left; exact H|].
    right. destruct Hw' as [-> _]. exact H.
  - intros w'' Hw''.
    pose proof (same_store_trans _ _ _ Hw' Hw'') as Hw.
    assert (Hq : quiet (sidebar url net repr i) w'').
    { destruct Hw as [Hstate _].
      apply quiet_sidebar; [exact Hi| |]; rewrite Hstate;
        [exact (proj2 Hs)|exact Hsid]. }
    eapply wp_mono; [| |exact Hq]; cbv beta.
    + intros _ w3 H3. exact (same_store_trans _ _ _ Hw H3).
    + intros _ _ [].
Qed.

(** The rerun after a reset: the session state is initialised anew and
    the backend probed again; nothing else is sent and nothing else is
    written. *)
Lemma script_after_reset_probed i w :
  clicked i = None -> session_state w = ∅ ->
  exists w', script url net display repr i w = (Ok tt, w')
    /\ exists status,
         probed url net (sent w) status (sent w') /\ (sent w < sent w')%nat
         /\ session_state w' = <["backend_status" := status]> default_session.
Proof.
  intros Hclick Hnew. apply wp_returns_with.
  unfold script. apply wp_bind, wp_initialize. cbv beta.
  apply wp_bind, wp_status_check_unknown.
  - cbn [session_state with_session]. rewrite Hnew, fill_defaults_new.
    reflexivity.
  - intros w1 status Hprobed Hlt Hw1.
    cbn [session_state sent with_session] in Hw1, Hprobed, Hlt.
    rewrite Hnew, fill_defaults_new in Hw1.
    assert (Hempty : empty_session (session_state w1)).
    { destruct Hprobed as (result & wr & _ & -> & _).
      exists (fst result), (snd result). exact Hw1. }
    assert (Hknown : forall w', same_store w1 w' ->
              status_known (session_state w')).
    { intros w' [Hs _]. rewrite Hs. apply empty_session_settled, Hempty. }
    assert (Hnone : forall w', same_store w1 w' ->
              truthy (stored (session_state w') "session_id") = false).
    { intros w' [Hs _]. rewrite Hs, Hw1. unfold stored.
      rewrite lookup_insert_ne by done. reflexivity. }
    assert (Hi : idle i) by (left; exact Hclick).
    apply wp_quiet_bind;
      [apply quiet_upload_section; [exact Hi|apply Hknown, same_store_refl]|].
    intros w2 H2.
    apply wp_quiet_bind; [apply quiet_identify_section; auto|].
    intros w3 H3. pose proof (same_store_trans _ _ _ H2 H3) as H13.
    apply wp_quiet_bind; [apply quiet_match_section; auto|].
    intros w4 H4. pose proof (same_store_trans _ _ _ H13 H4) as H14.
    apply wp_quiet_bind; [apply quiet_download_section; auto|].
    intros w5 H5. pose proof (same_store_trans _ _ _ H14 H5) as H15.
    apply wp_quiet_bind; [apply quiet_reset_section; left; exact Hclick|].
    intros w6 H6. pose proof (same_store_trans _ _ _ H15 H6) as H16.
    eapply wp_mono; [| |apply (quiet_sidebar i w6 Hi); auto]; cbv beta.
    + intros _ w7 H7.
      destruct (same_store_trans _ _ _ H16 H7) as [Hstate Hsent].
      exists status. rewrite Hstate, Hsent. auto.
    + intros _ _ [].
Qed.


End Quiet.


Lemma session_run_reachable net clicks :
  reachable "https://backend" net quiet_display plain_repr
    (session_run net clicks).
Proof.
  unfold session_run.
  assert (H : reachable "https://backend" net quiet_display plain_repr
                fresh_world) by (apply reachable_new; reflexivity).
  revert H. generalize fresh_world.
  induction clicks as [|b clicks IH]; intros w Hw; [exact Hw|].
  simpl. apply IH. apply reachable_step. exact Hw.
Qed.


(** ** The exporter *)

Section Exporter.

Lemma dict_set_fresh d key v :
  ~ In key (map fst d) -> dict_set d key v = (d ++ [(key, v)])%list.
Proof.
  induction d as [|[k x] d IH]; intros Hfresh; [reflexivity|].
  simpl in *. destruct (String.eqb_spec k key) as [->|_].
  - exfalso. apply Hfresh. left. reflexivity.
  - rewrite IH by (intros H; apply Hfresh; right; exact H). reflexivity.
Qed.

Lemma prefixed_keys prefix items key :
  In key (map fst (prefixed prefix items)) ->
  exists k, key = prefix ++ k /\ In k (map fst items).
Proof.
  unfold prefixed. rewrite map_map. simpl. rewrite in_map_iff.
  intros ([k v] & <- & Hin). exists k. split; [reflexivity|].
  apply in_map_iff. exists (k, v). split; [reflexivity|exact Hin].
Qed.

Lemma append_inj_l (prefix a b : string) :
  prefix ++ a = prefix ++ b -> a = b.
Proof.
  induction prefix as [|c prefix IH]; simpl; [exact (fun H => H)|].
  intros H. injection H as H. apply IH. exact H.
Qed.

(** The loop over the items of an entry appends them, prefixed, when no
    prefixed key is in the row yet. *)
Lemma add_prefixed_fresh prefix items row :
  NoDup (map fst items) ->
  (forall k, In k (map fst items) -> ~ In (prefix ++ k) (map fst row)) ->
  add_prefixed prefix items row = (row ++ prefixed prefix items)%list.
Proof.
  unfold add_prefixed. revert row.
  induction items as [|[k v] items IH]; intros row Hnodup Hfresh; simpl.
  - rewrite app_nil_r. reflexivity.
  - simpl in Hnodup. apply NoDup_cons in Hnodup as [Hk Hrest].
    rewrite dict_set_fresh by (apply Hfresh; left; reflexivity).
    rewrite IH; [rewrite <- app_assoc; reflexivity|exact Hrest|].
    intros k' Hk' Hin. rewrite map_app in Hin. apply in_app_or in Hin.
    destruct Hin as [Hin|Hin].
    + apply (Hfresh k'); [right; exact Hk'|exact Hin].
    + simpl in Hin. destruct Hin as [Heq|[]].
      apply append_inj_l in Heq. subst k'.
      apply Hk, list_elem_of_In. exact Hk'.
Qed.

(** A key that starts with none of the prefixes in use is in no row. *)
Ltac absent_key :=
  let Hin := fresh "Hin" in
  rewrite ?map_app; intros Hin;
  repeat (apply in_app_or in Hin as [Hin|Hin]);
  first [ apply prefixed_keys in Hin as (? & ? & _); discriminate
        | simpl in Hin; destruct Hin as [?|[]]; discriminate ].

Lemma matched_row_flat m rec :
  holds_record m rec -> matched_row m = Ok (flat_row rec).
Proof.
  intros (Ha & Hb & Hc & Hr & Hna & Hnb). unfold matched_row, flat_row.
  rewrite Ha, Hb, Hc, Hr. cbn [rbind py_items].
  rewrite (add_prefixed_fresh "Bank_" _ []) by (exact Hna || (intros k _ [])).
  cbn [app].
  rewrite (add_prefixed_fresh "Invoice_");
    [|exact Hnb|intros k _; absent_key].
  rewrite (dict_set_fresh _ "Confidence_Score") by absent_key.
  rewrite (dict_set_fresh _ "Match_Reason") by absent_key.
  rewrite <- !app_assoc. reflexivity.
Qed.

Lemma matched_rows_flat matches recs :
  Forall2 holds_record matches recs ->
  matched_rows matches = Ok (map flat_row recs).
Proof.
  induction 1 as [|m rec matches recs Hm _ IH]; [reflexivity|].
  simpl. rewrite (matched_row_flat m rec Hm). cbn [rbind].
  rewrite IH. reflexivity.
Qed.

Lemma dict_get_app d1 d2 key :
  dict_get (d1 ++ d2) key
  = match dict_get d1 key with
    | Some v => Some v
    | None => dict_get d2 key
    end.
Proof.
  induction d1 as [|[k x] d1 IH]; [reflexivity|].
  simpl. destruct (String.eqb k key); [reflexivity|exact IH].
Qed.

Lemma dict_get_absent d key : ~ In key (map fst d) -> dict_get d key = None.
Proof.
  induction d as [|[k x] d IH]; intros Hfresh; [reflexivity|].
  simpl in *. destruct (String.eqb_spec k key) as [->|_].
  - exfalso. apply Hfresh. left. reflexivity.
  - apply IH. intros H. apply Hfresh. right. exact H.
Qed.

Lemma dict_get_In d key v :
  NoDup (map fst d) -> In (key, v) d -> dict_get d key = Some v.
Proof.
  induction d as [|[k x] d IH]; intros Hnodup Hin; [destruct Hin|].
  simpl in Hnodup. apply NoDup_cons in Hnodup as [Hk Hrest].
  simpl. destruct Hin as [Heq|Hin].
  - injection Heq as -> ->. rewrite String.eqb_refl. reflexivity.
  - destruct (String.eqb_spec k key) as [->|_]; [|exact (IH Hrest Hin)].
    exfalso. apply Hk, list_elem_of_In, in_map_iff.
    exists (key, v). split; [reflexivity|exact Hin].
Qed.

Lemma eqb_append_l (prefix a b : string) :
  String.eqb (prefix ++ a) (prefix ++ b) = String.eqb a b.
Proof.
  induction prefix as [|c prefix IH]; [reflexivity|].
  simpl. rewrite Ascii.eqb_refl. exact IH.
Qed.

Lemma dict_get_prefixed prefix items key :
  dict_get (prefixed prefix items) (prefix ++ key) = dict_get items key.
Proof.
  induction items as [|[k x] items IH]; [reflexivity|].
  simpl. rewrite eqb_append_l, IH. reflexivity.
Qed.

(** What a flat row holds. *)
Lemma flat_row_fields rec :
  NoDup (map fst (file_a_entry rec)) -> NoDup (map fst (file_b_entry rec)) ->
  (forall k v, In (k, v) (file_a_entry rec) ->
     dict_get (flat_row rec) ("Bank_" ++ k) = Some v)
  /\ (forall k v, In (k, v) (file_b_entry rec) ->
     dict_get (flat_row rec) ("Invoice_" ++ k) = Some v)
  /\ dict_get (flat_row rec) "Confidence_Score" = Some (confidence_score rec)
  /\ dict_get (flat_row rec) "Match_Reason" = Some (match_reason rec).
Proof.
  intros Hna Hnb. unfold flat_row. repeat split.
  - intros k v Hin. rewrite dict_get_app, dict_get_prefixed.
    rewrite (dict_get_In _ _ _ Hna Hin). reflexivity.
  - intros k v Hin. rewrite dict_get_app.
    rewrite (dict_get_absent (prefixed "Bank_" _)) by absent_key.
    rewrite dict_get_app, dict_get_prefixed.
    rewrite (dict_get_In _ _ _ Hnb Hin). reflexivity.
  - rewrite dict_get_app.
    rewrite (dict_get_absent (prefixed "Bank_" _)) by absent_key.
    rewrite dict_get_app.
    rewrite (dict_get_absent (prefixed "Invoice_" _)) by absent_key.
    reflexivity.
  - rewrite dict_get_app.
    rewrite (dict_get_absent (prefixed "Bank_" _)) by absent_key.
    rewrite dict_get_app.
    rewrite (dict_get_absent (prefixed "Invoice_" _)) by absent_key.
    reflexivity.
Qed.

End Exporter.

Lemma wp_returns {A} (c : M A) (x : A) (w wx : world) :
  wp c (fun a w' => a = x /\ w' = wx) (fun _ _ => False) w ->
  c w = (Ok x, wx).
Proof.
  unfold wp. destruct (c w) as [[a|e] w']; [|contradiction].
  intros [-> ->]. reflexivity.
Qed.

(** C8. For a matching result whose matches are match records, the loop of
    the download handler builds exactly one row per record, in the order
    of the matches: the row of a record holds each bank field under
    [Bank_] followed by its key, each invoice field under [Invoice_]
    followed by its key, the score under [Confidence_Score] and the
    reason under [Match_Reason]. When there is at least one match, the
    handler offers these rows for download. *)
Theorem matched_rows_one_per_record
  (matches : list pyval) (recs : list MatchRecord) :
  Forall2 holds_record matches recs ->
  matched_data (PList matches) = Ok (map flat_row recs)
  /\ length (map flat_row recs) = length matches
  /\ (forall i rec, recs !! i = Some rec ->
        map flat_row recs !! i = Some (flat_row rec)
        /\ (forall k v, In (k, v) (file_a_entry rec) ->
              dict_get (flat_row rec) ("Bank_" ++ k) = Some v)
        /\ (forall k v, In (k, v) (file_b_entry rec) ->
              dict_get (flat_row rec) ("Invoice_" ++ k) = Some v)
        /\ dict_get (flat_row rec) "Confidence_Score"
           = Some (confidence_score rec)
        /\ dict_get (flat_row rec) "Match_Reason" = Some (match_reason rec))
  /\ (forall w d,
        session_state w !! "matching_result" = Some (PDict d) ->
        dict_get d "matches" = Some (PList matches) -> matches <> [] ->
        download_matched_clicked w
        = (Ok tt, advance w 0 [DownloadCsv (map flat_row recs)])).
Proof.
  intros Hrecs.
  assert (Hrows : matched_data (PList matches) = Ok (map flat_row recs))
    by (exact (matched_rows_flat matches recs Hrecs)).
  split; [exact Hrows|]. split; [|split].
  - rewrite length_map. symmetry. exact (Forall2_length _ _ _ Hrecs).
  - intros i rec Hi. split; [rewrite list_lookup_fmap, Hi; reflexivity|].
    assert (Hrec : exists m, holds_record m rec).
    { destruct (Forall2_lookup_r _ _ _ _ _ Hrecs Hi) as (m & _ & Hm). eauto. }
    destruct Hrec as (m & _ & _ & _ & _ & Hna & Hnb).
    exact (flat_row_fields rec Hna Hnb).
  - intros w d Hstored Hmatches Hne.
    apply wp_returns. unfold download_matched_clicked.
    wp_steps. rewrite Hstored. wp_steps. cbn [py_get]. rewrite Hmatches.
    destruct matches as [|m rest]; [contradiction|].
    wp_steps. simpl (truthy _). wp_steps. rewrite ?Hstored. wp_steps.
    cbn [py_item]. rewrite Hmatches. wp_steps. rewrite Hrows. wp_steps.
    split; reflexivity.
Qed.

Lemma sample_record_held bank_ref invoice_ref score :
  holds_record (sample_match bank_ref invoice_ref score)
    (sample_record bank_ref invoice_ref score).
Proof.
  unfold holds_record. simpl.
  split; [reflexivity|]. split; [reflexivity|]. split; [reflexivity|].
  split; [reflexivity|].
  split; apply (bool_decide_unpack _); vm_compute; exact I.
Qed.

Lemma matched_rows_one_per_record_witness :
  matched_data (PList sample_matches) = Ok (map flat_row sample_records)
  /\ download_matched_clicked matched_world
     = (Ok tt, advance matched_world 0
                 [DownloadCsv (map flat_row sample_records)]).
Proof.
  assert (Hheld : Forall2 holds_record sample_matches sample_records).
  { constructor; [apply sample_record_held|].
    constructor; [apply sample_record_held|]. constructor. }
  destruct (matched_rows_one_per_record sample_matches sample_records Hheld)
    as (Hrows & _ & _ & Hclick).
  split; [exact Hrows|].
  apply (Hclick matched_world sample_matching_result);
    [reflexivity|reflexivity|discriminate].
Defined.

(** C9, as stated, fails twice in the session of a backend that follows
    the contract of the specification. The report has five top-level
    keys, not four. And its [column_info] is the empty dictionary, not
    the column info: the handler reads it from the matching result, where
    the answer to [/match] has none, while the column info the backend
    sent is stored with the column identification result. *)
Lemma full_report_not_as_claimed :
  let w := session_run contract_backend all_stages in
  exists identified d items,
    session_state w !! "column_identification_result" = Some (PDict identified)
    /\ dict_get identified "column_info" = Some sample_column_info
    /\ session_state w !! "matching_result" = Some (PDict d)
    /\ download_report_clicked w
       = (Ok tt, advance w 0 [DownloadJson (PDict items)])
    /\ map fst items = ["summary"; "matches"; "unmatched_bank";
                        "unmatched_invoices"; "column_info"]
    /\ length items <> 4%nat
    /\ dict_get items "column_info" = Some (PDict [])
    /\ PDict [] <> sample_column_info.
Proof.
  cbv zeta. eexists _, _, _.
  split; [vm_compute; reflexivity|]. split; [vm_compute; reflexivity|].
  split; [vm_compute; reflexivity|]. split; [vm_compute; reflexivity|].
  split; [reflexivity|]. split; [simpl; discriminate|].
  split; [reflexivity|discriminate].
Qed.

(** C9, as the code has it. The report built from a stored matching result
    has exactly five top-level keys, in this order: [summary], [matches],
    [unmatched_bank], [unmatched_invoices], [column_info]. The first four
    hold the value the result stores under [summary], [matches],
    [unmatched_file_a_entries] and [unmatched_file_b_entries], unchanged
    (the empty dictionary or list when the result has no such key); and
    the report button hands this report to the JSON writer. What
    [column_info] holds is not part of the statement. *)
Theorem full_report_five_keys (d : list (string * pyval)) :
  exists column_info items,
    items = [("summary", default (PDict []) (dict_get d "summary"));
             ("matches", default (PList []) (dict_get d "matches"));
             ("unmatched_bank",
              default (PList []) (dict_get d "unmatched_file_a_entries"));
             ("unmatched_invoices",
              default (PList []) (dict_get d "unmatched_file_b_entries"));
             ("column_info", column_info)]
    /\ report_data (PDict d) = Ok (PDict items)
    /\ map fst items = ["summary"; "matches"; "unmatched_bank";
                        "unmatched_invoices"; "column_info"]
    /\ length items = 5%nat
    /\ (forall w, session_state w !! "matching_result" = Some (PDict d) ->
          download_report_clicked w
          = (Ok tt, advance w 0 [DownloadJson (PDict items)])).
Proof.
  eexists _, _. split; [reflexivity|].
  assert (Hreport : report_data (PDict d) = Ok (full_report d)) by reflexivity.
  split; [exact Hreport|]. split; [reflexivity|]. split; [reflexivity|].
  intros w Hstored. apply wp_returns. unfold download_report_clicked.
  wp_steps. rewrite Hstored. wp_steps. rewrite Hreport. wp_steps.
  split; reflexivity.
Qed.

Lemma full_report_five_keys_witness :
  fst (download_report_clicked matched_world) = Ok tt
  /\ exists report,
       log (snd (download_report_clicked matched_world))
       = [DownloadJson report].
Proof.
  destruct (full_report_five_keys sample_matching_result)
    as (column_info & items & _ & _ & _ & _ & Hclick).
  rewrite (Hclick matched_world eq_refl).
  split; [reflexivity|]. exists (PDict items). reflexivity.
Defined.

(** ** Reset *)

Lemma reset_offered_empty_session s :
  empty_session s -> reset_offered s = false.
Proof.
  intros (c & m & ->). unfold reset_offered, flag, stored.
  rewrite !lookup_insert_ne by done. reflexivity.
Qed.

Lemma reset_offered_new : reset_offered ∅ = false.
Proof. reflexivity. Qed.

Lemma empty_session_no_session_id s :
  empty_session s -> truthy (stored s "session_id") = false.
Proof.
  intros (c & m & ->). unfold stored.
  rewrite lookup_insert_ne by done. reflexivity.
Qed.

(** While no stage flag is set, no session id is stored. *)
Lemma not_offered_no_session_id s :
  stage_invariant s -> reset_offered s = false ->
  truthy (stored s "session_id") = false.
Proof.
  intros (Hsid & _) Hnot. unfold reset_offered in Hnot.
  apply orb_false_elim in Hnot as [Hnot _].
  apply orb_false_elim in Hnot as [Hfu _].
  destruct (stored s "session_id"); try reflexivity;
    (destruct Hsid as [Hfu' _]; [discriminate|congruence]).
Qed.

(** C7, as the code has it. The reset button is offered where a stage flag
    is set. From every reachable world where it is offered, a click on it
    always succeeds and leaves the empty session: every workflow key at
    its default (stage flags false, session id and stored results [None])
    next to the status of the backend, probed again: the stored status is
    the result of the health probe that starts with the first request
    sent after the click, and the requests of that probe are the only
    ones the interaction sends. A second click right after changes
    nothing, so two resets in a row leave the session state that one
    leaves. From a reachable world where no stage flag is set (after its
    first run), the button is not offered and the session state stays as
    it is. *)
Theorem reset_clears_session
  (url : string) (net : nat -> net_outcome)
  (display : string -> pyval -> option pyexn) (repr : pyval -> string)
  (i : input) (w : world) :
  reachable url net display repr w ->
  clicked i = Some ResetButton ->
  (reset_offered (session_state w) = true ->
     empty_session (session_state (interaction url net display repr i w))
     /\ session_state
          (interaction url net display repr i
             (interaction url net display repr i w))
        = session_state (interaction url net display repr i w)
     /\ probed url net (sent w)
          (stored (session_state (interaction url net display repr i w))
                  "backend_status")
          (sent (interaction url net display repr i w))
     /\ (sent w < sent (interaction url net display repr i w))%nat)
  /\ (reset_offered (session_state w) = false ->
      session_state w <> ∅ ->
      session_state (interaction url net display repr i w) = session_state w).
Proof.
  intros Hreach Hclick.
  assert (Hidle : idle i) by (right; exact Hclick).
  assert (Hkeep : forall w0, settled (session_state w0) ->
            truthy (stored (session_state w0) "session_id") = false ->
            reset_offered (session_state w0) = false ->
            session_state (interaction url net display repr i w0)
            = session_state w0).
  { intros w0 Hs Hsid Hnot. unfold interaction.
    destruct (script_nothing_to_do url net display repr i w0 Hidle Hs Hsid)
      as (w' & -> & Hsame & _); [right; exact Hnot|exact Hsame]. }
  pose proof (reachable_new_or_settled url net display repr w Hreach) as Hw.
  split.
  - intros Hoffered.
    assert (Hs : settled (session_state w)).
    { destruct Hw as [Hnew|Hs]; [|exact Hs].
      rewrite Hnew, reset_offered_new in Hoffered. discriminate Hoffered. }
    assert (Hrun : exists w1 w',
              interaction url net display repr i w = w'
              /\ session_state w1 = ∅ /\ sent w1 = sent w
              /\ script url net display repr (no_click i) w1 = (Ok tt, w')).
    { unfold interaction.
      destruct (script_reset_offered url net display repr i w Hclick Hs Hoffered)
        as (w1 & -> & Hcleared & Hsent).
      destruct (script_after_reset_probed url net display repr (no_click i) w1
                  eq_refl Hcleared) as (w' & Hw' & _).
      exists w1, w'. rewrite Hw'. auto. }
    destruct Hrun as (w1 & w' & -> & Hcleared & Hsent & Hw').
    destruct (script_after_reset_probed url net display repr (no_click i) w1
                eq_refl Hcleared) as (w2 & Hw2 & status & Hprobed & Hlt & Hstate).
    rewrite Hw' in Hw2. injection Hw2 as <-.
    assert (Hempty : empty_session (session_state w')).
    { destruct Hprobed as (result & wr & _ & -> & _).
      exists (fst result), (snd result). exact Hstate. }
    split; [exact Hempty|]. split; [|split].
    + apply Hkeep;
        [apply empty_session_settled|apply empty_session_no_session_id
        |apply reset_offered_empty_session]; exact Hempty.
    + rewrite Hsent in Hprobed.
      replace (stored (session_state w') "backend_status") with status;
        [exact Hprobed|].
      rewrite Hstate. unfold stored. rewrite lookup_insert_eq. reflexivity.
    + rewrite <- Hsent. exact Hlt.
  - intros Hnot Hne.
    apply Hkeep; [|apply not_offered_no_session_id|exact Hnot].
    + destruct Hw as [Hnew|Hs]; [contradiction|exact Hs].
    + exact (reachable_invariant url net display repr w Hreach).
    + exact Hnot.
Qed.

Lemma reset_clears_session_witness :
  empty_session
    (session_state
       (interaction "https://backend" cooperative quiet_display plain_repr
          (two_files (Some ResetButton))
          (session_run cooperative [None; Some UploadButton])))
  /\ (sent (session_run cooperative [None; Some UploadButton])
      < sent (interaction "https://backend" cooperative quiet_display
                plain_repr (two_files (Some ResetButton))
                (session_run cooperative [None; Some UploadButton])))%nat
  /\ session_state
       (interaction "https://backend" cooperative quiet_display plain_repr
          (two_files (Some ResetButton)) (session_run cooperative [None]))
     = session_state (session_run cooperative [None]).
Proof.
  split; [|split].
  - apply (reset_clears_session "https://backend" cooperative quiet_display
             plain_repr (two_files (Some ResetButton))
             (session_run cooperative [None; Some UploadButton])).
    + apply session_run_reachable.
    + reflexivity.
    + vm_compute. reflexivity.
  - apply (reset_clears_session "https://backend" cooperative quiet_display
             plain_repr (two_files (Some ResetButton))
             (session_run cooperative [None; Some UploadButton])).
    + apply session_run_reachable.
    + reflexivity.
    + vm_compute. reflexivity.
  - apply (reset_clears_session "https://backend" cooperative quiet_display
             plain_repr (two_files (Some ResetButton))
             (session_run cooperative [None])).
    + apply session_run_reachable.
    + reflexivity.
    + vm_compute. reflexivity.
    + intros Hempty.
      assert (H : session_state (session_run cooperative [None])
                    !! "session_id" = Some PNone) by (vm_compute; reflexivity).
      rewrite Hempty, lookup_empty in H. discriminate H.
Defined.

(** C7, as stated, fails: after an upload that the backend accepts without
    sending a session id, the upload result is stored but no stage flag is
    set; reset is not offered, and a click on it leaves the stored result
    in place. *)
Lemma reset_not_offered_keeps_result :
  let w := session_run forgetful [None; Some UploadButton] in
  let w' := interaction "https://backend" forgetful quiet_display plain_repr
              (two_files (Some ResetButton)) w in
  reset_offered (session_state w) = false
  /\ session_state w' !! "upload_result"
     = Some (PDict [("success", PBool true)])
  /\ ~ empty_session (session_state w').
Proof.
  cbv zeta.
  assert (Hstored :
    session_state
      (interaction "https://backend" forgetful quiet_display plain_repr
         (two_files (Some ResetButton))
         (session_run forgetful [None; Some UploadButton]))
      !! "upload_result" = Some (PDict [("success", PBool true)]))
    by (vm_compute; reflexivity).
  split; [vm_compute; reflexivity|]. split; [exact Hstored|].
  intros (c & m & Heq). rewrite Heq in Hstored.
  rewrite lookup_insert_ne in Hstored by done.
  vm_compute in Hstored. discriminate Hstored.
Qed.

(** * Further properties of the code *)

(** ** The health probe: recovery, bounds, messages *)

Lemma slept_app l1 l2 : slept (l1 ++ l2) = (slept l1 ++ slept l2)%list.
Proof. unfold slept. apply flat_map_app. Qed.

Lemma slept_retry_log url k :
  (k <= 2)%nat -> slept (retry_log url k) = firstn k [2; 4]%Z.
Proof.
  intros Hk. destruct k as [|[|[|k]]]; [reflexivity|reflexivity|reflexivity|lia].
Qed.

(** The shape of every run of the probe: [k] failed attempts, each
    followed by its wait, then one last request. *)
Lemma probe_shape url net w :
  exists result k,
    (k <= 2)%nat
    /\ test_backend_connection url net w
       = (Ok result,
          advance w (S k) (retry_log url k ++ [Request (health_request url)])).
Proof.
  destruct (first_response_or_none net w) as [(k & r & Hk & Hfail & Hr)|Hfail].
  - rewrite (probe_first_response url net k r w Hk Hfail Hr).
    eexists _, k. split; [lia|reflexivity].
  - destruct (probe_no_response url net w Hfail) as (e & _ & ->).
    eexists _, 2%nat. split; [lia|reflexivity].
Qed.

(** X1. When the first [k] attempts of the probe fail at the transport
    level and the next one receives HTTP 200 (k at most 2), the probe
    reports the connection, has issued exactly [k + 1] requests, and has
    waited 2 seconds after the first failure and 4 after the second, and
    at no other time. *)
Theorem probe_recovers
  (url : string) (net : nat -> net_outcome) (w : world) (k : nat) (r : response) :
  (k < 3)%nat ->
  (forall j, (j < k)%nat -> exists e, net (j + sent w)%nat = Raises e) ->
  net (k + sent w)%nat = Responds r -> status_code r = 200%Z ->
  exists w',
    test_backend_connection url net w = (Ok (true, "Connected (HTTP 200)"), w')
    /\ requests_between w w' = S k
    /\ slept (log w') = (slept (log w) ++ firstn k [2; 4]%Z)%list.
Proof.
  intros Hk Hfail Hr Hst.
  rewrite (probe_first_response url net k r w Hk Hfail Hr).
  unfold Connected. rewrite Hst. eexists. split; [reflexivity|].
  split; [unfold requests_between; simpl; lia|].
  cbn [log advance]. rewrite !slept_app, slept_retry_log by lia.
  simpl. rewrite app_nil_r. reflexivity.
Qed.

Lemma probe_recovers_witness :
  exists w',
    test_backend_connection "https://backend" wakes_up_third fresh_world
    = (Ok (true, "Connected (HTTP 200)"), w')
    /\ requests_between fresh_world w' = 3%nat
    /\ slept (log w') = [2; 4]%Z.
Proof.
  apply (probe_recovers "https://backend" wakes_up_third fresh_world 2
           {| status_code := 200; text := "OK"; json := None |}).
  - lia.
  - intros j Hj. destruct j as [|[|j]]; [eexists; reflexivity..|lia].
  - reflexivity.
  - reflexivity.
Defined.

(** X2. Whatever the backend does, the probe returns after at least one
    and at most three requests; the waits it has made are a prefix of 2
    and 4 seconds, one after each request but the last, so it never waits
    after its last request nor more than 6 seconds in all; and it leaves
    the session state untouched. *)
Theorem probe_bounded (url : string) (net : nat -> net_outcome) (w : world) :
  exists result w' k,
    test_backend_connection url net w = (Ok result, w')
    /\ requests_between w w' = S k /\ (k <= 2)%nat
    /\ slept (log w') = (slept (log w) ++ firstn k [2; 4]%Z)%list
    /\ (fold_right Z.add 0 (firstn k [2; 4]) <= 6)%Z
    /\ (exists before, log w' = (before ++ [Request (health_request url)])%list)
    /\ session_state w' = session_state w.
Proof.
  destruct (probe_shape url net w) as (result & k & Hk & ->).
  eexists result, _, k. split; [reflexivity|].
  split; [unfold requests_between; simpl; lia|]. split; [exact Hk|].
  split; [|split; [|split]].
  - cbn [log advance]. rewrite !slept_app, slept_retry_log by exact Hk.
    simpl. rewrite app_nil_r. reflexivity.
  - destruct k as [|[|[|k]]]; simpl; lia.
  - exists (log w ++ retry_log url k)%list. cbn [log advance].
    rewrite app_assoc. reflexivity.
  - reflexivity.
Qed.

(** X3. The probe never returns [Max retries exceeded]: the return that
    follows the loop is not reachable, whatever the backend does. *)
Theorem probe_never_max_retries
  (url : string) (net : nat -> net_outcome) (w : world) :
  fst (test_backend_connection url net w) <> Ok MaxRetriesExceeded.
Proof.
  destruct (first_response_or_none net w) as [(k & r & Hk & Hfail & Hr)|Hfail].
  - rewrite (probe_first_response url net k r w Hk Hfail Hr). simpl.
    destruct (status_code r =? 200)%Z; discriminate.
  - destruct (probe_no_response url net w Hfail) as (e & _ & ->). simpl.
    intros H. injection H as H. exact (last_attempt_error_not_max e H).
Qed.

Lemma append_String c (a b : string) : String c a ++ b = String c (a ++ b).
Proof. reflexivity. Qed.

Lemma prefix_is_prefix n s :
  exists rest, s = Str.prefix n s ++ rest /\ Str.starts_character rest = true.
Proof.
  revert n. induction s as [|c s IH]; intros n.
  - exists "". split; reflexivity.
  - cbn [Str.prefix]. destruct (Str.continues c) eqn:Hc.
    + destruct (IH n) as (rest & Hrest & Hstart). exists rest.
      split; [|exact Hstart]. rewrite append_String. f_equal. exact Hrest.
    + destruct n as [|n].
      * exists (String c s). split; [reflexivity|]. simpl. rewrite Hc.
        reflexivity.
      * destruct (IH n) as (rest & Hrest & Hstart). exists rest.
        split; [|exact Hstart]. rewrite append_String. f_equal. exact Hrest.
Qed.

Lemma prefix_length n s :
  Str.len (Str.prefix n s) = Nat.min n (Str.len s).
Proof.
  revert n. induction s as [|c s IH]; intros n; [destruct n; reflexivity|].
  cbn [Str.prefix Str.len]. destruct (Str.continues c) eqn:Hc.
  - cbn [Str.len]. rewrite Hc. apply IH.
  - destruct n as [|n]; [reflexivity|].
    cbn [Str.len]. rewrite Hc, IH. reflexivity.
Qed.

(** X4. The diagnostic the probe reports for a response with a status
    other than 200 is [HTTP], the status code, and the first 100
    characters of the response text: the whole text when it has at most
    100 characters, never more than 100 of them, and never a part of a
    character; characters are counted as Python counts them, whatever
    the number of bytes each takes. *)
Theorem probe_bad_status_truncated
  (url : string) (net : nat -> net_outcome) (w : world) (r : response) :
  net (sent w) = Responds r -> status_code r <> 200%Z ->
  exists shown rest,
    fst (test_backend_connection url net w)
    = Ok (false, "HTTP " ++ Str.of_Z (status_code r) ++ ": " ++ shown)
    /\ shown = Str.prefix 100 (text r)
    /\ text r = shown ++ rest
    /\ Str.starts_character rest = true
    /\ Str.len shown = Nat.min 100 (Str.len (text r)).
Proof.
  intros Hr Hst.
  rewrite (probe_first_response url net 0 r w); [|lia|intros j Hj; lia|exact Hr].
  destruct (Z.eqb_spec (status_code r) 200) as [|_]; [contradiction|].
  destruct (prefix_is_prefix 100 (text r)) as (rest & Hrest & Hstart).
  exists (Str.prefix 100 (text r)), rest.
  split; [reflexivity|]. split; [reflexivity|]. split; [exact Hrest|].
  split; [exact Hstart|apply prefix_length].
Qed.

Lemma probe_bad_status_truncated_witness :
  fst (test_backend_connection "https://backend" unavailable fresh_world)
  = Ok (false, "HTTP 503: " ++ Str.join "" (repeat "Dépôt indisponible. " 5))
  /\ Str.len (Str.join "" (repeat "Dépôt indisponible. " 5)) = 100%nat
  /\ String.length (Str.join "" (repeat "Dépôt indisponible. " 5)) = 110%nat.
Proof.
  destruct (probe_bad_status_truncated "https://backend" unavailable fresh_world
              {| status_code := 503;
                 text := Str.join "" (repeat "Dépôt indisponible. " 6);
                 json := None |}) as (shown & rest & -> & -> & _).
  - reflexivity.
  - simpl. discriminate.
  - split; [|split]; vm_compute; reflexivity.
Defined.

(** X5. The two clients classify a connect timeout, which is both a
    [ConnectionError] and a [Timeout], differently: the probe tests
    [ConnectionError] first and reports [Connection Error: ...] when its
    third attempt ends that way, while [make_api_request] tests [Timeout]
    first and reports the request as timed out. *)
Theorem connect_timeout_classified_twice
  (url : string) (net : nat -> net_outcome) (w : world) (e : exn)
  (endpoint : string) (data : pyval) :
  cls e = ConnectTimeout ->
  (forall j, (j < 3)%nat -> net (j + sent w)%nat = Raises e) ->
  truthy data = true ->
  fst (test_backend_connection url net w)
  = Ok (false, "Connection Error: " ++ Str.prefix 100 (str e))
  /\ fst (make_api_request url net endpoint "POST" data None w)
     = Ok RequestTimeout.
Proof.
  intros Hcls Hfail Hdata. split.
  - destruct (probe_no_response url net w) as (e' & He' & ->).
    { intros j Hj. exists e. exact (Hfail j Hj). }
    rewrite (Hfail 2%nat ltac:(lia)) in He'. injection He' as <-.
    unfold last_attempt_error. rewrite Hcls. reflexivity.
  - rewrite (make_api_request_issued url net _ _ _ _ _ w
               (select_request_json url endpoint data Hdata)).
    pose proof (Hfail 0%nat ltac:(lia)) as H0. simpl in H0. rewrite H0.
    unfold request_error, isinstance_Timeout. rewrite Hcls. reflexivity.
Qed.

Lemma connect_timeout_classified_twice_witness :
  fst (test_backend_connection "https://backend" connect_times_out fresh_world)
  = Ok (false, "Connection Error: connect timeout=45")
  /\ fst (make_api_request "https://backend" connect_times_out "/match" "POST"
            match_payload None fresh_world)
     = Ok RequestTimeout.
Proof.
  apply (connect_timeout_classified_twice "https://backend" connect_times_out
           fresh_world {| cls := ConnectTimeout; str := "connect timeout=45" |}).
  - reflexivity.
  - intros j _. reflexivity.
  - reflexivity.
Defined.

(** ** The request client: when a request is issued *)

(** X6. [make_api_request] issues a request exactly for a [GET], or for a
    [POST] that carries a non-empty [files] dictionary or a true [data];
    any other call sends nothing, leaves the session state as it is, and
    returns the error [Invalid request method]. *)
Theorem make_api_request_issues_iff
  (url : string) (net : nat -> net_outcome) (endpoint method : string)
  (data : pyval) (files : option (list (string * file_part))) (w : world) :
  let supported :=
    method = "GET"
    \/ (method = "POST"
        /\ ((exists part parts, files = Some (part :: parts))
            \/ truthy data = true)) in
  let run := make_api_request url net endpoint method data files w in
  (supported -> requests_between w (snd run) = 1%nat)
  /\ (~ supported ->
      fst run = Ok (None, Some "Invalid request method")
      /\ requests_between w (snd run) = 0%nat
      /\ session_state (snd run) = session_state w).
Proof.
  cbv zeta.
  destruct (select_request url endpoint method data files) as [req|] eqn:Hsel.
  - rewrite (make_api_request_issued url net _ _ _ _ req w Hsel).
    split; [intros _; unfold requests_between; simpl; lia|].
    intros Hnot. exfalso. apply Hnot. unfold select_request in Hsel.
    destruct (String.eqb_spec method "GET") as [->|_]; [left; reflexivity|].
    right. destruct (String.eqb_spec method "POST") as [->|_];
      [|discriminate Hsel].
    split; [reflexivity|]. destruct files as [[|part parts]|]; simpl in Hsel.
    + right. destruct (truthy data); [reflexivity|discriminate Hsel].
    + left. eauto.
    + right. destruct (truthy data); [reflexivity|discriminate Hsel].
  - rewrite (make_api_request_refused url net _ _ _ _ w Hsel).
    split; [|intros _; split; [reflexivity|split; [|reflexivity]];
             unfold requests_between; simpl; lia].
    intros Hsup. exfalso. unfold select_request in Hsel.
    destruct Hsup as [->|[-> [(part & parts & ->)|Hdata]]].
    + discriminate Hsel.
    + discriminate Hsel.
    + simpl in Hsel. rewrite Hdata in Hsel.
      destruct files as [[|part parts]|]; discriminate Hsel.
Qed.

Lemma make_api_request_issues_iff_witness :
  fst (make_api_request "https://backend" cooperative "/match" "POST"
         (PDict []) None fresh_world)
  = Ok (None, Some "Invalid request method")
  /\ requests_between fresh_world
       (snd (make_api_request "https://backend" cooperative "/health" "GET"
               PNone None fresh_world)) = 1%nat.
Proof.
  split.
  - apply (make_api_request_issues_iff "https://backend" cooperative "/match"
             "POST" (PDict []) None fresh_world).
    intros [H|[_ [(part & parts & H)|H]]]; discriminate H.
  - apply (make_api_request_issues_iff "https://backend" cooperative "/health"
             "GET" PNone None fresh_world).
    left. reflexivity.
Defined.

(** ** The file validator: the names it accepts *)

Lemma last_cons_nonempty {A} (x : A) (l : list A) d :
  l <> [] -> List.last (x :: l) d = List.last l d.
Proof. destruct l; [contradiction|reflexivity]. Qed.

Lemma last_split_cases s :
  (Str.lacks "." s = true /\ List.last (Str.split "." s) "" = s)
  \/ after_last_dot s (List.last (Str.split "." s) "").
Proof.
  induction s as [|c s IH].
  - left. split; reflexivity.
  - cbn [Str.split Str.lacks]. destruct (Ascii.eqb_spec c ".") as [->|Hc].
    + right.
      assert (Hlast : List.last ("" :: Str.split "." s) ""
                      = List.last (Str.split "." s) "").
      { pose proof (split_nonempty "." s) as Hne.
        destruct (Str.split "." s); [contradiction|reflexivity]. }
      rewrite Hlast. destruct IH as [[Hlacks Heq]|[[pre Hpre] Hlacks]].
      * rewrite Heq. split; [exists ""; reflexivity|exact Hlacks].
      * split; [|exact Hlacks]. exists (String "." pre).
        rewrite append_String. f_equal. exact Hpre.
    + destruct IH as [[Hlacks Heq]|[[pre Hpre] Hlacks]].
      * left. rewrite (split_lacks _ _ Hlacks). simpl.
        split; [exact Hlacks|reflexivity].
      * right.
        remember (List.last (Str.split "." s) "") as e eqn:He.
        assert (Hs : Str.split "." s
                     = (Str.split "." pre ++ Str.split "." e)%list)
          by (rewrite <- split_app; f_equal; exact Hpre).
        pose proof (split_nonempty "." pre) as H1.
        pose proof (split_nonempty "." e) as H2.
        destruct (Str.split "." pre) as [|a l1]; [contradiction|].
        destruct (Str.split "." e) as [|b l2]; [contradiction|].
        rewrite Hs in He |- *. cbn [app] in He |- *.
        assert (Hne : (l1 ++ b :: l2)%list <> []) by (destruct l1; discriminate).
        rewrite (last_cons_nonempty _ _ _ Hne) in He.
        rewrite (last_cons_nonempty _ _ _ Hne). rewrite <- He.
        split; [|exact Hlacks].
        exists (String c pre). rewrite append_String. f_equal. exact Hpre.
Qed.

(** X7. [validate_file] accepts a file exactly when it is present, has at
    most 50 MiB, and its name, letter case ignored, is [csv], [xlsx] or
    [xls], or ends with a ['.'] followed by one of them; what precedes the
    last ['.'] plays no part. *)
Theorem validate_file_accepts_iff
  (file : option UploadedFile) (file_type : string) :
  fst (validate_file file file_type) = true <->
  exists f ext,
    file = Some f /\ (size f <= 50 * 1024 * 1024)%Z /\ allowed ext
    /\ (name f = ext \/ exists pre, name f = pre ++ "." ++ ext).
Proof.
  split.
  - destruct file as [f|]; [|discriminate]. intros Hok.
    unfold validate_file in Hok.
    destruct (Z.gtb_spec (size f) max_file_size) as [|Hsz]; [discriminate Hok|].
    destruct (existsb (String.eqb (file_extension f)) allowed_extensions)
      eqn:Hext; [|discriminate Hok].
    apply existsb_eqb_In in Hext.
    exists f, (List.last (Str.split "." (name f)) "").
    split; [reflexivity|]. split; [exact Hsz|]. split; [exact Hext|].
    destruct (last_split_cases (name f)) as [[_ Heq]|[Hpre _]];
      [left; symmetry; exact Heq|right; exact Hpre].
  - intros (f & ext & -> & Hsz & Hal & Hname).
    assert (Hallowed_lacks : Str.lacks "." ext = true).
    { unfold allowed in Hal. 
      assert (Hlower : forall s, Str.lacks "." (Str.lower s) = true ->
                Str.lacks "." s = true).
      { induction s as [|c s IHs]; [reflexivity|]. simpl.
        intros H. apply andb_prop in H as [Hc Hs]. rewrite (IHs Hs), andb_true_r.
        destruct (Ascii.eqb_spec c ".") as [->|_]; [discriminate Hc|reflexivity]. }
      apply Hlower. simpl in Hal.
      destruct Hal as [<-|[<-|[<-|[]]]]; reflexivity. }
    rewrite validate_by_extension by exact Hsz.
    assert (Hext : file_extension f = Str.lower ext).
    { unfold file_extension. destruct Hname as [->|Hpre].
      - rewrite (split_lacks _ _ Hallowed_lacks). reflexivity.
      - rewrite (last_split_after_dot (name f) ext); [reflexivity|].
        split; assumption. }
    rewrite Hext. apply existsb_eqb_In in Hal. rewrite Hal. reflexivity.
Qed.

Lemma validate_file_accepts_iff_witness :
  fst (validate_file (Some (sample_file "2024.q1.bank.XLSX" 4096))
         "Bank statement") = true.
Proof.
  apply (validate_file_accepts_iff
           (Some (sample_file "2024.q1.bank.XLSX" 4096)) "Bank statement").
  exists (sample_file "2024.q1.bank.XLSX" 4096), "XLSX".
  split; [reflexivity|]. split; [simpl; lia|].
  split; [unfold allowed; simpl; right; left; reflexivity|].
  right. exists "2024.q1.bank". reflexivity.
Defined.

(** ** The session store: initialisation *)

Lemma dict_get_In_is_Some d key v : In (key, v) d -> is_Some (dict_get d key).
Proof.
  induction d as [|[k x] d IH]; [intros []|].
  simpl. intros [Heq|Hin].
  - injection Heq as -> ->. rewrite String.eqb_refl. eauto.
  - destruct (String.eqb k key); [eauto|exact (IH Hin)].
Qed.

Lemma fill_defaults_is_initialised (s : gmap string pyval) :
  initialised (fill_defaults default_states s).
Proof.
  intros key v Hin. rewrite fill_defaults_lookup.
  destruct (s !! key); [eauto|]. exact (dict_get_In_is_Some _ _ _ Hin).
Qed.

(** X8. [initialize_session_state] never fails and never overwrites: a
    key that is stored keeps its value, a key that is not gets its default
    when it is one of the eight of [default_states] and stays absent
    otherwise. It sends no request and shows nothing, and running it a
    second time changes nothing. *)
Theorem initialize_fills_missing_keys (w : world) :
  exists w',
    initialize_session_state w = (Ok tt, w')
    /\ sent w' = sent w /\ log w' = log w
    /\ (forall key,
          session_state w' !! key
          = match session_state w !! key with
            | Some v => Some v
            | None => dict_get default_states key
            end)
    /\ initialize_session_state w' = (Ok tt, w').
Proof.
  unfold initialize_session_state. rewrite set_defaults_fill.
  eexists. split; [reflexivity|]. split; [reflexivity|]. split; [reflexivity|].
  split; [intros key; apply fill_defaults_lookup|].
  rewrite set_defaults_fill. cbn [session_state with_session].
  rewrite (fill_defaults_initialised _ (fill_defaults_is_initialised _)).
  reflexivity.
Qed.

(** ** The handlers: what a call stores *)

Section Handlers.

Variable url : string.
Variable net : nat -> net_outcome.
Variable display : string -> pyval -> option pyexn.
Variable repr : pyval -> string.

Lemma upload_clicked_accepted w bank invoice r d session_id :
  fst (validate_file (Some bank) "Bank statement") = true ->
  fst (validate_file (Some invoice) "Invoice") = true ->
  net (sent w) = Responds r -> status_code r = 200%Z ->
  json r = Some (PDict d) ->
  truthy (default PNone (dict_get d "success")) = true ->
  dict_get d "session_id" = Some session_id ->
  upload_clicked url net display repr (Some bank) (Some invoice) w
  = (shown display "display_preprocessing_summary" (PDict d),
     with_session
       (advance w 1
          [debug_line url "/upload" "POST";
           Request (upload_request url bank invoice);
           StSuccess "✅ Files uploaded and preprocessed successfully!"])
       (<["files_uploaded" := PBool true]>
          (<["session_id" := session_id]>
             (<["upload_result" := PDict d]> (session_state w))))).
Proof.
  intros Hbank Hinvoice Hr Hst Hjson Hsucc Hsid.
  unfold upload_clicked.
  destruct (validate_file (Some bank) "Bank statement") as [bank_valid bank_msg].
  destruct (validate_file (Some invoice) "Invoice")
    as [invoice_valid invoice_msg].
  simpl in Hbank, Hinvoice. subst bank_valid invoice_valid. cbn [negb orb].
  unfold bind at 1.
  rewrite (make_api_request_issued url net _ _ _ _
             (upload_request url bank invoice)) by reflexivity.
  rewrite Hr. cbn [error_truthy]. rewrite (is_200_ok r Hst).
  unfold bind, lift, emit, ss_set, render, shown, response_json, rbind, ret, raise.
  rewrite Hjson. cbn [py_get py_item]. rewrite Hsucc, Hsid.
  cbn [session_state sent log advance with_session].
  destruct (display "display_preprocessing_summary" (PDict d));
    unfold with_session, advance; cbn [session_state sent log];
    rewrite <- !app_assoc; reflexivity.
Qed.

Lemma upload_clicked_no_session_id w bank invoice r d :
  fst (validate_file (Some bank) "Bank statement") = true ->
  fst (validate_file (Some invoice) "Invoice") = true ->
  net (sent w) = Responds r -> status_code r = 200%Z ->
  json r = Some (PDict d) ->
  truthy (default PNone (dict_get d "success")) = true ->
  dict_get d "session_id" = None ->
  upload_clicked url net display repr (Some bank) (Some invoice) w
  = (Raise (KeyError "session_id"),
     with_session
       (advance w 1
          [debug_line url "/upload" "POST";
           Request (upload_request url bank invoice);
           StSuccess "✅ Files uploaded and preprocessed successfully!"])
       (<["upload_result" := PDict d]> (session_state w))).
Proof.
  intros Hbank Hinvoice Hr Hst Hjson Hsucc Hsid.
  unfold upload_clicked.
  destruct (validate_file (Some bank) "Bank statement") as [bank_valid bank_msg].
  destruct (validate_file (Some invoice) "Invoice")
    as [invoice_valid invoice_msg].
  simpl in Hbank, Hinvoice. subst bank_valid invoice_valid. cbn [negb orb].
  unfold bind at 1.
  rewrite (make_api_request_issued url net _ _ _ _
             (upload_request url bank invoice)) by reflexivity.
  rewrite Hr. cbn [error_truthy]. rewrite (is_200_ok r Hst).
  unfold bind, lift, emit, ss_set, response_json, rbind, ret, raise.
  rewrite Hjson. cbn [py_get py_item]. rewrite Hsucc, Hsid.
  unfold with_session, advance; cbn [session_state sent log].
  rewrite <- !app_assoc. reflexivity.
Qed.

Ltac stage_accepted Hsid Hr Hst Hjson Hsucc :=
  unfold bind at 1; unfold ss_item at 1; rewrite Hsid;
  unfold bind at 1;
  rewrite (make_api_request_issued url net _ _ _ _
             (stage_request url _ _)) by reflexivity;
  rewrite Hr; cbn [error_truthy]; rewrite (is_200_ok _ Hst);
  unfold bind, lift, emit, ss_set, render, shown, response_json, rbind, ret,
    raise;
  rewrite Hjson; cbn [py_get]; rewrite Hsucc;
  cbn [session_state sent log advance with_session];
  match goal with
  | |- context [display ?f ?x] =>
      destruct (display f x);
      unfold with_session, advance; cbn [session_state sent log];
      rewrite <- !app_assoc; reflexivity
  end.

Lemma identify_clicked_accepted w session_id r d :
  session_state w !! "session_id" = Some session_id ->
  net (sent w) = Responds r -> status_code r = 200%Z ->
  json r = Some (PDict d) ->
  truthy (default PNone (dict_get d "success")) = true ->
  identify_clicked url net display repr w
  = (shown display "display_column_identification" (PDict d),
     with_session
       (advance w 1
          [debug_line url "/identify_columns" "POST";
           Request (stage_request url "/identify_columns" session_id);
           StSuccess "✅ Key columns identified successfully!"])
       (<["columns_identified" := PBool true]>
          (<["column_identification_result" := PDict d]> (session_state w)))).
Proof.
  intros Hsid Hr Hst Hjson Hsucc. unfold identify_clicked.
  stage_accepted Hsid Hr Hst Hjson Hsucc.
Qed.

Lemma match_clicked_accepted w session_id r d :
  session_state w !! "session_id" = Some session_id ->
  net (sent w) = Responds r -> status_code r = 200%Z ->
  json r = Some (PDict d) ->
  truthy (default PNone (dict_get d "success")) = true ->
  match_clicked url net display repr w
  = (shown display "display_matching_results" (PDict d),
     with_session
       (advance w 1
          [debug_line url "/match" "POST";
           Request (stage_request url "/match" session_id);
           StSuccess "✅ AI Matching completed!"])
       (<["matching_completed" := PBool true]>
          (<["matching_result" := PDict d]> (session_state w)))).
Proof.
  intros Hsid Hr Hst Hjson Hsucc. unfold match_clicked.
  stage_accepted Hsid Hr Hst Hjson Hsucc.
Qed.

End Handlers.

(** X9. The upload handler checks the two files before anything else:
    when a file is absent or does not pass [validate_file], it sends no
    request, leaves the session state as it is, and shows one error that
    lists the message of each file that failed. *)
Theorem upload_refused_before_request
  (url : string) (net : nat -> net_outcome)
  (display : string -> pyval -> option pyexn) (repr : pyval -> string)
  (bank invoice : option UploadedFile) (w : world) :
  fst (validate_file bank "Bank statement") = false
  \/ fst (validate_file invoice "Invoice") = false ->
  upload_clicked url net display repr bank invoice w
  = (Ok tt,
     advance w 0
       [StError
          ("❌ Please fix the following issues:" ++ newline ++ "- "
             ++ (if fst (validate_file bank "Bank statement") then ""
                 else snd (validate_file bank "Bank statement"))
             ++ newline ++ "- "
             ++ (if fst (validate_file invoice "Invoice") then ""
                 else snd (validate_file invoice "Invoice")))]).
Proof.
  intros Hbad. unfold upload_clicked.
  assert (Hb : match bank with
               | Some _ => validate_file bank "Bank statement"
               | None => (false, "Bank statement file is required")
               end = validate_file bank "Bank statement")
    by (destruct bank; reflexivity).
  assert (Hi : match invoice with
               | Some _ => validate_file invoice "Invoice"
               | None => (false, "Invoice file is required")
               end = validate_file invoice "Invoice")
    by (destruct invoice; reflexivity).
  rewrite Hb, Hi.
  destruct (validate_file bank "Bank statement") as [bank_valid bank_msg].
  destruct (validate_file invoice "Invoice") as [invoice_valid invoice_msg].
  simpl in Hbad |- *.
  destruct bank_valid, invoice_valid; try reflexivity.
  destruct Hbad as [H|H]; discriminate H.
Qed.

Lemma upload_refused_before_request_witness :
  upload_clicked "https://backend" cooperative quiet_display plain_repr
    (Some (sample_file "bank.pdf" 100)) None fresh_world
  = (Ok tt,
     advance fresh_world 0
       [StError
          ("❌ Please fix the following issues:" ++ newline
             ++ "- Bank statement must be one of: csv, xlsx, xls" ++ newline
             ++ "- Invoice file is required")]).
Proof.
  rewrite (upload_refused_before_request "https://backend" cooperative
             quiet_display plain_repr (Some (sample_file "bank.pdf" 100)) None
             fresh_world).
  - reflexivity.
  - left. reflexivity.
Defined.

(** X10. When the backend answers an upload of two valid files with 200
    and a JSON object whose [success] is true and which has a
    [session_id], the handler has sent one multipart request to [/upload]
    with the name, content and type of each file, and has stored the
    answer as [upload_result], its [session_id] as [session_id], and
    [files_uploaded] as [True]. The three writes stay when the display of
    the summary then raises: the handler ends with that exception. *)
Theorem upload_accepted_stores_session
  (url : string) (net : nat -> net_outcome)
  (display : string -> pyval -> option pyexn) (repr : pyval -> string)
  (w : world) (bank invoice : UploadedFile) (r : response)
  (d : list (string * pyval)) (session_id : pyval) :
  fst (validate_file (Some bank) "Bank statement") = true ->
  fst (validate_file (Some invoice) "Invoice") = true ->
  net (sent w) = Responds r -> status_code r = 200%Z ->
  json r = Some (PDict d) ->
  truthy (default PNone (dict_get d "success")) = true ->
  dict_get d "session_id" = Some session_id ->
  let run := upload_clicked url net display repr (Some bank) (Some invoice) w in
  fst run = shown display "display_preprocessing_summary" (PDict d)
  /\ session_state (snd run)
     = <["files_uploaded" := PBool true]>
         (<["session_id" := session_id]>
            (<["upload_result" := PDict d]> (session_state w)))
  /\ requests_between w (snd run) = 1%nat
  /\ log (snd run)
     = (log w ++ [debug_line url "/upload" "POST";
                  Request (upload_request url bank invoice);
                  StSuccess "✅ Files uploaded and preprocessed successfully!"])%list.
Proof.
  intros Hbank Hinvoice Hr Hst Hjson Hsucc Hsid. cbv zeta.
  rewrite (upload_clicked_accepted url net display repr w bank invoice r d
             session_id Hbank Hinvoice Hr Hst Hjson Hsucc Hsid).
  split; [reflexivity|]. split; [reflexivity|].
  split; [unfold requests_between; simpl; lia|reflexivity].
Qed.

Lemma upload_accepted_stores_session_witness :
  let run := upload_clicked "https://backend" (answers (PDict upload_answer))
               failing_display plain_repr
               (Some (sample_file "bank.csv" 2048))
               (Some (sample_file "invoices.xlsx" 4096)) fresh_world in
  fst run = Raise (KeyError "preprocessing_info")
  /\ session_state (snd run) !! "files_uploaded" = Some (PBool true)
  /\ session_state (snd run) !! "session_id" = Some (PStr "s-1").
Proof.
  destruct (upload_accepted_stores_session "https://backend"
              (answers (PDict upload_answer)) failing_display plain_repr
              fresh_world (sample_file "bank.csv" 2048)
              (sample_file "invoices.xlsx" 4096)
              {| status_code := 200; text := "OK";
                 json := Some (PDict upload_answer) |}
              upload_answer (PStr "s-1"))
    as (Hres & Hstate & _); try reflexivity.
  cbv zeta. rewrite Hres, Hstate. split; [reflexivity|].
  split; [apply lookup_insert_eq|].
  rewrite lookup_insert_ne by done. apply lookup_insert_eq.
Defined.

(** X11. When the backend answers an upload with 200 and a JSON object
    whose [success] is true but which has no [session_id], the handler
    stores the answer as [upload_result] and then fails with a [KeyError]:
    [session_id] and [files_uploaded] are not written, so the upload is
    not marked as done although a result is stored. *)
Theorem upload_without_session_id_half_written
  (url : string) (net : nat -> net_outcome)
  (display : string -> pyval -> option pyexn) (repr : pyval -> string)
  (w : world) (bank invoice : UploadedFile) (r : response)
  (d : list (string * pyval)) :
  fst (validate_file (Some bank) "Bank statement") = true ->
  fst (validate_file (Some invoice) "Invoice") = true ->
  net (sent w) = Responds r -> status_code r = 200%Z ->
  json r = Some (PDict d) ->
  truthy (default PNone (dict_get d "success")) = true ->
  dict_get d "session_id" = None ->
  let run := upload_clicked url net display repr (Some bank) (Some invoice) w in
  fst run = Raise (KeyError "session_id")
  /\ session_state (snd run) = <["upload_result" := PDict d]> (session_state w)
  /\ session_state (snd run) !! "session_id" = session_state w !! "session_id"
  /\ session_state (snd run) !! "files_uploaded"
     = session_state w !! "files_uploaded".
Proof.
  intros Hbank Hinvoice Hr Hst Hjson Hsucc Hsid. cbv zeta.
  rewrite (upload_clicked_no_session_id url net display repr w bank invoice r d
             Hbank Hinvoice Hr Hst Hjson Hsucc Hsid).
  cbn [fst snd session_state with_session].
  rewrite !lookup_insert_ne by done. repeat split.
Qed.

Lemma upload_without_session_id_half_written_witness :
  let run := upload_clicked "https://backend" forgetful quiet_display plain_repr
               (Some (sample_file "bank.csv" 2048))
               (Some (sample_file "invoices.xlsx" 4096)) fresh_world in
  fst run = Raise (KeyError "session_id")
  /\ session_state (snd run)
     = <["upload_result" := PDict [("success", PBool true)]]> ∅.
Proof.
  destruct (upload_without_session_id_half_written "https://backend" forgetful
              quiet_display plain_repr fresh_world
              (sample_file "bank.csv" 2048) (sample_file "invoices.xlsx" 4096)
              {| status_code := 200; text := "OK";
                 json := Some (PDict [("success", PBool true)]) |}
              [("success", PBool true)])
    as (Hres & Hstate & _); try reflexivity.
  cbv zeta. rewrite Hres, Hstate. split; reflexivity.
Defined.

(** X12. The column identification and the matching handlers send the
    stored session id, as the JSON object with the one key [session_id],
    to [/identify_columns] and to [/match]. On a 200 answer whose
    [success] is true each stores the answer and then sets its stage flag;
    the session id and the other keys are not written. The writes stay
    when the display then raises. *)
Theorem stage_accepted_stores_result
  (url : string) (net : nat -> net_outcome)
  (display : string -> pyval -> option pyexn) (repr : pyval -> string)
  (w : world) (session_id : pyval) (r : response) (d : list (string * pyval)) :
  session_state w !! "session_id" = Some session_id ->
  net (sent w) = Responds r -> status_code r = 200%Z ->
  json r = Some (PDict d) ->
  truthy (default PNone (dict_get d "success")) = true ->
  let identified := identify_clicked url net display repr w in
  let matched := match_clicked url net display repr w in
  (fst identified = shown display "display_column_identification" (PDict d)
   /\ session_state (snd identified)
      = <["columns_identified" := PBool true]>
          (<["column_identification_result" := PDict d]> (session_state w))
   /\ log (snd identified)
      = (log w ++ [debug_line url "/identify_columns" "POST";
                   Request (stage_request url "/identify_columns" session_id);
                   StSuccess "✅ Key columns identified successfully!"])%list)
  /\ (fst matched = shown display "display_matching_results" (PDict d)
      /\ session_state (snd matched)
         = <["matching_completed" := PBool true]>
             (<["matching_result" := PDict d]> (session_state w))
      /\ log (snd matched)
         = (log w ++ [debug_line url "/match" "POST";
                      Request (stage_request url "/match" session_id);
                      StSuccess "✅ AI Matching completed!"])%list).
Proof.
  intros Hsid Hr Hst Hjson Hsucc. cbv zeta.
  rewrite (identify_clicked_accepted url net display repr w session_id r d
             Hsid Hr Hst Hjson Hsucc).
  rewrite (match_clicked_accepted url net display repr w session_id r d
             Hsid Hr Hst Hjson Hsucc).
  repeat split.
Qed.

Lemma stage_accepted_stores_result_witness :
  session_state
    (snd (identify_clicked "https://backend" cooperative quiet_display
            plain_repr uploaded_world)) !! "columns_identified"
  = Some (PBool true)
  /\ In (Request (stage_request "https://backend" "/match" (PStr "s-1")))
        (log (snd (match_clicked "https://backend" cooperative quiet_display
                     plain_repr uploaded_world))).
Proof.
  destruct (stage_accepted_stores_result "https://backend" cooperative
              quiet_display plain_repr uploaded_world (PStr "s-1")
              {| status_code := 200; text := "OK";
                 json := Some (PDict [("success", PBool true);
                                      ("session_id", PStr "s-1")]) |}
              [("success", PBool true); ("session_id", PStr "s-1")])
    as ((_ & Hstate & _) & (_ & _ & Hlog)); try reflexivity.
  rewrite Hstate, Hlog. split; [apply lookup_insert_eq|].
  simpl. right. left. reflexivity.
Defined.

(** ** The guards of the buttons *)









(** ** Downloads and the stored backend status *)

Section ReadOnly.

Variable P : world -> Prop.
Hypothesis P_emit : forall w ef, P w -> P (advance w 0 [ef]).

Lemma wp_download_section_world i w :
  P w -> wp (download_section i) (fun _ w' => P w') (fun _ w' => P w') w.
Proof.
  intros HP. unfold download_section. wp_steps.
  wp_case; [|exact HP].
  assert (Hreport : forall w', P w' ->
    wp (if st_button i DownloadReportButton false
        then download_report_clicked else ret tt)
       (fun _ w'' => P w'') (fun _ w'' => P w'') w').
  { intros w' HP'. wp_case; [|exact HP'].
    unfold download_report_clicked. wp_steps.
    destruct (session_state w' !! "matching_result"); [|exact HP'].
    wp_steps. wp_case; [|exact HP']. wp_steps. apply P_emit. exact HP'. }
  apply wp_bind. wp_case; [|apply Hreport; exact HP].
  unfold download_matched_clicked.
  repeat first [ solve [apply Hreport; first [exact HP|apply P_emit; exact HP]]
               | exact HP | wp_step | wp_case ].
Qed.


End ReadOnly.

(** X15. The download section only reads: whatever is clicked and
    whatever is stored, and whether a handler of it returns or raises, the
    session state is left as it was and no request is sent. *)
Theorem downloads_only_read (i : input) (w : world) :
  session_state (snd (download_section i w)) = session_state w
  /\ sent (snd (download_section i w)) = sent w.
Proof.
  pose proof (wp_download_section_world (same_store w)) as H.
  specialize (H (fun w0 ef Hw0 => Hw0) i w (same_store_refl w)).
  unfold wp in H. destruct (download_section i w) as [[[]|e] w']; exact H.
Qed.



(** ** The exporter: nothing to export, records that cannot be read *)

(** X17. With a matching result stored whose [matches] is absent, [None]
    or empty, the matched transactions button offers no download: it only
    shows [No matches to download], and builds no row. *)
Theorem no_matches_no_download (w : world) (d : list (string * pyval)) :
  session_state w !! "matching_result" = Some (PDict d) ->
  truthy (default PNone (dict_get d "matches")) = false ->
  download_matched_clicked w
  = (Ok tt, advance w 0 [StInfo "No matches to download"]).
Proof.
  intros Hstored Hfalsy. apply wp_returns. unfold download_matched_clicked.
  wp_steps. rewrite Hstored. wp_steps. cbn [py_get]. rewrite Hfalsy.
  wp_steps. split; reflexivity.
Qed.

Lemma no_matches_no_download_witness :
  download_matched_clicked
    {| session_state :=
         <["matching_result" :=
             PDict [("success", PBool true); ("matches", PList [])]]>
           uploaded_session;
       sent := 4; log := [] |}
  = (Ok tt,
     {| session_state :=
          <["matching_result" :=
              PDict [("success", PBool true); ("matches", PList [])]]>
            uploaded_session;
        sent := 4; log := [StInfo "No matches to download"] |}).
Proof.
  rewrite (no_matches_no_download _
             [("success", PBool true); ("matches", PList [])]);
    reflexivity.
Defined.

(** X18. The rows are built record by record, and the first record that
    cannot be read decides: the loop raises [e] exactly when some record
    raises [e] and every record before it gives a row. No row is kept
    then: the handler ends with [e] and has offered nothing, the world
    being as it was. *)
Theorem matched_rows_first_error (matches : list pyval) (e : pyexn) :
  (matched_rows matches = Raise e <->
   exists good m rest,
     matches = (good ++ m :: rest)%list
     /\ Forall (fun x => exists row, matched_row x = Ok row) good
     /\ matched_row m = Raise e)
  /\ (matched_rows matches = Raise e ->
      forall w d,
        session_state w !! "matching_result" = Some (PDict d) ->
        dict_get d "matches" = Some (PList matches) ->
        download_matched_clicked w = (Raise e, w)).
Proof.
  split; [split|].
  - induction matches as [|m matches IH]; [discriminate|].
    simpl. destruct (matched_row m) as [row|e'] eqn:Hm.
    + cbn [rbind]. destruct (matched_rows matches) as [rows|e''] eqn:Hrows;
        [discriminate|].
      cbn [rbind]. intros [= ->].
      destruct (IH eq_refl) as (good & m' & rest & -> & Hgood & Hm').
      exists (m :: good), m', rest. split; [reflexivity|].
      split; [constructor; eauto|exact Hm'].
    + cbn [rbind]. intros [= ->]. exists [], m, matches.
      split; [reflexivity|]. split; [constructor|exact Hm].
  - intros (good & m & rest & -> & Hgood & Hm).
    induction Hgood as [|x good [row Hrow] _ IH]; simpl.
    + rewrite Hm. reflexivity.
    + rewrite Hrow. cbn [rbind]. rewrite IH. reflexivity.
  - intros Hrows w d Hstored Hmatches.
    assert (Hne : matches <> []) by (intros ->; discriminate Hrows).
    destruct matches as [|m rest]; [contradiction|].
    unfold download_matched_clicked, bind, ss_item, lift.
    rewrite Hstored. cbn [py_get py_item]. rewrite Hmatches.
    cbn [default from_option id truthy]. rewrite Hstored. cbn [py_item].
    rewrite Hmatches. unfold matched_data. cbn [py_iter rbind].
    rewrite Hrows. reflexivity.
Qed.

Lemma matched_rows_first_error_witness :
  matched_rows [sample_match "TRX-1" "INV-7" 0.5%float;
                PDict [("file_a_entry", PDict []); ("file_b_entry", PDict [])]]
  = Raise (KeyError "confidence_score").
Proof.
  apply (matched_rows_first_error
           [sample_match "TRX-1" "INV-7" 0.5%float;
            PDict [("file_a_entry", PDict []); ("file_b_entry", PDict [])]]
           (KeyError "confidence_score")).
  exists [sample_match "TRX-1" "INV-7" 0.5%float],
    (PDict [("file_a_entry", PDict []); ("file_b_entry", PDict [])]), [].
  split; [reflexivity|]. split; [|reflexivity].
  constructor; [|constructor]. eexists. reflexivity.
Defined.

Lemma prefixed_keys_NoDup prefix items :
  NoDup (map fst items) -> NoDup (map fst (prefixed prefix items)).
Proof.
  induction items as [|[k v] items IH]; intros Hnd; simpl; [constructor|].
  simpl in Hnd. apply NoDup_cons in Hnd as [Hk Hrest].
  apply NoDup_cons. split; [|exact (IH Hrest)].
  intros Hin. apply list_elem_of_In, prefixed_keys in Hin as (k' & Heq & Hk').
  apply append_inj_l in Heq. subst k'. apply Hk, list_elem_of_In. exact Hk'.
Qed.

(** X19. The row of a match record has one column for each bank field,
    one for each invoice field and two more, all under different names: no
    field is overwritten by another when the row is built. *)
Theorem matched_row_columns_distinct (m : pyval) (rec : MatchRecord) :
  holds_record m rec ->
  exists row,
    matched_row m = Ok row
    /\ NoDup (map fst row)
    /\ length row
       = (length (file_a_entry rec) + length (file_b_entry rec) + 2)%nat.
Proof.
  intros Hrec. exists (flat_row rec).
  split; [exact (matched_row_flat m rec Hrec)|].
  destruct Hrec as (_ & _ & _ & _ & Hna & Hnb). unfold flat_row. split.
  - rewrite !map_app. apply NoDup_app. split; [|split].
    + apply prefixed_keys_NoDup, Hna.
    + intros key Ha Hb. apply list_elem_of_In in Ha, Hb.
      apply prefixed_keys in Ha as (ka & -> & _).
      apply in_app_or in Hb as [Hb|Hb].
      * apply prefixed_keys in Hb as (kb & Hb & _). discriminate Hb.
      * simpl in Hb. destruct Hb as [Hb|[Hb|[]]]; discriminate Hb.
    + apply NoDup_app. split; [|split].
      * apply prefixed_keys_NoDup, Hnb.
      * intros key Hb Hc. apply list_elem_of_In in Hb, Hc.
        apply prefixed_keys in Hb as (kb & -> & _).
        simpl in Hc. destruct Hc as [Hc|[Hc|[]]]; discriminate Hc.
      * simpl. apply NoDup_cons. split; [|apply NoDup_singleton].
        intros Hin. apply list_elem_of_In in Hin.
        destruct Hin as [Hin|[]]. discriminate Hin.
  - rewrite !length_app. unfold prefixed. rewrite !length_map. simpl. lia.
Qed.

Lemma matched_row_columns_distinct_witness :
  exists row,
    matched_row (sample_match "TRX-1" "INV-7" 0.5%float) = Ok row
    /\ NoDup (map fst row) /\ length row = 6%nat.
Proof.
  apply (matched_row_columns_distinct (sample_match "TRX-1" "INV-7" 0.5%float)
           (sample_record "TRX-1" "INV-7" 0.5%float)).
  apply sample_record_held.
Defined.

(** ** Predicates closed under the writes the guards allow

    The handlers write only where their guards let them: the upload
    handler while [files_uploaded] is not set, the later stages while
    their own flag is not set and the result of the stage before is
    stored. [I] need only be closed under these writes. *)

Section Guarded.

Variable url : string.
Variable net : nat -> net_outcome.
Variable display : string -> pyval -> option pyexn.
Variable repr : pyval -> string.

Variable I : gmap string pyval -> Prop.

Hypothesis I_default : forall s key v,
  In (key, v) default_states -> s !! key = None -> I s -> I (<[key := v]> s).

Hypothesis I_status : forall s k status k',
  probed url net k status k' -> I s -> I (<["backend_status" := status]> s).

Hypothesis I_uploaded : forall s result success session_id,
  I s -> flag s "files_uploaded" = false ->
  py_get result "success" PNone = Ok success -> truthy success = true ->
  py_item result "session_id" = Ok session_id ->
  I (<["files_uploaded" := PBool true]>
       (<["session_id" := session_id]> (<["upload_result" := result]> s))).

Hypothesis I_upload_result : forall s result success,
  I s -> flag s "files_uploaded" = false ->
  py_get result "success" PNone = Ok success -> truthy success = true ->
  I (<["upload_result" := result]> s).

Hypothesis I_identified : forall s result success,
  I s -> truthy (stored s "upload_result") = true ->
  truthy (stored s "session_id") = true ->
  flag s "columns_identified" = false ->
  py_get result "success" PNone = Ok success -> truthy success = true ->
  I (<["columns_identified" := PBool true]>
       (<["column_identification_result" := result]> s)).

Hypothesis I_matched : forall s result success,
  I s -> truthy (stored s "column_identification_result") = true ->
  truthy (stored s "session_id") = true ->
  flag s "matching_completed" = false ->
  py_get result "success" PNone = Ok success -> truthy success = true ->
  I (<["matching_completed" := PBool true]>
       (<["matching_result" := result]> s)).

Lemma guarded_keeps i {A} (c : M A) : keeps I I c -> guarded I i c.
Proof.
  intros Hc w Hinv. eapply wp_mono; [| |apply (Hc w Hinv)]; cbv beta.
  - intros _ w' Hw'. exact Hw'.
  - intros e w' Hw'. left. exact Hw'.
Qed.

Lemma guarded_bind i {A B} (c : M A) (k : A -> M B) :
  guarded I i c -> (forall a, guarded I i (k a)) -> guarded I i (bind c k).
Proof.
  intros Hc Hk w Hinv. apply wp_bind.
  eapply wp_mono; [| |apply (Hc w Hinv)]; cbv beta.
  - intros a w' Hw'. apply Hk. exact Hw'.
  - intros e w' Hw'. exact Hw'.
Qed.

Lemma upload_clicked_guarded bank invoice w :
  I (session_state w) ->
  flag (session_state w) "files_uploaded" = false ->
  wp (upload_clicked url net display repr bank invoice)
     (fun _ w' => I (session_state w'))
     (fun _ w' => I (session_state w')) w.
Proof.
  intros Hinv Hfu. unfold upload_clicked.
  destruct (match bank with
            | Some _ => validate_file bank "Bank statement"
            | None => (false, "Bank statement file is required")
            end) as [bank_valid bank_msg].
  destruct (match invoice with
            | Some _ => validate_file invoice "Invoice"
            | None => (false, "Invoice file is required")
            end) as [invoice_valid invoice_msg].
  wp_case; [wp_steps; exact Hinv|].
  destruct bank as [bank|]; [|wp_steps; exact Hinv].
  destruct invoice as [invoice|]; [|wp_steps; exact Hinv].
  apply wp_bind, wp_make_api_request; [|discriminate].
  intros req _.
  destruct (net (sent w)) as [r|e]; cbv beta iota.
  2: { wp_case; wp_steps; exact Hinv. }
  simpl error_truthy. cbv iota.
  wp_case; [|wp_steps; exact Hinv].
  wp_steps. cbn [rbind].
  destruct (response_json r) as [result|]; [|exact Hinv].
  wp_steps. destruct (py_get result "success" PNone) as [success|] eqn:Hsucc;
    [|exact Hinv].
  wp_steps. destruct (truthy success) eqn:Htrue.
  - wp_steps. cbn [session_state advance with_session].
    destruct (py_item result "session_id") as [session_id|] eqn:Hitem.
    + wp_steps. cbn [session_state advance with_session].
      assert (Hfinal := I_uploaded _ _ _ _ Hinv Hfu Hsucc Htrue Hitem).
      apply wp_render; [exact Hfinal|intros _; exact Hfinal].
    + cbn [session_state advance with_session].
      exact (I_upload_result _ _ _ Hinv Hfu Hsucc Htrue).
  - wp_steps. wp_case; [|exact Hinv]. wp_steps. exact Hinv.
Qed.

Lemma upload_section_guarded i :
  keeps I I (upload_section url net display repr i).
Proof.
  intros w Hinv. unfold upload_section.
  apply wp_bind, wp_disabled_by; [|intros _; exact Hinv].
  intros upload_disabled Hflag.
  destruct (st_button i UploadButton upload_disabled) eqn:Hb.
  - apply upload_clicked_guarded; [exact Hinv|].
    apply Hflag. exact (st_button_enabled _ _ _ Hb).
  - exact Hinv.
Qed.

Lemma stage_clicked_guarded (c : M unit) endpoint success_msg result_key flag_key
  shown error_msg refused_msg status_msg w :
  c = (let* session_id := ss_item "session_id" in
       let* (response, error) :=
         make_api_request url net endpoint "POST"
           (PDict [("session_id", session_id)]) None in
       if error_truthy error then
         emit (StError (error_msg ++ default "" error))
       else if is_200 response then
         let* result := lift (let? r := match response with
                                        | Some r => Ok r
                                        | None => Raise (AttributeError "json")
                                        end in response_json r) in
         let* success := lift (py_get result "success" PNone) in
         if truthy success then
           emit (StSuccess success_msg) ;;
           ss_set result_key result ;;
           ss_set flag_key (PBool true) ;;
           render display shown result
         else
           let* err := lift (py_get result "error" (PStr "Unknown error")) in
           emit (StError (refused_msg ++ format repr err))
       else
         emit (StError (status_msg ++ status_text response))) ->
  I (session_state w) ->
  (forall result success,
     py_get result "success" PNone = Ok success -> truthy success = true ->
     I (<[flag_key := PBool true]>
          (<[result_key := result]> (session_state w)))) ->
  wp c (fun _ w' => I (session_state w'))
       (fun _ w' => I (session_state w')) w.
Proof.
  intros -> Hinv Hdone. wp_steps.
  destruct (session_state w !! "session_id") as [session_id|]; [|exact Hinv].
  apply wp_bind, wp_make_api_request; [|discriminate].
  intros req _.
  destruct (net (sent w)) as [r|e]; cbv beta iota.
  2: { wp_case; wp_steps; exact Hinv. }
  simpl error_truthy. cbv iota.
  wp_case; [|wp_steps; exact Hinv].
  wp_steps. cbn [rbind].
  destruct (response_json r) as [result|]; [|exact Hinv].
  wp_steps. destruct (py_get result "success" PNone) as [success|] eqn:Hsucc;
    [|exact Hinv].
  wp_steps. destruct (truthy success) eqn:Htrue.
  - wp_steps. cbn [session_state advance with_session].
    assert (Hfinal := Hdone result success Hsucc Htrue).
    apply wp_render; [exact Hfinal|intros _; exact Hfinal].
  - wp_steps. wp_case; [|exact Hinv]. wp_steps. exact Hinv.
Qed.

Lemma identify_section_guarded i :
  keeps I I (identify_section url net display repr i).
Proof.
  intros w Hinv. unfold identify_section. wp_steps.
  destruct (truthy (default PNone (session_state w !! "upload_result"))
            && truthy (default PNone (session_state w !! "session_id")))
    eqn:Hguard; [|exact Hinv].
  apply andb_prop in Hguard as [Hur Hsid].
  apply wp_bind, wp_disabled_by; [|intros _; exact Hinv].
  intros column_disabled Hflag.
  destruct (st_button i IdentifyButton column_disabled) eqn:Hb; [|exact Hinv].
  eapply stage_clicked_guarded; [reflexivity|exact Hinv|].
  intros result success Hsucc Htrue.
  apply (I_identified _ result success); try assumption.
  apply Hflag. exact (st_button_enabled _ _ _ Hb).
Qed.

Lemma match_section_guarded i :
  keeps I I (match_section url net display repr i).
Proof.
  intros w Hinv. unfold match_section. wp_steps.
  destruct (truthy (default PNone
                      (session_state w !! "column_identification_result"))
            && truthy (default PNone (session_state w !! "session_id")))
    eqn:Hguard; [|exact Hinv].
  apply andb_prop in Hguard as [Hcir Hsid].
  apply wp_bind, wp_disabled_by; [|intros _; exact Hinv].
  intros matching_disabled Hflag.
  destruct (st_button i MatchButton matching_disabled) eqn:Hb; [|exact Hinv].
  eapply stage_clicked_guarded; [reflexivity|exact Hinv|].
  intros result success Hsucc Htrue.
  apply (I_matched _ result success); try assumption.
  apply Hflag. exact (st_button_enabled _ _ _ Hb).
Qed.

Lemma reset_section_guarded i : guarded I i (reset_section i).
Proof.
  intros w Hinv. apply wp_reset_section; [exact Hinv|].
  intros Hclick _. right. split; [reflexivity|]. split; [exact Hclick|].
  reflexivity.
Qed.

Lemma workflow_guarded i : guarded I i (workflow url net display repr i).
Proof.
  unfold workflow.
  apply guarded_bind; [apply guarded_keeps, upload_section_guarded|intros _].
  apply guarded_bind; [apply guarded_keeps, identify_section_guarded|intros _].
  apply guarded_bind; [apply guarded_keeps, match_section_guarded|intros _].
  apply guarded_bind;
    [apply guarded_keeps, keeps_download_section; exact (fun _ H => H)
    |intros _].
  apply guarded_bind; [apply reset_section_guarded|intros _].
  apply guarded_keeps, keeps_sidebar; [exact (fun _ H => H)|exact I_status].
Qed.

Lemma script_guarded i : guarded I i (script url net display repr i).
Proof.
  change (script url net display repr i)
    with (initialize_session_state ;;
          backend_status_check url net repr ;;
          workflow url net display repr i).
  apply guarded_bind;
    [apply guarded_keeps, keeps_initialize, I_default|intros _].
  apply guarded_bind;
    [apply guarded_keeps, (keeps_backend_status_check url net);
       [exact (fun _ H => H)|exact I_status]|intros _].
  apply workflow_guarded.
Qed.


End Guarded.

(** ** The stored results and the order of the stages *)

Lemma successful_response (result success : pyval) :
  py_get result "success" PNone = Ok success -> truthy success = true ->
  successful result.
Proof.
  intros Hget Htrue. destruct result; try discriminate Hget.
  exists d. split; [reflexivity|]. simpl in Hget. congruence.
Qed.

Lemma successful_not_none (v : pyval) : successful v -> v <> PNone.
Proof. intros (d & -> & _). discriminate. Qed.

Lemma results_invariant_empty : results_invariant ∅.
Proof.
  unfold results_invariant, none_or_successful, uploaded_by, flag, stored.
  rewrite !lookup_empty. simpl.
  split; [left; reflexivity|]. split; [discriminate|].
  split; [left; reflexivity|]. split; [split; [discriminate|congruence]|].
  split; [left; reflexivity|]. split; [split; [discriminate|congruence]|].
  discriminate.
Qed.

(** A key the invariant does not read. *)
Lemma results_invariant_other
  (s : gmap string pyval) (key : string) (v : pyval) :
  key <> "session_id" -> key <> "upload_result" -> key <> "files_uploaded" ->
  key <> "columns_identified" -> key <> "matching_completed" ->
  key <> "column_identification_result" -> key <> "matching_result" ->
  results_invariant s -> results_invariant (<[key := v]> s).
Proof.
  intros H1 H2 H3 H4 H5 H6 H7 Hinv.
  unfold results_invariant, uploaded_by, flag, stored in *.
  lookup_simpl. exact Hinv.
Qed.

Lemma flag_default (s : gmap string pyval) (key : string) (v : pyval) k :
  In (key, v) default_states -> s !! key = None ->
  flag (<[key := v]> s) k = flag s k.
Proof.
  intros Hin Hnone. unfold flag, stored.
  destruct (decide (key = k)) as [<-|Hne].
  - rewrite lookup_insert_eq, Hnone. simpl in Hin.
    destruct Hin as [H|[H|[H|[H|[H|[H|[H|[H|[]]]]]]]]];
      injection H as _ <-; reflexivity.
  - rewrite lookup_insert_ne by exact Hne. reflexivity.
Qed.

Lemma stored_default (s : gmap string pyval) (key : string) (v : pyval) k :
  In (key, v) default_states -> s !! key = None ->
  k <> "files_uploaded" -> k <> "columns_identified" ->
  k <> "matching_completed" ->
  stored (<[key := v]> s) k = stored s k.
Proof.
  intros Hin Hnone Hk1 Hk2 Hk3. unfold stored.
  destruct (decide (key = k)) as [<-|Hne].
  - rewrite lookup_insert_eq, Hnone. simpl in Hin.
    destruct Hin as [H|[H|[H|[H|[H|[H|[H|[H|[]]]]]]]]];
      injection H as Hkey <-; try reflexivity; congruence.
  - rewrite lookup_insert_ne by exact Hne. reflexivity.
Qed.

(** An absent key set to its default: what [get] reads of the session
    state is as before. *)
Lemma results_invariant_default
  (s : gmap string pyval) (key : string) (v : pyval) :
  In (key, v) default_states -> s !! key = None ->
  results_invariant s -> results_invariant (<[key := v]> s).
Proof.
  intros Hin Hnone (Hur & Hfu & Hcir & Hci & Hmr & Hmc & Hord).
  pose proof (flag_default s key v) as Hflag.
  pose proof (stored_default s key v) as Hstored.
  unfold results_invariant.
  rewrite !Hflag, !Hstored by (assumption || done).
  split; [exact Hur|]. split; [|tauto].
  intros Hset.
  destruct (Hfu Hset) as (result & success & Hlook & Hsucc & Htrue & Hitem).
  exists result, success.
  assert (Hne : key <> "upload_result") by congruence.
  rewrite lookup_insert_ne by exact Hne.
  rewrite Hstored by (assumption || done). auto.
Qed.

Lemma workflow_invariant_empty : workflow_invariant ∅.
Proof. split; [apply stage_invariant_empty|apply results_invariant_empty]. Qed.

Lemma workflow_invariant_default
  (s : gmap string pyval) (key : string) (v : pyval) :
  In (key, v) default_states -> s !! key = None ->
  workflow_invariant s -> workflow_invariant (<[key := v]> s).
Proof.
  intros Hin Hnone [Hst Hres].
  split; [apply stage_invariant_default|apply results_invariant_default];
    assumption.
Qed.

Lemma workflow_invariant_status (s : gmap string pyval) is_connected status :
  workflow_invariant s ->
  workflow_invariant
    (<["backend_status" := status_dict is_connected status]> s).
Proof.
  intros [Hst Hres].
  split; [apply stage_invariant_other|apply results_invariant_other]; done.
Qed.

Lemma workflow_invariant_uploaded
  (s : gmap string pyval) (result success session_id : pyval) :
  workflow_invariant s -> flag s "files_uploaded" = false ->
  py_get result "success" PNone = Ok success -> truthy success = true ->
  py_item result "session_id" = Ok session_id ->
  workflow_invariant
    (<["files_uploaded" := PBool true]>
       (<["session_id" := session_id]> (<["upload_result" := result]> s))).
Proof.
  intros [Hst (Hur & Hfu & Hrest)] Hflag Hsucc Htrue Hitem.
  split; [apply (stage_invariant_uploaded s result success); assumption|].
  unfold results_invariant, uploaded_by, flag, stored in *. lookup_simpl.
  split; [right; exact (successful_response _ _ Hsucc Htrue)|].
  split; [|exact Hrest].
  intros _. exists result, success. auto.
Qed.

Lemma workflow_invariant_upload_result
  (s : gmap string pyval) (result success : pyval) :
  workflow_invariant s -> flag s "files_uploaded" = false ->
  py_get result "success" PNone = Ok success -> truthy success = true ->
  workflow_invariant (<["upload_result" := result]> s).
Proof.
  intros [Hst (Hur & Hfu & Hrest)] Hflag Hsucc Htrue.
  split; [apply stage_invariant_upload_result; assumption|].
  unfold results_invariant, uploaded_by, flag, stored in *. lookup_simpl.
  split; [right; exact (successful_response _ _ Hsucc Htrue)|].
  split; [|exact Hrest].
  intros Hset. congruence.
Qed.

Lemma workflow_invariant_identified
  (s : gmap string pyval) (result success : pyval) :
  workflow_invariant s -> truthy (stored s "session_id") = true ->
  py_get result "success" PNone = Ok success -> truthy success = true ->
  workflow_invariant
    (<["columns_identified" := PBool true]>
       (<["column_identification_result" := result]> s)).
Proof.
  intros [Hst (Hur & Hfu & Hcir & Hci & Hmr & Hmc & Hord)] Hsid Hsucc Htrue.
  split; [apply stage_invariant_stage_done; [left; split; reflexivity| |];
          assumption|].
  pose proof (successful_response _ _ Hsucc Htrue) as Hres.
  unfold results_invariant, uploaded_by, flag, stored in *. lookup_simpl.
  split; [exact Hur|]. split; [exact Hfu|].
  split; [right; exact Hres|].
  split; [split; [intros _; exact (successful_not_none _ Hres)|reflexivity]|].
  split; [exact Hmr|]. split; [exact Hmc|]. reflexivity.
Qed.

Lemma workflow_invariant_matched
  (s : gmap string pyval) (result success : pyval) :
  workflow_invariant s ->
  truthy (stored s "column_identification_result") = true ->
  truthy (stored s "session_id") = true ->
  py_get result "success" PNone = Ok success -> truthy success = true ->
  workflow_invariant
    (<["matching_completed" := PBool true]>
       (<["matching_result" := result]> s)).
Proof.
  intros [Hst (Hur & Hfu & Hcir & Hci & Hmr & Hmc & Hord)] Hstored Hsid
    Hsucc Htrue.
  split; [apply stage_invariant_stage_done; [right; split; reflexivity| |];
          assumption|].
  pose proof (successful_response _ _ Hsucc Htrue) as Hres.
  assert (Hdone : flag s "columns_identified" = true).
  { apply Hci. intros Heq. rewrite Heq in Hstored. discriminate Hstored. }
  unfold results_invariant, uploaded_by, flag, stored in *. lookup_simpl.
  split; [exact Hur|]. split; [exact Hfu|].
  split; [exact Hcir|]. split; [exact Hci|].
  split; [right; exact Hres|].
  split; [split; [intros _; exact (successful_not_none _ Hres)|reflexivity]|].
  intros _. exact Hdone.
Qed.

Section Workflow.

Variable url : string.
Variable net : nat -> net_outcome.
Variable display : string -> pyval -> option pyexn.
Variable repr : pyval -> string.

Lemma interaction_workflow_invariant i w :
  workflow_invariant (session_state w) ->
  workflow_invariant (session_state (interaction url net display repr i w)).
Proof.
  intros Hinv.
  assert (Hscript : forall i', guarded workflow_invariant i'
                                 (script url net display repr i')).
  { apply script_guarded.
    - exact workflow_invariant_default.
    - intros s k status k' (result & w' & _ & -> & _).
      apply workflow_invariant_status.
    - exact workflow_invariant_uploaded.
    - exact workflow_invariant_upload_result.
    - intros s result success Hs _ Hsid _. apply workflow_invariant_identified;
        assumption.
    - intros s result success Hs Hcir Hsid _.
      apply workflow_invariant_matched; assumption. }
  unfold interaction.
  pose proof (Hscript i w Hinv) as H. unfold wp in H.
  destruct (script url net display repr i w) as [[[]|e] w1]; [exact H|].
  assert (Hw1 : workflow_invariant (session_state w1)).
  { destruct H as [H|(_ & _ & ->)]; [exact H|apply workflow_invariant_empty]. }
  destruct e; try exact Hw1.
  pose proof (Hscript (no_click i) w1 Hw1) as H'. unfold wp in H'.
  destruct (script url net display repr (no_click i) w1) as [[[]|e'] w2];
    [exact H'|].
  destruct H' as [H'|(_ & Hno & _)]; [exact H'|discriminate Hno].
Qed.

Lemma reachable_workflow_invariant w :
  reachable url net display repr w -> workflow_invariant (session_state w).
Proof.
  induction 1 as [w Hnew|w i _ IH].
  - rewrite Hnew. apply workflow_invariant_empty.
  - apply interaction_workflow_invariant. exact IH.
Qed.

End Workflow.

(** ** What a later interaction keeps of the session state *)


Section Progress.

Variable url : string.
Variable net : nat -> net_outcome.
Variable display : string -> pyval -> option pyexn.
Variable repr : pyval -> string.

(** The session state at the start of the interaction. *)
Variable s0 : gmap string pyval.









End Progress.

(** X20. Matching is completed only after the two stages before it: in
    every world reached from a new session, when [matching_completed] is
    set, [columns_identified] and [files_uploaded] are set as well and the
    results of all three stages are stored, each the JSON object of a
    response that reported success. *)
Theorem stages_in_order
  (url : string) (net : nat -> net_outcome)
  (display : string -> pyval -> option pyexn) (repr : pyval -> string)
  (w : world) :
  reachable url net display repr w ->
  flag (session_state w) "matching_completed" = true ->
  flag (session_state w) "columns_identified" = true
  /\ flag (session_state w) "files_uploaded" = true
  /\ successful (stored (session_state w) "upload_result")
  /\ successful (stored (session_state w) "column_identification_result")
  /\ successful (stored (session_state w) "matching_result").
Proof.
  intros Hreach Hdone.
  destruct (reachable_workflow_invariant url net display repr w Hreach)
    as [(Hsid & Hcsid & _) (Hur & Hfu & Hcir & Hci & Hmr & Hmc & Hord)].
  pose proof (Hord Hdone) as Hident.
  assert (Hne : stored (session_state w) "session_id" <> PNone).
  { intros Heq. apply Hcsid in Hident. rewrite Heq in Hident.
    discriminate Hident. }
  destruct (Hsid Hne) as [Hup _].
  split; [exact Hident|]. split; [exact Hup|].
  destruct (Hfu Hup) as (result & success & Hlook & Hsucc & Htrue & _).
  split; [|split].
  - unfold stored. rewrite Hlook. exact (successful_response _ _ Hsucc Htrue).
  - destruct Hcir as [Heq|H]; [|exact H]. apply Hci in Hident. contradiction.
  - destruct Hmr as [Heq|H]; [|exact H]. apply Hmc in Hdone. contradiction.
Qed.

Lemma stages_in_order_witness :
  flag (session_state (session_run cooperative all_stages))
       "columns_identified" = true
  /\ flag (session_state (session_run cooperative all_stages))
          "files_uploaded" = true.
Proof.
  destruct (stages_in_order "https://backend" cooperative quiet_display
              plain_repr (session_run cooperative all_stages))
    as (H1 & H2 & _).
  - apply session_run_reachable.
  - vm_compute. reflexivity.
  - split; assumption.
Defined.

(** X21. Only successful responses are stored: in every world reached
    from a new session, each of the three stored results is [None] or the
    JSON object of a response that reported success; the flag of column
    identification, and that of matching, is set exactly when its result
    is stored; and the upload flag is set only with the upload result
    stored. *)
Theorem stored_results_successful
  (url : string) (net : nat -> net_outcome)
  (display : string -> pyval -> option pyexn) (repr : pyval -> string)
  (w : world) :
  reachable url net display repr w ->
  let s := session_state w in
  none_or_successful (stored s "upload_result")
  /\ none_or_successful (stored s "column_identification_result")
  /\ none_or_successful (stored s "matching_result")
  /\ (flag s "files_uploaded" = true -> stored s "upload_result" <> PNone)
  /\ (flag s "columns_identified" = true
      <-> stored s "column_identification_result" <> PNone)
  /\ (flag s "matching_completed" = true
      <-> stored s "matching_result" <> PNone).
Proof.
  intros Hreach s.
  destruct (reachable_workflow_invariant url net display repr w Hreach)
    as [_ (Hur & Hfu & Hcir & Hci & Hmr & Hmc & _)].
  split; [exact Hur|]. split; [exact Hcir|]. split; [exact Hmr|].
  split; [|split; assumption].
  intros Hup.
  destruct (Hfu Hup) as (result & success & Hlook & Hsucc & Htrue & _).
  apply successful_not_none. unfold s, stored. rewrite Hlook.
  exact (successful_response _ _ Hsucc Htrue).
Qed.

Lemma stored_results_successful_witness :
  none_or_successful
    (stored (session_state (session_run cooperative all_stages))
            "matching_result").
Proof.
  destruct (stored_results_successful "https://backend" cooperative
              quiet_display plain_repr (session_run cooperative all_stages))
    as (_ & _ & H & _).
  - apply session_run_reachable.
  - exact H.
Defined.

(** X22. The full report download cannot fail once matching is completed:
    in every world reached from a new session where [matching_completed]
    is set, the stored matching result is a JSON object, the download
    section is shown, and a click on the report button returns with the
    report of that object handed to the JSON writer. *)
Theorem report_download_succeeds
  (url : string) (net : nat -> net_outcome)
  (display : string -> pyval -> option pyexn) (repr : pyval -> string)
  (i : input) (w : world) :
  reachable url net display repr w ->
  flag (session_state w) "matching_completed" = true ->
  clicked i = Some DownloadReportButton ->
  exists d,
    session_state w !! "matching_result" = Some (PDict d)
    /\ download_section i w
       = (Ok tt, advance w 0 [DownloadJson (full_report d)]).
Proof.
  intros Hreach Hdone Hclick.
  destruct (reachable_workflow_invariant url net display repr w Hreach)
    as [_ (_ & _ & _ & _ & Hmr & Hmc & _)].
  apply Hmc in Hdone.
  destruct Hmr as [Heq|(d & Hd & Hsucc)]; [contradiction|].
  assert (Hlook : session_state w !! "matching_result" = Some (PDict d)).
  { unfold stored in Hd. destruct (session_state w !! "matching_result");
      [simpl in Hd; congruence|discriminate Hd]. }
  exists d. split; [exact Hlook|].
  apply wp_returns. unfold download_section. wp_steps. rewrite Hlook.
  assert (Htruthy : truthy (default PNone (Some (PDict d))) = true).
  { destruct d; [discriminate Hsucc|reflexivity]. }
  rewrite Htruthy. cbv iota. unfold st_button. rewrite Hclick.
  cbn [button_eqb andb negb]. wp_steps.
  unfold download_report_clicked. wp_steps. rewrite Hlook. wp_steps.
  split; reflexivity.
Qed.

Lemma report_download_succeeds_witness :
  exists d,
    session_state (session_run cooperative all_stages) !! "matching_result"
    = Some (PDict d)
    /\ download_section (two_files (Some DownloadReportButton))
         (session_run cooperative all_stages)
       = (Ok tt, advance (session_run cooperative all_stages) 0
                   [DownloadJson (full_report d)]).
Proof.
  apply (report_download_succeeds "https://backend" cooperative quiet_display
           plain_repr).
  - apply session_run_reachable.
  - vm_compute. reflexivity.
  - reflexivity.
Defined.



(** ** The session state after an interaction *)

Lemma probed_session_other (url : string) (net : nat -> net_outcome)
  (s : gmap string pyval) key v :
  key <> "backend_status" ->
  probed_session url net s -> probed_session url net (<[key := v]> s).
Proof.
  intros Hne [Hinit (k & k' & Hprobed)].
  split; [apply initialised_insert, Hinit|]. exists k, k'.
  unfold stored in *. rewrite lookup_insert_ne by exact Hne. exact Hprobed.
Qed.

Lemma probed_session_status (url : string) (net : nat -> net_outcome)
  (s : gmap string pyval) k status k' :
  probed url net k status k' -> initialised s ->
  probed_session url net (<["backend_status" := status]> s).
Proof.
  intros Hprobed Hinit. split; [apply initialised_insert, Hinit|].
  exists k, k'. unfold stored. rewrite lookup_insert_eq. exact Hprobed.
Qed.

Section ProbedSession.

Variable url : string.
Variable net : nat -> net_outcome.
Variable display : string -> pyval -> option pyexn.
Variable repr : pyval -> string.

Lemma workflow_probed i :
  guarded (probed_session url net) i (workflow url net display repr i).
Proof.
  apply workflow_guarded.
  - intros s k status k' Hprobed [Hinit _].
    exact (probed_session_status url net s k status k' Hprobed Hinit).
  - intros s result success session_id Hs _ _ _ _.
    repeat apply probed_session_other; done.
  - intros s result success Hs _ _ _. apply probed_session_other; done.
  - intros s result success Hs _ _ _ _ _.
    repeat apply probed_session_other; done.
  - intros s result success Hs _ _ _ _ _.
    repeat apply probed_session_other; done.
Qed.

Lemma script_probed i w :
  probed_session url net (session_state w) \/ session_state w = ∅ ->
  wp (script url net display repr i)
     (fun _ w' => probed_session url net (session_state w'))
     (held_or_reset (probed_session url net) i) w.
Proof.
  change (script url net display repr i)
    with (initialize_session_state ;;
          backend_status_check url net repr ;;
          workflow url net display repr i).
  intros Hw. apply wp_bind, wp_initialize. cbv beta.
  destruct Hw as [[Hinit (k & k' & Hprobed)]|Hnew].
  - rewrite (fill_defaults_initialised _ Hinit).
    assert (Hknown : status_known (session_state w)).
    { destruct Hprobed as (result & wr & _ & Hstatus & _).
      exists (fst result), (snd result). unfold stored in Hstatus.
      destruct (session_state w !! "backend_status") as [v|]; [|discriminate].
      simpl in Hstatus. congruence. }
    apply wp_quiet_bind.
    + apply quiet_status_check. exact Hknown.
    + intros w' [Hstate _]. apply workflow_probed. rewrite Hstate.
      split; [exact Hinit|]. exists k, k'. exact Hprobed.
  - apply wp_bind, wp_status_check_unknown.
    + cbn [session_state with_session]. rewrite Hnew, fill_defaults_new.
      reflexivity.
    + intros w' status Hprobed _ Hstate.
      cbn [session_state sent with_session] in Hstate, Hprobed.
      rewrite Hnew, fill_defaults_new in Hstate.
      apply workflow_probed. rewrite Hstate.
      exact (probed_session_status url net _ _ _ _ Hprobed
               initialised_default_session).
Qed.

Lemma interaction_probed i w :
  probed_session url net (session_state w) \/ session_state w = ∅ ->
  probed_session url net
    (session_state (interaction url net display repr i w)).
Proof.
  intros Hw. unfold interaction.
  pose proof (script_probed i w Hw) as H. unfold wp in H.
  destruct (script url net display repr i w) as [[[]|e] w1]; [exact H|].
  assert (Hrerun : forall w2,
            probed_session url net (session_state w2)
            \/ session_state w2 = ∅ ->
            probed_session url net
              (session_state
                 (snd (script url net display repr (no_click i) w2)))).
  { intros w2 Hw2. pose proof (script_probed (no_click i) w2 Hw2) as H'.
    unfold wp in H'.
    destruct (script url net display repr (no_click i) w2) as [[[]|e'] w3];
      [exact H'|].
    destruct H' as [H'|(_ & Hno & _)]; [exact H'|discriminate Hno]. }
  destruct H as [H|(-> & _ & Hcleared)].
  - destruct e; try exact H. apply Hrerun. left. exact H.
  - apply Hrerun. right. exact Hcleared.
Qed.

Lemma reachable_probed w :
  reachable url net display repr w ->
  probed_session url net (session_state w) \/ session_state w = ∅.
Proof.
  induction 1 as [w Hnew|w i _ IH].
  - right. exact Hnew.
  - left. apply interaction_probed. exact IH.
Qed.

End ProbedSession.

(** X24. After an interaction a session has its eight keys and a probed
    status: whatever world reached from a new session the interaction
    starts in, whatever is clicked and however the run ends, the session
    state then stores a value under each key of [default_states], and
    what it stores under [backend_status] is the result of a run of
    the health probe against this backend. *)
Theorem interaction_leaves_initialised
  (url : string) (net : nat -> net_outcome)
  (display : string -> pyval -> option pyexn) (repr : pyval -> string)
  (i : input) (w : world) :
  reachable url net display repr w ->
  (forall key v, In (key, v) default_states ->
     is_Some (session_state (interaction url net display repr i w) !! key))
  /\ exists k k',
       probed url net k
         (stored (session_state (interaction url net display repr i w))
                 "backend_status") k'.
Proof.
  intros Hreach.
  exact (interaction_probed url net display repr i w
           (reachable_probed url net display repr w Hreach)).
Qed.

Lemma interaction_leaves_initialised_witness :
  (forall key v, In (key, v) default_states ->
     is_Some (session_state
                (interaction "https://backend" connect_times_out quiet_display
                   plain_repr (two_files (Some UploadButton)) fresh_world)
              !! key))
  /\ exists k k',
       probed "https://backend" connect_times_out k
         (stored (session_state
                    (interaction "https://backend" connect_times_out
                       quiet_display plain_repr
                       (two_files (Some UploadButton)) fresh_world))
                 "backend_status") k'.
Proof.
  apply (interaction_leaves_initialised "https://backend" connect_times_out
           quiet_display plain_repr).
  apply reachable_new. reflexivity.
Defined.
